(** * Class names, reference sites and their propagation (Blockly.Class)

    A shallow embedding of the class extension of the block editor:
    [Blockly.Class] (name resolution, member queries, rename propagation)
    and the [object_variables_get] block of [blocks/variables.js]
    (the reference site), with the properties of the specification
    stated and settled on it.  Beside them: the colour counter, the
    catalogue of classes and the toolbox category of [Blockly.Class], the
    blocks [variables_get] and [variables_set], and what a workspace of
    [core/workspace_svg.js] answers about moving and does about resizing.

    JavaScript strings are modelled by [string]: one [ascii] per code unit,
    read as Latin-1 (code units 0..255).  JavaScript numbers occur only as
    non-negative integers (a count, or the value of a decimal suffix); the
    value of a suffix goes through the double-precision rounding of
    [parseInt] and [+], which is written out on [N]. *)

From Stdlib Require Import String Ascii List NArith ZArith Lia Bool Arith.
From Stdlib Require Import Permutation.
Import ListNotations.

Local Open Scope string_scope.
Local Open Scope list_scope.

(* ================================================================== *)
(** * JavaScript strings, regular expressions and numbers *)
(* ================================================================== *)

Module JS.

(** ** Character classes *)

Definition code (c : ascii) : N := N_of_ascii c.

(** [\d] *)
Definition is_digit (c : ascii) : bool :=
  (48 <=? code c)%N && (code c <=? 57)%N.

(** [[\s\xa0]] on code units 0..255: TAB, LF, VT, FF, CR, SP, NBSP. *)
Definition is_space (c : ascii) : bool :=
  ((9 <=? code c)%N && (code c <=? 13)%N)
  || (code c =? 32)%N || (code c =? 160)%N.

(** The characters [.] does not match (no [s] flag), among the code units
    0..255: LF and CR. *)
Definition is_line_terminator (c : ascii) : bool :=
  (code c =? 10)%N || (code c =? 13)%N.

(** ** [name.replace(/^[\s\xa0]+|[\s\xa0]+$/g, "")] *)

Fixpoint trim_start (s : string) : string :=
  match s with
  | EmptyString => EmptyString
  | String c s' => if is_space c then trim_start s' else s
  end.

Fixpoint trim_end (s : string) : string :=
  match s with
  | EmptyString => EmptyString
  | String c s' =>
      match trim_end s' with
      | EmptyString => if is_space c then EmptyString else String c EmptyString
      | t => String c t
      end
  end.

Definition trim (s : string) : string := trim_end (trim_start s).

(** ** [name.match(/^(.*?)(\d+)$/)] *)

Fixpoint all_digits (s : string) : bool :=
  match s with
  | EmptyString => true
  | String c s' => is_digit c && all_digits s'
  end.

(** [(\d+)$] tried on the whole of what is left. *)
Definition digits_to_end (s : string) : bool :=
  match s with
  | EmptyString => false
  | String _ _ => all_digits s
  end.

(** The lazy group [(.*?)] is tried empty first and then grows by one
    character at a time, each of which [.] has to match; after each step
    [(\d+)$] is tried on the rest.  The result is [r[1]], [r[2]], or [None]
    for [null]. *)
Fixpoint match_suffix (s : string) : option (string * string) :=
  if digits_to_end s then Some (EmptyString, s)
  else
    match s with
    | EmptyString => None
    | String c s' =>
        if is_line_terminator c then None
        else
          match match_suffix s' with
          | Some (p, d) => Some (String c p, d)
          | None => None
          end
    end.

(** ** Numbers *)

(** The Number values that can arise from a decimal suffix: a non-negative
    integer that is a double, or [+Infinity]. *)
Inductive number : Type :=
| Fin (n : N)
| PInf.

(** Mathematical value of a string of decimal digits. *)
Fixpoint digits_value (acc : N) (s : string) : N :=
  match s with
  | EmptyString => acc
  | String c s' => digits_value (10 * acc + (code c - 48)) s'
  end.

(** The Number value of a non-negative integer: the nearest double, ties to
    the even significand; integers below [2^53] are doubles themselves. *)
Definition to_double (n : N) : number :=
  if (n <? 2 ^ 53)%N then Fin n
  else
    let e := (N.log2 n - 52)%N in
    let q := (n / 2 ^ e)%N in
    let r := (n mod 2 ^ e)%N in
    let half := (2 ^ (e - 1))%N in
    let q' :=
      if (r <? half)%N then q
      else if (half <? r)%N then (q + 1)%N
      else if N.even q then q else (q + 1)%N in
    let v := (q' * 2 ^ e)%N in
    if (2 ^ 1024 <=? v)%N then PInf else Fin v.

(** [parseInt(s, 10)] on a string matched by [\d+]: the Number value of
    the integer the digits denote. *)
Definition parseInt (s : string) : number := to_double (digits_value 0 s).

(** [x + 1] *)
Definition add1 (x : number) : number :=
  match x with
  | Fin n => to_double (n + 1)
  | PInf => PInf
  end.

(** The character of a decimal digit. *)
Definition digit_char (d : N) : ascii := ascii_of_N (48 + d).

(** Decimal digits of an integer, the most significant first; [fuel] is
    an upper bound of their number. *)
Fixpoint dec_digits (fuel : nat) (n : N) : string :=
  match fuel with
  | O => EmptyString
  | S fuel' =>
      if (n <? 10)%N then String (digit_char n) EmptyString
      else dec_digits fuel' (n / 10)%N
           ++ String (digit_char (n mod 10)%N) EmptyString
  end.

Definition dec (n : N) : string := dec_digits (S (N.to_nat (N.log2 n))) n.

Definition ndigits (n : N) : N := N.of_nat (String.length (dec n)).

(** The decimal with the fewest significant digits that still reads back as
    the double [x], the closest to [x] among those (Number::toString, the
    choice of [n], [k] and [s]); [k] counts the significant digits tried. *)
Fixpoint shortest_decimal (fuel : nat) (k : N) (x : N) : N :=
  match fuel with
  | O => x
  | S fuel' =>
      if (ndigits x <=? k)%N then x
      else
        let scale := (10 ^ (ndigits x - k))%N in
        let lo := (x / scale * scale)%N in
        let hi := (lo + scale)%N in
        let ok v := match to_double v with
                    | Fin y => (y =? x)%N
                    | PInf => false
                    end in
        match ok lo, ok hi with
        | true, true =>
            if (x - lo <? hi - x)%N then lo
            else if (hi - x <? x - lo)%N then hi
            else if N.even (x / scale) then lo else hi
        | true, false => lo
        | false, true => hi
        | false, false => shortest_decimal fuel' (k + 1)%N x
        end
  end.

Fixpoint strip_zeros (fuel : nat) (v : N) : N :=
  match fuel with
  | O => v
  | S fuel' =>
      if (v =? 0)%N then v
      else if (v mod 10 =? 0)%N then strip_zeros fuel' (v / 10)%N else v
  end.

(** [String(x)] for the numbers above (Number::toString, radix 10):
    "Infinity"; the digits of an integer below [2^53], which are its
    shortest decimal; otherwise the shortest decimal, written out in full
    up to 21 digits and with an exponent beyond. *)
Definition Number_toString (x : number) : string :=
  match x with
  | PInf => "Infinity"
  | Fin n =>
      if (n <? 2 ^ 53)%N then dec n
      else
        let v := shortest_decimal (String.length (dec n)) 1 n in
        if (ndigits v <=? 21)%N then dec v
        else
          let s := dec (strip_zeros (String.length (dec v)) v) in
          let e := dec (ndigits v - 1) in
          match s with
          | String d EmptyString => String d ("e+" ++ e)
          | String d rest => String d ("." ++ rest ++ "e+" ++ e)
          | EmptyString => EmptyString
          end
  end.

(** JavaScript truthiness of a string. *)
Definition truthy (s : string) : bool :=
  match s with EmptyString => false | _ => true end.

End JS.

(** [Blockly.Class.arraysEqual], the three kinds of value it returns. *)
Inductive arraysEqual_result : Type :=
| RFalse
| RTrue
| RIndex (i : nat).

(** [arr1[i] !== arr2[i]]; an index out of range reads [undefined]. *)
Definition strict_neq (x y : option string) : bool :=
  match x, y with
  | Some a, Some b => negb (String.eqb a b)
  | None, None => false
  | _, _ => true
  end.

(** [for (var i = arr1.length; i--; ) if (arr1[i] !== arr2[i]) return i;]
    with [i] still to be decremented: the body runs at [i - 1], ..., [0]. *)
Fixpoint arraysEqual_loop (arr1 arr2 : list string) (i : nat)
  : arraysEqual_result :=
  match i with
  | O => RTrue
  | S j =>
      if strict_neq (nth_error arr1 j) (nth_error arr2 j) then RIndex j
      else arraysEqual_loop arr1 arr2 j
  end.

Definition arraysEqual (arr1 arr2 : list string) : arraysEqual_result :=
  if negb (Nat.eqb (length arr1) (length arr2)) then RFalse
  else arraysEqual_loop arr1 arr2 (length arr1).

(* ================================================================== *)
(** * Blocks and workspaces *)
(* ================================================================== *)

(** A connection of a block; [targetBlock] is the id of the block on the
    other side when the connection is connected. *)
Record connection : Type := mkConnection {
  targetBlock : option string
}.

Definition isConnected (c : connection) : bool :=
  match targetBlock c with Some _ => true | None => false end.

(** The fields of an input row. *)
Inductive field : Type :=
| FieldVariable (name : string) (variableId : string)
| FieldDropdown (name : string) (options : list (string * string))
                (value : string)
| FieldLabel (text : string).

Inductive input_type : Type := DUMMY_INPUT | INPUT_VALUE.

Record input : Type := mkInput {
  input_name : string;
  input_kind : input_type;
  fieldRow : list field;
  input_target : option string   (* id of the block plugged into a value input *)
}.

(** A string property or argument of a block that may also be [undefined]
    or [null]. *)
Inductive value : Type :=
| Undefined
| Null
| Str (s : string).

(** The calls a reference site makes on its connections, in order. *)
Inductive call : Type :=
| NextConnection_disconnect
| PreviousConnection_disconnect
| SetNextStatement (b : bool)
| SetPreviousStatement (b : bool)
| SetOutput (b : bool).

(** The state of an [object_variables_get] block (a reference site):
    the properties its own code sets and reads.  [isReturn] is [None] while
    it is [undefined]; [argNames] is [None] once [false] has been stored in
    it. *)
Record site : Type := mkSite {
  varType : string;
  varTypeIsSet : bool;
  methods : list string;        (* the class's method blocks, by their NAME *)
  classVariables : list string;
  args : nat;
  argNames : option (list string);
  colourIsSet : bool;
  colour : N;
  typeOfValue : value;
  curValue : value;
  isReturn : option bool;
  inputList : list input;
  nextConnection : option connection;
  previousConnection : option connection;
  outputConnection : option connection;
  calls : list call
}.

(** Assignments to the properties of a site: [this.p = v]. *)
Definition set_varType (v : string) (this : site) : site :=
  mkSite v (varTypeIsSet this) (methods this) (classVariables this) (args
    this) (argNames this) (colourIsSet this) (colour this) (typeOfValue
    this) (curValue this) (isReturn this) (inputList this) (nextConnection
    this) (previousConnection this) (outputConnection this) (calls this).

Definition set_varTypeIsSet (v : bool) (this : site) : site :=
  mkSite (varType this) v (methods this) (classVariables this) (args this)
    (argNames this) (colourIsSet this) (colour this) (typeOfValue this)
    (curValue this) (isReturn this) (inputList this) (nextConnection this)
    (previousConnection this) (outputConnection this) (calls this).

Definition set_methods (v : list string) (this : site) : site :=
  mkSite (varType this) (varTypeIsSet this) v (classVariables this) (args
    this) (argNames this) (colourIsSet this) (colour this) (typeOfValue
    this) (curValue this) (isReturn this) (inputList this) (nextConnection
    this) (previousConnection this) (outputConnection this) (calls this).

Definition set_classVariables (v : list string) (this : site) : site :=
  mkSite (varType this) (varTypeIsSet this) (methods this) v (args this)
    (argNames this) (colourIsSet this) (colour this) (typeOfValue this)
    (curValue this) (isReturn this) (inputList this) (nextConnection this)
    (previousConnection this) (outputConnection this) (calls this).

Definition set_args (v : nat) (this : site) : site :=
  mkSite (varType this) (varTypeIsSet this) (methods this) (classVariables
    this) v (argNames this) (colourIsSet this) (colour this) (typeOfValue
    this) (curValue this) (isReturn this) (inputList this) (nextConnection
    this) (previousConnection this) (outputConnection this) (calls this).

Definition set_argNames (v : option (list string)) (this : site) : site :=
  mkSite (varType this) (varTypeIsSet this) (methods this) (classVariables
    this) (args this) v (colourIsSet this) (colour this) (typeOfValue this)
    (curValue this) (isReturn this) (inputList this) (nextConnection this)
    (previousConnection this) (outputConnection this) (calls this).

Definition set_colourIsSet (v : bool) (this : site) : site :=
  mkSite (varType this) (varTypeIsSet this) (methods this) (classVariables
    this) (args this) (argNames this) v (colour this) (typeOfValue this)
    (curValue this) (isReturn this) (inputList this) (nextConnection this)
    (previousConnection this) (outputConnection this) (calls this).

Definition set_colour (v : N) (this : site) : site :=
  mkSite (varType this) (varTypeIsSet this) (methods this) (classVariables
    this) (args this) (argNames this) (colourIsSet this) v (typeOfValue
    this) (curValue this) (isReturn this) (inputList this) (nextConnection
    this) (previousConnection this) (outputConnection this) (calls this).

Definition set_typeOfValue (v : value) (this : site) : site :=
  mkSite (varType this) (varTypeIsSet this) (methods this) (classVariables
    this) (args this) (argNames this) (colourIsSet this) (colour this) v
    (curValue this) (isReturn this) (inputList this) (nextConnection this)
    (previousConnection this) (outputConnection this) (calls this).

Definition set_curValue (v : value) (this : site) : site :=
  mkSite (varType this) (varTypeIsSet this) (methods this) (classVariables
    this) (args this) (argNames this) (colourIsSet this) (colour this)
    (typeOfValue this) v (isReturn this) (inputList this) (nextConnection
    this) (previousConnection this) (outputConnection this) (calls this).

Definition set_isReturn (v : option bool) (this : site) : site :=
  mkSite (varType this) (varTypeIsSet this) (methods this) (classVariables
    this) (args this) (argNames this) (colourIsSet this) (colour this)
    (typeOfValue this) (curValue this) v (inputList this) (nextConnection
    this) (previousConnection this) (outputConnection this) (calls this).

Definition set_inputList (v : list input) (this : site) : site :=
  mkSite (varType this) (varTypeIsSet this) (methods this) (classVariables
    this) (args this) (argNames this) (colourIsSet this) (colour this)
    (typeOfValue this) (curValue this) (isReturn this) v (nextConnection
    this) (previousConnection this) (outputConnection this) (calls this).

Definition set_nextConnection (v : option connection) (this : site) : site :=
  mkSite (varType this) (varTypeIsSet this) (methods this) (classVariables
    this) (args this) (argNames this) (colourIsSet this) (colour this)
    (typeOfValue this) (curValue this) (isReturn this) (inputList this) v
    (previousConnection this) (outputConnection this) (calls this).

Definition set_previousConnection (v : option connection) (this : site) : site :=
  mkSite (varType this) (varTypeIsSet this) (methods this) (classVariables
    this) (args this) (argNames this) (colourIsSet this) (colour this)
    (typeOfValue this) (curValue this) (isReturn this) (inputList this)
    (nextConnection this) v (outputConnection this) (calls this).

Definition set_outputConnection (v : option connection) (this : site) : site :=
  mkSite (varType this) (varTypeIsSet this) (methods this) (classVariables
    this) (args this) (argNames this) (colourIsSet this) (colour this)
    (typeOfValue this) (curValue this) (isReturn this) (inputList this)
    (nextConnection this) (previousConnection this) v (calls this).

Definition set_calls (v : list call) (this : site) : site :=
  mkSite (varType this) (varTypeIsSet this) (methods this) (classVariables
    this) (args this) (argNames this) (colourIsSet this) (colour this)
    (typeOfValue this) (curValue this) (isReturn this) (inputList this)
    (nextConnection this) (previousConnection this) (outputConnection this)
    v.

(** A class definition block, through the capabilities [Blockly.Class]
    probes: [getClassDef()], [methods] (each method block by its NAME field),
    [getAttributeInputs()], [getColour()].  Every block that answers
    [getStatement] is a class definition block. *)
Record class_def : Type := mkClass {
  getClassDef : string;
  class_methods : list string;
  getAttributeInputs : list string;
  getColour : N
}.

(** A method definition block: its [type] and [getMethodDef()], the name
    and the list of parameter names. *)
Record method_def : Type := mkMethod {
  method_type : string;
  getMethodDef : string * list string
}.

(** A variable of the workspace, as [onchange] and [renameScope] read it. *)
Record VariableModel : Type := mkVariable {
  var_id : string;
  var_name : string;
  var_type : string;
  typeSet : bool
}.

Section Model.

(** [Blockly.Names.equals], the name-equality predicate of the environment
    (core/names.js is not among the sources). *)
Variable Names_equals : string -> string -> bool.

(** Blocks of the other types of the editor, with what they do when they
    are asked to rename a class, to record an old name and to rename a
    method; a block without the capability is left as it is by the function.
    [foreign_getClassName] is [None] for a block without [getClassName] or
    whose [getClassName()] is falsy; [foreign_update] is its [update()]. *)
Variable Foreign : Type.
Variable foreign_renameClass : Foreign -> string -> string -> Foreign.
Variable foreign_setOldName : Foreign -> string -> Foreign.
Variable foreign_renameProcedure : Foreign -> string -> string -> Foreign.
Variable foreign_getClassName : Foreign -> option string.
Variable foreign_update : Foreign -> Foreign.

(** [Blockly.Variables.renameScope(workspace, oldName, legalName)], the
    rename service of the variable-scope subsystem (core/variables.js is not
    among the sources); it acts on the variables of the workspace. *)
Variable renameScope :
  list VariableModel -> string -> string -> list VariableModel.

Inductive block_body : Type :=
| ClassB (c : class_def)
| MethodB (m : method_def)
| SiteB (s : site)
| ForeignB (f : Foreign).

(** A block; object identity is identity of [id]. *)
Record block : Type := mkBlock {
  id : string;
  isInFlyout : bool;
  body : block_body
}.

(** A workspace: [getAllBlocks(false)] in its order, and the variables. *)
Record workspace : Type := mkWorkspace {
  getAllBlocks : list block;
  variableMap : list VariableModel
}.

Definition same_block (b e : block) : bool := String.eqb (id b) (id e).

(** ** Queries of [Blockly.Class] *)

(** [Blockly.Class.getClassByName]: the first class block of that name. *)
Fixpoint getClassByName_loop (blocks : list block) (className : string)
  : option class_def :=
  match blocks with
  | [] => None
  | b :: rest =>
      match body b with
      | ClassB c =>
          if String.eqb (getClassDef c) className then Some c
          else getClassByName_loop rest className
      | _ => getClassByName_loop rest className
      end
  end.

Definition getClassByName (ws : workspace) (className : string)
  : option class_def :=
  getClassByName_loop (getAllBlocks ws) className.

(** [Blockly.Class.getMethods]: [methods] starts as [[]] and is overwritten
    by each block that answers [getStatement] and whose class name is
    [classname]. *)
Fixpoint getMethods_loop (blocks : list block) (classname : string)
  (methods : list string) : list string :=
  match blocks with
  | [] => methods
  | b :: rest =>
      match body b with
      | ClassB c =>
          if String.eqb classname (getClassDef c)
          then getMethods_loop rest classname (class_methods c)
          else getMethods_loop rest classname methods
      | _ => getMethods_loop rest classname methods
      end
  end.

Definition getMethods (ws : workspace) (classname : string) : list string :=
  getMethods_loop (getAllBlocks ws) classname [].

(** [Blockly.Class.getClassVariables] *)
Fixpoint getClassVariables_loop (blocks : list block) (classname : string)
  (variables_ : list string) : list string :=
  match blocks with
  | [] => variables_
  | b :: rest =>
      match body b with
      | ClassB c =>
          if String.eqb classname (getClassDef c)
          then getClassVariables_loop rest classname (getAttributeInputs c)
          else getClassVariables_loop rest classname variables_
      | _ => getClassVariables_loop rest classname variables_
      end
  end.

Definition getClassVariables (ws : workspace) (classname : string)
  : list string :=
  getClassVariables_loop (getAllBlocks ws) classname [].

(** [Blockly.Class.getMethodAttributes]: the parameters of the first method
    block of that name, [None] for [false]. *)
Fixpoint getMethodAttributes_loop (blocks : list block) (methodName : string)
  : option (list string) :=
  match blocks with
  | [] => None
  | b :: rest =>
      match body b with
      | MethodB m =>
          if String.eqb (fst (getMethodDef m)) methodName
          then Some (snd (getMethodDef m))
          else getMethodAttributes_loop rest methodName
      | _ => getMethodAttributes_loop rest methodName
      end
  end.

Definition getMethodAttributes (ws : workspace) (methodName : string)
  : option (list string) :=
  getMethodAttributes_loop (getAllBlocks ws) methodName.

(** ** Legal names *)

(** [Blockly.Class.isNameUsed] *)
Fixpoint isNameUsed_loop (name : string) (blocks : list block)
  (opt_exclude : option block) (type : string) : bool :=
  match blocks with
  | [] => false
  | b :: rest =>
      if match opt_exclude with
         | Some e => same_block b e
         | None => false
         end
      then isNameUsed_loop name rest opt_exclude type
      else
        if (String.eqb type "class" &&
            match body b with
            | ClassB c => Names_equals (getClassDef c) name
            | _ => false
            end)
        then true
        else
          if (String.eqb type "method" &&
              match body b with
              | MethodB m => Names_equals (fst (getMethodDef m)) name
              | _ => false
              end)
          then true
          else isNameUsed_loop name rest opt_exclude type
  end.

Definition isNameUsed (name : string) (ws : workspace)
  (opt_exclude : option block) (type : string) : bool :=
  isNameUsed_loop name (getAllBlocks ws) opt_exclude type.

(** [Blockly.Class.isLegalName_] *)
Definition isLegalName_ (name : string) (ws : workspace)
  (opt_exclude : option block) (type : string) : bool :=
  negb (isNameUsed name ws opt_exclude type).

(** The body of the loop of [findLegalName]: the next candidate. *)
Definition nextName (name : string) : string :=
  match JS.match_suffix name with
  | None => name ++ "2"
  | Some (r1, r2) => r1 ++ JS.Number_toString (JS.add1 (JS.parseInt r2))
  end.

(** The [while] loop of [findLegalName], [fuel] bounding the number of
    times its condition is evaluated; [None] when the bound is reached. *)
Fixpoint findLegalName_loop (fuel : nat) (name : string) (ws : workspace)
  (blk : block) (type : string) : option string :=
  match fuel with
  | O => None
  | S fuel' =>
      if isLegalName_ name ws (Some blk) type then Some name
      else findLegalName_loop fuel' (nextName name) ws blk type
  end.

(** [Blockly.Class.findLegalName(name, block, type)]; [ws] is
    [block.workspace]. *)
Definition findLegalName (fuel : nat) (name : string) (ws : workspace)
  (blk : block) (type : string) : option string :=
  if isInFlyout blk then Some name
  else findLegalName_loop fuel name ws blk type.

(** ** Inputs of a block (framework operations on [inputList])

    Modelled from the spec: the input operations of the editor framework
    (core/block.js is not among the sources): value-input sockets are named,
    ordered, appended at the end, removed by name and moved before another
    input (section 4.5, step 5). *)

Definition getInput (name : string) (inputs : list input) : option input :=
  find (fun i => String.eqb (input_name i) name) inputs.

Fixpoint removeInput (name : string) (inputs : list input) : list input :=
  match inputs with
  | [] => []
  | i :: rest =>
      if String.eqb (input_name i) name then rest
      else i :: removeInput name rest
  end.

Fixpoint insertBefore (refName : string) (i : input) (inputs : list input)
  : list input :=
  match inputs with
  | [] => [i]
  | j :: rest =>
      if String.eqb (input_name j) refName then i :: j :: rest
      else j :: insertBefore refName i rest
  end.

(** [moveInputBefore(name, refName)]; [None] for [null], the end. *)
Definition moveInputBefore (name : string) (refName : option string)
  (inputs : list input) : list input :=
  match getInput name inputs with
  | None => inputs
  | Some i =>
      match refName with
      | None => removeInput name inputs ++ [i]
      | Some r =>
          if String.eqb name r then inputs
          else insertBefore r i (removeInput name inputs)
      end
  end.

(** [appendValueInput(name).appendField(label)] *)
Definition appendValueInput (name label : string) (inputs : list input)
  : list input :=
  inputs ++ [mkInput name INPUT_VALUE [FieldLabel label] None].

Definition field_value (name : string) (f : field) : option string :=
  match f with
  | FieldVariable n v => if String.eqb n name then Some v else None
  | FieldDropdown n _ v => if String.eqb n name then Some v else None
  | FieldLabel _ => None
  end.

Fixpoint row_value (name : string) (row : list field) : option string :=
  match row with
  | [] => None
  | f :: rest =>
      match field_value name f with
      | Some v => Some v
      | None => row_value name rest
      end
  end.

(** [getFieldValue(name)]: [null] when no field has that name. *)
Fixpoint getFieldValue (name : string) (inputs : list input) : value :=
  match inputs with
  | [] => Null
  | i :: rest =>
      match row_value name (fieldRow i) with
      | Some v => Str v
      | None => getFieldValue name rest
      end
  end.

(** ["ARG" + n] *)
Definition argName (n : nat) : string := "ARG" ++ JS.dec (N.of_nat n).

(** ** Values that may be [undefined] or [null] *)

(** [x == y] *)
Definition loose_eq (x y : value) : bool :=
  match x, y with
  | Str a, Str b => String.eqb a b
  | Str _, _ | _, Str _ => false
  | _, _ => true
  end.

(** The comparison of [includes]: [undefined] and [null] differ. *)
Definition same_value (x y : value) : bool :=
  match x, y with
  | Str a, Str b => String.eqb a b
  | Undefined, Undefined => true
  | Null, Null => true
  | _, _ => false
  end.

(** Truthiness: a string other than the empty string. *)
Definition truthy_value (x : value) : bool :=
  match x with Str s => JS.truthy s | _ => false end.

(** [arr.includes(v)] on an array of strings. *)
Definition includes (arr : list string) (v : value) : bool :=
  existsb (fun a => same_value (Str a) v) arr.

(** [arr.includes(v)] on an array whose elements may be [undefined]. *)
Definition includes_value (arr : list value) (v : value) : bool :=
  existsb (fun a => same_value a v) arr.

(** ** Connections of a site (framework operations)

    Modelled from the spec: the connection setters of the editor framework
    (core/block.js is not among the sources): a block exposes a next, a
    previous and an output connection or not (section 4.5, step 6).  Each
    call is recorded in [calls], the newest last. *)

Definition log (c : call) (this : site) : site :=
  set_calls (calls this ++ [c]) this.

Definition ensure (c : option connection) : option connection :=
  match c with
  | Some x => Some x
  | None => Some (mkConnection None)
  end.

Definition setNextStatement (b : bool) (this : site) : site :=
  log (SetNextStatement b)
      (set_nextConnection
         (if b then ensure (nextConnection this) else None) this).

Definition setPreviousStatement (b : bool) (this : site) : site :=
  log (SetPreviousStatement b)
      (set_previousConnection
         (if b then ensure (previousConnection this) else None) this).

Definition setOutput (b : bool) (this : site) : site :=
  log (SetOutput b)
      (set_outputConnection
         (if b then ensure (outputConnection this) else None) this).

(** [this.nextConnection.disconnect()] *)
Definition nextConnection_disconnect (this : site) : site :=
  log NextConnection_disconnect
      (set_nextConnection (Some (mkConnection None)) this).

(** [this.previousConnection.disconnect()] *)
Definition previousConnection_disconnect (this : site) : site :=
  log PreviousConnection_disconnect
      (set_previousConnection (Some (mkConnection None)) this).

(** ** The [object_variables_get] block *)

(** [init()]: [jsonInit] gives the block one input row with the variable
    field VAR and, by ["output": null], an output connection. *)
Definition init (variableId : string) : site :=
  mkSite "" false [] [] 0 (Some []) false 0 Undefined Undefined None
         [mkInput "" DUMMY_INPUT [FieldVariable "VAR" variableId] None]
         None None (Some (mkConnection None)) [].

(** [setType(isReturn)] *)
Definition setType (isReturn : bool) (this : site) : site :=
  if negb (String.eqb (varType this) "") && varTypeIsSet this then
    if isReturn then
      let this1 :=
        match nextConnection this with
        | Some c => if isConnected c then nextConnection_disconnect this
                    else this
        | None => this
        end in
      let this2 :=
        match previousConnection this1 with
        | Some c => if isConnected c then previousConnection_disconnect this1
                    else this1
        | None => this1
        end in
      setOutput true (setPreviousStatement false (setNextStatement false this2))
    else
      setPreviousStatement true (setNextStatement true (setOutput false this))
  else this.

(** [getClassName()]: [None] for [undefined]. *)
Definition getClassName (this : site) : option string :=
  if varTypeIsSet this then Some (varType this) else None.

(** [getCurrentMethod()] *)
Definition getCurrentMethod (this : site) : value :=
  if varTypeIsSet this then curValue this else Undefined.

(** [renameClass(oldName, newName)] of the block. *)
Definition site_renameClass (oldName newName : string) (this : site) : site :=
  if varTypeIsSet this then
    if Names_equals oldName (varType this) then set_varType newName this
    else this
  else this.

(** The two loops of [getDropDown] that fill [options] after the current
    value. *)
Definition attribute_options (classVariables : list string)
  (curValue typeOfValue : value) : list (string * string) :=
  flat_map (fun v =>
              if loose_eq (Str v) curValue &&
                 loose_eq typeOfValue (Str "attribute")
              then [] else [(v, v)])
           classVariables.

Fixpoint method_options (methodNames : list value)
  (methods : list string) (curValue typeOfValue : value)
  : list (string * string) :=
  match methodNames, methods with
  | n :: methodNames', m :: methods' =>
      (if loose_eq n curValue && loose_eq typeOfValue (Str "method")
       then [] else [((m ++ "()")%string, m)])
      ++ method_options methodNames' methods' curValue typeOfValue
  | _, _ => []
  end.

(** [methods.map(method => ...)]: the names of the methods, [newName] in
    the place of [oldName]. *)
Definition methodNames_of (oldName newName : value)
  (methods : list string) : list value :=
  map (fun m => if loose_eq (Str m) oldName then newName else Str m)
      methods.

(** [if (this.curValue == oldName) this.curValue = newName] *)
Definition translate_curValue (oldName newName : value)
  (this : site) : site :=
  if loose_eq (curValue this) oldName then set_curValue newName this
  else this.

(** [new Blockly.FieldDropdown(options)] under the name [METHODS]; its
    value is that of the first option. *)
Definition dropdown (options : list (string * string)) : field :=
  FieldDropdown "METHODS" options
    match options with
    | (_, v) :: _ => v
    | [] => ""
    end.

(** [Blockly.Class.getMethods(Blockly.getMainWorkspace(), this.getClassName())];
    no class is named [undefined]. *)
Definition fetch_methods (main : workspace) (this : site) : list string :=
  match getClassName this with
  | Some c => getMethods main c
  | None => []
  end.

(** [Blockly.Class.getClassVariables(Blockly.getMainWorkspace(), this.getClassName()) || []] *)
Definition fetch_classVariables (main : workspace) (this : site)
  : list string :=
  match getClassName this with
  | Some c => getClassVariables main c
  | None => []
  end.

(** The condition under which [getDropDown] rebuilds the dropdown. *)
Definition rebuilds (oldName : value)
  (methods_ classVariables_ : list string) (this : site) : bool :=
  negb (Nat.eqb (length (methods this)) (length methods_))
  || truthy_value oldName
  || negb (Nat.eqb (length (classVariables this)) (length classVariables_)).

(** [getDropDown(oldName, newName)]; [inFlyout] is [this.isInFlyout] and
    [main] is [Blockly.getMainWorkspace()]. *)
Definition getDropDown (inFlyout : bool) (main : workspace)
  (oldName newName : value) (this : site) : site :=
  if inFlyout then this
  else
    let methods_ := fetch_methods main this in
    let classVariables_ := fetch_classVariables main this in
    if rebuilds oldName methods_ classVariables_ this
    then
      let this1 :=
        set_classVariables classVariables_
          (set_methods methods_
             (set_inputList (removeInput "Data" (inputList this)) this)) in
      if negb (Nat.eqb (length methods_) 0)
         || negb (Nat.eqb (length classVariables_) 0)
      then
        let methodNames := methodNames_of oldName newName methods_ in
        let this2 := translate_curValue oldName newName this1 in
        let this3 :=
          if negb (includes_value methodNames (curValue this2))
             && negb (includes classVariables_ (curValue this2))
          then set_typeOfValue (Str "") (set_curValue (Str "") this2)
          else this2 in
        let cur := curValue this3 in
        let this4 :=
          if truthy_value cur then
            if includes classVariables_ cur
            then set_typeOfValue (Str "attribute") this3
            else set_typeOfValue (Str "method") this3
          else this3 in
        let options0 :=
          match cur with
          | Str c =>
              if JS.truthy c then
                if includes classVariables_ cur then [(c, c)]
                else [((c ++ "()")%string, c)]
              else []
          | _ => []
          end in
        let options :=
          options0
          ++ attribute_options classVariables_ cur (typeOfValue this4)
          ++ method_options methodNames methods_ cur (typeOfValue this4) in
        let inputs1 :=
          inputList this4 ++ [mkInput "Data" DUMMY_INPUT [dropdown options] None] in
        let inputs2 :=
          match getInput "ARG0" inputs1 with
          | Some _ => moveInputBefore "Data" (Some "ARG0") inputs1
          | None => inputs1
          end in
        set_inputList inputs2 this4
      else this1
    else this.

(** [update(oldName, legalName)]; [setInputsInline(getInputsInline())]
    leaves the properties above as they are. *)
Definition update (inFlyout : bool) (main : workspace)
  (oldName legalName : value) (this : site) : site :=
  if varTypeIsSet this then getDropDown inFlyout main oldName legalName this
  else this.

(** The search of [onchange] for the method block: the last block whose
    [getMethodDef()[0]] is [method]. *)
Fixpoint find_methodBlock (blocks : list block) (method : string)
  (methodBlock : option method_def) : option method_def :=
  match blocks with
  | [] => methodBlock
  | b :: rest =>
      match body b with
      | MethodB m =>
          if String.eqb (fst (getMethodDef m)) method
          then find_methodBlock rest method (Some m)
          else find_methodBlock rest method methodBlock
      | _ => find_methodBlock rest method methodBlock
      end
  end.

(** [while (this.args > args.length) { this.args--; this.removeInput("ARG" + this.args); }]
    from [this.args = a], with [n] for [args.length]. *)
Fixpoint removeArgs (a n : nat) (inputs : list input) : nat * list input :=
  match a with
  | O => (O, inputs)
  | S a' =>
      if Nat.ltb n a then removeArgs a' n (removeInput (argName a') inputs)
      else (a, inputs)
  end.

(** [while (this.args < args.length) { ... this.args++; }]; [fuel] is the
    number of rounds left, [args.length - this.args] at the start. *)
Fixpoint addArgs (fuel a : nat) (params : list string) (inputs : list input)
  : nat * list input :=
  match fuel with
  | O => (a, inputs)
  | S fuel' =>
      if Nat.ltb a (length params) then
        addArgs fuel' (S a) params
          (moveInputBefore (argName a) None
             (appendValueInput (argName a) (nth a params "") inputs))
      else (a, inputs)
  end.

(** [Blockly.Class.arraysEqual(this.argNames, args)], either of which may
    be [false]. *)
Definition arraysEqual_js (arr1 arr2 : option (list string))
  : arraysEqual_result :=
  match arr1, arr2 with
  | Some a1, Some a2 => arraysEqual a1 a2
  | None, None => RTrue
  | _, _ => RFalse
  end.

(** The part of [onchange] that follows [this.curValue = method]:
    the value inputs are made to fit [args]. *)
Definition reconcile_args (params : option (list string)) (this : site)
  : site :=
  let this1 :=
    match params with
    | None => this
    | Some ps =>
        if Nat.eqb (args this) (length ps) then this
        else
          let '(a, inputs) :=
            if Nat.ltb (length ps) (args this)
            then removeArgs (args this) (length ps) (inputList this)
            else addArgs (length ps - args this) (args this) ps
                         (inputList this) in
          set_inputList inputs (set_args a this)
    end in
  let this2 :=
    match arraysEqual_js (argNames this1) params with
    | RIndex count =>
        let label := match params with
                     | Some ps => nth count ps ""
                     | None => ""
                     end in
        let inputs1 :=
          appendValueInput (argName count) label
            (removeInput (argName count) (inputList this1)) in
        let inputs2 :=
          match getInput (argName (count + 1)) inputs1 with
          | Some _ =>
              moveInputBefore (argName count) (Some (argName (count + 1)))
                inputs1
          | None => inputs1
          end in
        set_inputList inputs2 this1
    | _ => this1
    end in
  set_argNames params this2.

(** [onchange()], its first part: the colour of the class of the variable. *)
Definition onchange_colour (main : workspace) (variableModel : VariableModel)
  (this : site) : site :=
  if negb (colourIsSet this) then
    match getClassByName main (var_type variableModel) with
    | Some classBlock =>
        set_colourIsSet true (set_colour (getColour classBlock) this)
    | None => this
    end
  else this.

(** [onchange()], its second part: the type of the variable becomes the
    class of the site, for good once the variable has a value. *)
Definition onchange_bind (inFlyout : bool) (ws : workspace)
  (variableModel : VariableModel) (this : site) : site :=
  if negb inFlyout && negb (varTypeIsSet this) then
    let a := set_varType (var_type variableModel) this in
    let b :=
      match getClassByName ws (var_type variableModel) with
      | Some classBlock => set_colour (getColour classBlock) a
      | None => a
      end in
    if typeSet variableModel then set_varTypeIsSet true b else b
  else this.

(** [isReturn] as [onchange] derives it from the type of the method block;
    [None] for [undefined]. *)
Definition isReturn_of (methodBlock : method_def) : option bool :=
  if String.eqb (method_type methodBlock) "class_function_return"
  then Some true
  else if String.eqb (method_type methodBlock) "class_function_noreturn"
       then Some false
       else None.

(** [onchange()], the branch of a selected method. *)
Definition onchange_method (ws : workspace) (method : string) (this : site)
  : site :=
  let this1 := set_typeOfValue (Str "method") this in
  let this2 :=
    match find_methodBlock (getAllBlocks ws) method None with
    | Some methodBlock =>
        let isReturn := isReturn_of methodBlock in
        setType (match isReturn with Some b => b | None => false end)
                (set_isReturn isReturn this1)
    | None => this1
    end in
  let this3 := set_curValue (Str method) this2 in
  reconcile_args (getMethodAttributes ws method) this3.

(** [onchange()], the branch of a selected attribute or of no selection. *)
Definition onchange_attribute (variable_ : value) (this : site) : site :=
  let this1 := setType true (set_typeOfValue (Str "attribute") this) in
  let this2 := set_curValue variable_ this1 in
  let '(a, inputs) := removeArgs (args this2) 0 (inputList this2) in
  set_inputList inputs (set_args a this2).

(** [onchange()]; [inFlyout] is [this.isInFlyout], [ws] is [this.workspace],
    [main] is [Blockly.getMainWorkspace()] and [variableModel] is the
    variable the VAR field designates. *)
Definition onchange (inFlyout : bool) (ws main : workspace)
  (variableModel : VariableModel) (this : site) : site :=
  let this1 := onchange_colour main variableModel this in
  let this2 := onchange_bind inFlyout ws variableModel this1 in
  if negb (String.eqb (varType this2) "") && varTypeIsSet this2 then
    let selected := getFieldValue "METHODS" (inputList this2) in
    let isVar := includes (classVariables this2) selected in
    if truthy_value selected && negb inFlyout && negb isVar then
      onchange_method ws (match selected with Str m => m | _ => "" end)
        this2
    else onchange_attribute selected this2
  else this2.

(** ** Callers and renames of [Blockly.Class] *)

Definition with_body (b : block) (x : block_body) : block :=
  mkBlock (id b) (isInFlyout b) x.

(** The test of [getCallers] on one block. *)
Definition is_caller (name : string) (b : block) : bool :=
  match body b with
  | SiteB s =>
      match getClassName s with
      | Some className => JS.truthy className && Names_equals className name
      | None => false
      end
  | ForeignB f =>
      match foreign_getClassName f with
      | Some className => JS.truthy className && Names_equals className name
      | None => false
      end
  | _ => false
  end.

(** [Blockly.Class.getCallers] *)
Definition getCallers (name : string) (ws : workspace) : list block :=
  filter (is_caller name) (getAllBlocks ws).

(** [callers[i].update()] *)
Definition block_update (main : workspace) (b : block) : block :=
  match body b with
  | SiteB s =>
      with_body b (SiteB (update (isInFlyout b) main Undefined Undefined s))
  | ForeignB f => with_body b (ForeignB (foreign_update f))
  | _ => b
  end.

(** [Blockly.Class.mutateCallers(block)] for the class block [c] of the
    workspace [ws]: every caller is updated where it stands. *)
Definition mutateCallers (main : workspace) (c : class_def) (ws : workspace)
  : workspace :=
  mkWorkspace
    (map (fun b => if is_caller (getClassDef c) b then block_update main b
                   else b)
         (getAllBlocks ws))
    (variableMap ws).

(** [if (blocks[i].renameClass) blocks[i].renameClass(oldName, legalName)] *)
Definition block_renameClass (oldName legalName : string) (b : block)
  : block :=
  match body b with
  | SiteB s => with_body b (SiteB (site_renameClass oldName legalName s))
  | ForeignB f => with_body b (ForeignB (foreign_renameClass f oldName legalName))
  | _ => b
  end.

(** [if (blocks[i].setOldName) blocks[i].setOldName(oldName)] *)
Definition block_setOldName (oldName : string) (b : block) : block :=
  match body b with
  | ForeignB f => with_body b (ForeignB (foreign_setOldName f oldName))
  | _ => b
  end.

(** [if (blocks[i].renameProcedure) blocks[i].renameProcedure(oldName, legalName)] *)
Definition block_renameProcedure (oldName legalName : string) (b : block)
  : block :=
  match body b with
  | ForeignB f =>
      with_body b (ForeignB (foreign_renameProcedure f oldName legalName))
  | _ => b
  end.

(** One round of the loop of [renameClass] over the blocks. *)
Definition renameClass_round (oldName legalName : string) (b : block)
  : block :=
  block_setOldName oldName (block_renameClass oldName legalName b).

(** The name field a rename function is attached to: its current text
    and its block. *)
Record name_field : Type := mkField {
  text_ : string;
  sourceBlock_ : block
}.

(** [Blockly.Class.renameClass(name)] on the field [this]; [ws] is
    [this.sourceBlock_.workspace].  The result is the legal name and the
    workspace afterwards, [None] when the loop of [findLegalName] has not
    come to an end within [fuel]. *)
Definition renameClass (fuel : nat) (this : name_field) (ws : workspace)
  (name : string) : option (string * workspace) :=
  let name := JS.trim name in
  match findLegalName fuel name ws (sourceBlock_ this) "class" with
  | None => None
  | Some legalName =>
      let oldName := text_ this in
      let ws1 :=
        if negb (String.eqb oldName name) && negb (String.eqb oldName legalName)
        then
          mkWorkspace
            (map (renameClass_round oldName legalName) (getAllBlocks ws))
            (variableMap ws)
        else ws in
      Some (legalName,
            mkWorkspace (getAllBlocks ws1)
                        (renameScope (variableMap ws1) oldName legalName))
  end.

(** [Blockly.Class.renameMethod(name)] *)
Definition renameMethod (fuel : nat) (this : name_field) (ws : workspace)
  (name : string) : option (string * workspace) :=
  let oldName := text_ this in
  let name := JS.trim name in
  match findLegalName fuel name ws (sourceBlock_ this) "method" with
  | None => None
  | Some legalName =>
      let ws1 :=
        if negb (String.eqb oldName name) && negb (String.eqb oldName legalName)
        then
          mkWorkspace
            (map (block_renameProcedure oldName legalName) (getAllBlocks ws))
            (variableMap ws)
        else ws in
      Some (legalName, ws1)
  end.

End Model.

Arguments ClassB {Foreign} c.
Arguments MethodB {Foreign} m.
Arguments SiteB {Foreign} s.
Arguments ForeignB {Foreign} f.
Arguments mkBlock {Foreign} id isInFlyout body.
Arguments id {Foreign} b.
Arguments isInFlyout {Foreign} b.
Arguments body {Foreign} b.
Arguments mkWorkspace {Foreign} getAllBlocks variableMap.
Arguments getAllBlocks {Foreign} w.
Arguments variableMap {Foreign} w.
Arguments mkField {Foreign} text_ sourceBlock_.
Arguments text_ {Foreign} n.
Arguments sourceBlock_ {Foreign} n.
Arguments same_block {Foreign} b e.
Arguments getClassByName {Foreign} ws className.
Arguments getMethods {Foreign} ws classname.
Arguments getClassVariables {Foreign} ws classname.
Arguments getMethodAttributes {Foreign} ws methodName.
Arguments isNameUsed Names_equals {Foreign} name ws opt_exclude type.
Arguments isLegalName_ Names_equals {Foreign} name ws opt_exclude type.
Arguments findLegalName_loop Names_equals {Foreign} fuel name ws blk type.
Arguments findLegalName Names_equals {Foreign} fuel name ws blk type.
Arguments fetch_methods {Foreign} main this.
Arguments fetch_classVariables {Foreign} main this.
Arguments getDropDown {Foreign} inFlyout main oldName newName this.
Arguments update {Foreign} inFlyout main oldName legalName this.
Arguments onchange {Foreign} inFlyout ws main variableModel this.
Arguments onchange_colour {Foreign} main variableModel this.
Arguments onchange_bind {Foreign} inFlyout ws variableModel this.
Arguments onchange_method {Foreign} ws method this.
Arguments find_methodBlock {Foreign} blocks method methodBlock.
Arguments is_caller Names_equals {Foreign} foreign_getClassName name b.
Arguments getCallers Names_equals {Foreign} foreign_getClassName name ws.
Arguments block_update {Foreign} foreign_update main b.
Arguments mutateCallers Names_equals {Foreign} foreign_getClassName
  foreign_update main c ws.
Arguments renameClass Names_equals {Foreign} foreign_renameClass
  foreign_setOldName renameScope fuel this ws name.
Arguments renameMethod Names_equals {Foreign} foreign_renameProcedure
  fuel this ws name.

(* ================================================================== *)
(** * Further functions of [Blockly.Class] *)
(* ================================================================== *)

(** [Blockly.Class.colour()] on the counter [colour] of the module, which
    starts at [0]: the counter after the call, which is also the value the
    call returns. *)
Definition Class_colour (colour : N) : N :=
  let colour := (colour + 10)%N in
  if (360 <? colour)%N then (colour - 360)%N else colour.

(** The value the [n]-th call of [Blockly.Class.colour] returns, [n]
    counted from [1]. *)
Definition nth_colour (n : nat) : N := Nat.iter n Class_colour 0%N.

Section Catalogue.

Context {Foreign : Type}.

(** [Blockly.Class.allUsedClasses]: [classes.push] appends at the end. *)
Fixpoint allUsedClasses_loop (blocks : list (block Foreign))
  (classes : list string) : list string :=
  match blocks with
  | [] => classes
  | b :: rest =>
      match body b with
      | ClassB c => allUsedClasses_loop rest (classes ++ [getClassDef c])
      | _ => allUsedClasses_loop rest classes
      end
  end.

Definition allUsedClasses (ws : workspace Foreign) : list string :=
  allUsedClasses_loop (getAllBlocks ws) [].

(** An XML node of [Blockly.Xml.utils]: an element with its attributes, in
    the order in which they were first set, and its children; or a text
    node. *)
#[warnings="-register-all"]
Inductive xml : Type :=
| Element (tagName : string) (attributes : list (string * string))
          (childNodes : list xml)
| TextNode (data : string).

Definition createElement (tagName : string) : xml := Element tagName [] [].

Definition createTextNode (data : string) : xml := TextNode data.

(** [setAttribute(name, value)] gives an attribute that is there its new
    value and adds one that is not. *)
Fixpoint setAttribute_loop (name value : string)
  (attributes : list (string * string)) : list (string * string) :=
  match attributes with
  | [] => [(name, value)]
  | (n, v) :: rest =>
      if String.eqb n name then (n, value) :: rest
      else (n, v) :: setAttribute_loop name value rest
  end.

Definition setAttribute (name value : string) (node : xml) : xml :=
  match node with
  | Element t attributes children =>
      Element t (setAttribute_loop name value attributes) children
  | TextNode _ => node
  end.

Definition appendChild (child node : xml) : xml :=
  match node with
  | Element t attributes children => Element t attributes (children ++ [child])
  | TextNode _ => node
  end.

(** [getAttribute(name)]: [None] for [null]. *)
Definition getAttribute (name : string) (node : xml) : option string :=
  match node with
  | Element _ attributes _ =>
      match find (fun a => String.eqb (fst a) name) attributes with
      | Some a => Some (snd a)
      | None => None
      end
  | TextNode _ => None
  end.

(** [setAttribute("gap", n)]: the number is stored as its string. *)
Definition setGap (n : N) (node : xml) : xml :=
  setAttribute "gap" (JS.Number_toString (JS.Fin n)) node.

(** The template of a system block with a NAME field, as the first three
    conditionals of [flyoutCategory] build it. *)
Definition named_template (type text : string) : xml :=
  let block := createElement "block" in
  let block := setAttribute "type" type block in
  let block := setGap 16 block in
  let nameField := createElement "field" in
  let nameField := setAttribute "name" "NAME" nameField in
  let nameField := appendChild (createTextNode text) nameField in
  appendChild nameField block.

(** The template of the constructor block. *)
Definition constructor_template : xml :=
  let block := createElement "block" in
  let block := setAttribute "type" "class_constructor" block in
  setGap 16 block.

(** [xmlList[xmlList.length - 1].setAttribute("gap", 24)] *)
Fixpoint widen_last (xmlList : list xml) : list xml :=
  match xmlList with
  | [] => []
  | [x] => [setGap 24 x]
  | x :: rest => x :: widen_last rest
  end.

(** The body of the loop of [populateClasses]. *)
Definition instance_template (name : string) : xml :=
  let block := createElement "block" in
  let block := setAttribute "type" "class_get_instance" block in
  let block := setGap 16 block in
  let mutation := createElement "mutation" in
  let mutation := setAttribute "name" name mutation in
  appendChild mutation block.

Fixpoint populateClasses (classList : list string) (xmlList : list xml)
  : list xml :=
  match classList with
  | [] => xmlList
  | name :: rest => populateClasses rest (xmlList ++ [instance_template name])
  end.

(** [Blockly.Class.flyoutCategory(workspace)]; [Blocks type] tells whether
    [Blockly.Blocks[type]] is truthy, that is whether a block of that type
    is defined. *)
Definition flyoutCategory (Blocks : string -> bool) (ws : workspace Foreign)
  : list xml :=
  let xmlList := [] in
  let xmlList :=
    if Blocks "class_class"
    then xmlList ++ [named_template "class_class" "Klasse"]
    else xmlList in
  let xmlList :=
    if Blocks "class_function_return"
    then xmlList ++ [named_template "class_function_return" "Funktion"]
    else xmlList in
  let xmlList :=
    if Blocks "class_function_noreturn"
    then xmlList ++ [named_template "class_function_noreturn" "Funktion"]
    else xmlList in
  let xmlList :=
    if Blocks "class_constructor"
    then xmlList ++ [constructor_template]
    else xmlList in
  let xmlList :=
    if negb (Nat.eqb (length xmlList) 0) then widen_last xmlList
    else xmlList in
  populateClasses (allUsedClasses ws) xmlList.

(** The number of system blocks [flyoutCategory] lists. *)
Definition system_blocks (Blocks : string -> bool) : nat :=
  length (filter Blocks ["class_class"; "class_function_return";
                         "class_function_noreturn"; "class_constructor"]).

End Catalogue.

(* ================================================================== *)
(** * The blocks [variables_get] and [variables_set] *)
(* ================================================================== *)

(** The state of a [variables_get] block: the properties its own code sets
    and reads. *)
Record getter : Type := mkGetter {
  getter_varType : string;
  getter_varTypeIsSet : bool;
  getter_colourIsSet : bool;
  getter_colour : N
}.

(** The value input VALUE of a [variables_set] block: the type its
    connection checks ([None] while it accepts every type) and the block
    plugged into it. *)
Record value_input : Type := mkValueInput {
  check : option string;
  value_target : option string
}.

(** The state of a [variables_set] block; [VALUE] is [None] for a block
    without that input. *)
Record setter : Type := mkSetter {
  setInit : bool;
  setter_varType : string;
  setter_colourIsSet : bool;
  setter_colour : N;
  VALUE : option value_input
}.

(** [this.getInputTargetBlock("VALUE")], as a condition. *)
Definition getInputTargetBlock_VALUE (this : setter) : bool :=
  match VALUE this with
  | Some i => match value_target i with Some _ => true | None => false end
  | None => false
  end.

Section VariableBlocks.

Context {Foreign : Type}.

(** [unplugs check target]: whether the connection of the input VALUE,
    once it checks the type [check], lets go of the block [target] that is
    plugged into it (core/connection.js is not among the sources). *)
Variable unplugs : string -> string -> bool.

(** [if (this.getInput("VALUE")) this.getInput("VALUE").setCheck(varType)] *)
Definition setCheck_VALUE (varType : string) (this : setter) : setter :=
  match VALUE this with
  | Some i =>
      mkSetter (setInit this) (setter_varType this) (setter_colourIsSet this)
               (setter_colour this)
               (Some (mkValueInput
                        (Some varType)
                        match value_target i with
                        | Some target =>
                            if unplugs varType target then None
                            else Some target
                        | None => None
                        end))
  | None => this
  end.

(** [onchange()] of [variables_get]; [inFlyout] is [this.isInFlyout], [ws]
    is [this.workspace], [main] is [Blockly.getMainWorkspace()] and
    [variableModel] is the variable the VAR field designates. *)
Definition variables_get_onchange (inFlyout : bool)
  (ws main : workspace Foreign) (variableModel : VariableModel)
  (this : getter) : getter :=
  let this1 :=
    if negb (getter_colourIsSet this) then
      match getClassByName main (var_type variableModel) with
      | Some classBlock =>
          mkGetter (getter_varType this) (getter_varTypeIsSet this) true
                   (getColour classBlock)
      | None => this
      end
    else this in
  if negb inFlyout && negb (getter_varTypeIsSet this1) then
    let varType := var_type variableModel in
    let colour :=
      match getClassByName ws varType with
      | Some classBlock => getColour classBlock
      | None => getter_colour this1
      end in
    mkGetter varType (if typeSet variableModel then true
                      else getter_varTypeIsSet this1)
             (getter_colourIsSet this1) colour
  else this1.

(** [onchange()] of [variables_set]: the block and the variable
    afterwards. *)
Definition variables_set_onchange (inFlyout : bool)
  (ws main : workspace Foreign) (variableModel : VariableModel)
  (this : setter) : setter * VariableModel :=
  let this1 :=
    if negb (setter_colourIsSet this) then
      match getClassByName main (var_type variableModel) with
      | Some classBlock =>
          mkSetter (setInit this) (setter_varType this) true
                   (getColour classBlock) (VALUE this)
      | None => this
      end
    else this in
  if negb inFlyout then
    let this2 :=
      if negb (setInit this1) then
        let varType := var_type variableModel in
        let a :=
          mkSetter (setInit this1) varType (setter_colourIsSet this1)
                   (setter_colour this1) (VALUE this1) in
        let b :=
          if negb (String.eqb varType "") then setCheck_VALUE varType a
          else a in
        let c :=
          match getClassByName ws varType with
          | Some classBlock =>
              mkSetter (setInit b) (setter_varType b) (setter_colourIsSet b)
                       (getColour classBlock) (VALUE b)
          | None => b
          end in
        mkSetter true (setter_varType c) (setter_colourIsSet c)
                 (setter_colour c) (VALUE c)
      else this1 in
    (this2,
     if getInputTargetBlock_VALUE this2
     then mkVariable (var_id variableModel) (var_name variableModel)
                     (var_type variableModel) true
     else variableModel)
  else (this1, variableModel).

End VariableBlocks.

Arguments variables_get_onchange {Foreign} inFlyout ws main variableModel this.
Arguments variables_set_onchange {Foreign} unplugs inFlyout ws main
  variableModel this.

(* ================================================================== *)
(** * The workspace: what may move, and when its contents are resized *)
(* ================================================================== *)

(** [options.moveOptions] and [options.zoomOptions], each of which may be
    missing. *)
Record MoveOptions : Type := mkMoveOptions {
  move_scrollbars : bool;
  move_wheel : bool;
  move_drag : bool
}.

Record ZoomOptions : Type := mkZoomOptions {
  zoom_controls : bool;
  zoom_wheel : bool
}.

Record Options : Type := mkOptions {
  moveOptions : option MoveOptions;
  zoomOptions : option ZoomOptions
}.

(** [o && o.p], as a condition. *)
Definition has {A : Type} (o : option A) (p : A -> bool) : bool :=
  match o with Some x => p x | None => false end.

(** [Blockly.WorkspaceSvg.prototype.isDraggable], as a condition. *)
Definition isDraggable (options : Options) : bool :=
  has (moveOptions options) move_drag.

(** [Blockly.WorkspaceSvg.prototype.isContentBounded] *)
Definition isContentBounded (options : Options) : bool :=
  has (moveOptions options) move_scrollbars
  || has (moveOptions options) move_wheel
  || has (moveOptions options) move_drag
  || has (zoomOptions options) zoom_controls
  || has (zoomOptions options) zoom_wheel.

(** [Blockly.WorkspaceSvg.prototype.isMovable] *)
Definition isMovable (options : Options) : bool :=
  has (moveOptions options) move_scrollbars
  || has (moveOptions options) move_wheel
  || has (moveOptions options) move_drag
  || has (zoomOptions options) zoom_wheel.

(** What [setResizesEnabled] and [resizeContents] read and write of a
    workspace; [resized] counts the times [resizeContents] went past its
    guard and resized the contents. *)
Record WorkspaceSvg : Type := mkWorkspaceSvg {
  resizesEnabled_ : bool;
  rendered : bool;
  resized : nat
}.

(** [Blockly.WorkspaceSvg.prototype.resizeContents] *)
Definition resizeContents (this : WorkspaceSvg) : WorkspaceSvg :=
  if negb (resizesEnabled_ this) || negb (rendered this) then this
  else mkWorkspaceSvg (resizesEnabled_ this) (rendered this)
                      (S (resized this)).

(** [Blockly.WorkspaceSvg.prototype.setResizesEnabled] *)
Definition setResizesEnabled (enabled : bool) (this : WorkspaceSvg)
  : WorkspaceSvg :=
  let reenabled := negb (resizesEnabled_ this) && enabled in
  let this1 := mkWorkspaceSvg enabled (rendered this) (resized this) in
  if reenabled then resizeContents this1 else this1.

(** A sequence of calls of [setResizesEnabled], the first first. *)
Definition setResizesEnabled_each (calls : list bool) (this : WorkspaceSvg)
  : WorkspaceSvg :=
  fold_left (fun w enabled => setResizesEnabled enabled w) calls this.

(** The number of calls in a sequence that enable resizes while they are
    disabled; [enabled] is the setting before the sequence. *)
Fixpoint reenabled_count (enabled : bool) (calls : list bool) : nat :=
  match calls with
  | [] => 0
  | e :: rest =>
      (if negb enabled && e then 1 else 0) + reenabled_count e rest
  end.

(* ================================================================== *)
(** * Example workspaces *)
(* ================================================================== *)

(** Names compared exactly, as the specification reads the name-equality
    predicate ("that exact name"). *)
Definition exact_names : string -> string -> bool := String.eqb.

(** No block of another type: the type of foreign blocks is empty of
    behaviour. *)
Definition no_foreign2 (f : unit) (_ _ : string) : unit := f.
Definition no_foreign1 (f : unit) (_ : string) : unit := f.
Definition no_foreign_name (_ : unit) : option string := None.
Definition no_foreign0 (f : unit) : unit := f.

(** Modelled from the spec: [Blockly.Variables.renameScope] (core/variables.js
    is not among the sources): variables whose declared type equals the old
    class name are updated to the new name (section 4.4, step 3). *)
Definition renameScope_spec (vars : list VariableModel)
  (oldName newName : string) : list VariableModel :=
  map (fun v =>
         if String.eqb (var_type v) oldName
         then mkVariable (var_id v) (var_name v) newName (typeSet v)
         else v)
      vars.

Definition class_block (i name : string) (methods attributes : list string)
  : block unit :=
  mkBlock i false (ClassB (mkClass name methods attributes 0)).

Definition method_block (i type name : string) (params : list string)
  : block unit :=
  mkBlock i false (MethodB (mkMethod type (name, params))).

Definition site_block (i : string) (s : site) : block unit :=
  mkBlock i false (SiteB s).

(** The user picks [value] in the dropdown METHODS. *)
Definition pick_field (value : string) (f : field) : field :=
  match f with
  | FieldDropdown "METHODS" options _ => FieldDropdown "METHODS" options value
  | _ => f
  end.

Definition pick (value : string) (this : site) : site :=
  set_inputList
    (map (fun i => mkInput (input_name i) (input_kind i)
                     (map (pick_field value) (fieldRow i)) (input_target i))
         (inputList this))
    this.

(** The user plugs the block [target] into the value input [name]. *)
Definition plug (name target : string) (this : site) : site :=
  set_inputList
    (map (fun i => if String.eqb (input_name i) name
                   then mkInput (input_name i) (input_kind i) (fieldRow i)
                          (Some target)
                   else i)
         (inputList this))
    this.

(** Classes "Car" and "Car2". *)
Definition cars : workspace unit :=
  mkWorkspace [class_block "c1" "Car" [] []; class_block "c2" "Car2" [] []] [].

(** A class whose name ends in [2^53], and a second class. *)
Definition big_name : string := "A9007199254740992".

Definition big_suffix : workspace unit :=
  mkWorkspace [class_block "c1" big_name [] []; class_block "c2" "B" [] []] [].

(** A class block shown in a flyout. *)
Definition flyout_class : block unit :=
  mkBlock "f1" true (ClassB (mkClass "Klasse" [] [] 0)).

Definition flyout_workspace : workspace unit := mkWorkspace [flyout_class] [].

(** Example: a class "Cat", three finalized sites and one site whose
    variable has the type "Cat" but no value yet. *)
Definition cat_class : block unit := class_block "c1" "Cat" [] [].

Definition tom : VariableModel := mkVariable "v1" "tom" "Cat" true.
Definition kit : VariableModel := mkVariable "v2" "kit" "Cat" false.

Definition cat_only : workspace unit := mkWorkspace [cat_class] [tom; kit].

Definition cat_site : site := onchange false cat_only cat_only tom (init "v1").

Definition unfinalized_site : site :=
  onchange false cat_only cat_only kit (init "v2").

Definition pets : workspace unit :=
  mkWorkspace
    [cat_class; site_block "s1" cat_site; site_block "s2" cat_site;
     site_block "s3" cat_site; site_block "s4" unfinalized_site]
    [tom; kit].

Definition cat_field : name_field unit := mkField "Cat" cat_class.

Definition rename_pets (fuel : nat) (name : string)
  : option (string * workspace unit) :=
  renameClass exact_names no_foreign2 no_foreign1 renameScope_spec
    fuel cat_field pets name.

Definition pets_renamed : workspace unit :=
  match rename_pets 1 "Dog" with
  | Some (_, ws) => ws
  | None => pets
  end.

(** Example: a class "Animal" with the method "speak" and the attribute
    "age", and a site that selects "speak". *)
Definition animal (methods attributes : list string) : block unit :=
  class_block "c1" "Animal" methods attributes.

Definition speak (type : string) (params : list string) : block unit :=
  method_block "m1" type "speak" params.

Definition rex : VariableModel := mkVariable "v" "rex" "Animal" true.

Definition zoo (type : string) (params : list string) : workspace unit :=
  mkWorkspace [animal ["speak"] ["age"]; speak type params] [rex].

Definition zoo_noreturn : workspace unit :=
  zoo "class_function_noreturn" ["a"; "b"].

(** The site after its variable got its type, after the dropdown was
    built, and after the user picked "speak" and plugged two blocks in. *)
Definition fresh_site : site :=
  onchange false zoo_noreturn zoo_noreturn rex (init "v").

Definition listed_site : site :=
  update false zoo_noreturn Undefined Undefined fresh_site.

Definition speak_site : site :=
  onchange false zoo_noreturn zoo_noreturn rex (pick "speak" listed_site).

Definition plugged_site : site := plug "ARG0" "x1" (plug "ARG1" "x2" speak_site).

Definition zoo_with (s : site) (type : string) (params : list string)
  : workspace unit :=
  mkWorkspace [animal ["speak"] ["age"]; speak type params; site_block "s1" s]
              [rex].

(** The connections a site exposes: output, previous, next. *)
Definition shape (this : site) : bool * bool * bool :=
  (match outputConnection this with Some _ => true | None => false end,
   match previousConnection this with Some _ => true | None => false end,
   match nextConnection this with Some _ => true | None => false end).

Definition site_shapes {Foreign : Type} (ws : workspace Foreign)
  : list (bool * bool * bool) :=
  flat_map (fun b => match body b with
                     | SiteB s => [shape s]
                     | _ => []
                     end)
           (getAllBlocks ws).

(** The value inputs of a site: name, label and plugged block. *)
Definition value_inputs (this : site)
  : list (string * list field * option string) :=
  flat_map (fun i => match input_kind i with
                     | INPUT_VALUE => [(input_name i, fieldRow i, input_target i)]
                     | DUMMY_INPUT => []
                     end)
           (inputList this).

(** The site before [onchange] has seen the pick of "speak". *)
Definition picked_site : site := pick "speak" listed_site.

(** The site before [onchange], plugged into an input of another block. *)
Definition nested_site : site :=
  set_outputConnection (Some (mkConnection (Some "parent"))) picked_site.

(** The site with a block attached above and a block attached below. *)
Definition chained_site : site :=
  set_nextConnection (Some (mkConnection (Some "n1")))
    (set_previousConnection (Some (mkConnection (Some "p1"))) plugged_site).

Definition zoo_return : workspace unit :=
  zoo "class_function_return" ["a"; "b"].

Definition zoo_three : workspace unit :=
  zoo "class_function_noreturn" ["a"; "b"; "c"].

Definition zoo_xy : workspace unit :=
  zoo "class_function_noreturn" ["x"; "y"].

(** The inputs of [plugged_site] before its value inputs. *)
Definition plugged_front : list input :=
  [mkInput "" DUMMY_INPUT [FieldVariable "VAR" "v"] None;
   mkInput "Data" DUMMY_INPUT
     [FieldDropdown "METHODS" [("age", "age"); ("speak()", "speak")] "speak"]
     None].

(** The class "Animal" with other members, and with none. *)
Definition zoo_empty : workspace unit := mkWorkspace [animal [] []] [rex].

Definition zoo_walk : workspace unit :=
  mkWorkspace [animal ["walk"; "run"] ["age"]] [rex].

(** The class "Animal" with as many members as before, and other ones. *)
Definition zoo_swap : workspace unit :=
  mkWorkspace [animal ["walk"] ["legs"]] [rex].

(** The class "Animal" with one more method. *)
Definition zoo_more : workspace unit :=
  mkWorkspace [animal ["speak"; "walk"] ["age"]] [rex].

(** The variable of the sites above after its type has become "Boat". *)
Definition boat_rex : VariableModel := mkVariable "v" "rex" "Boat" true.

(** The site with its two plugged inputs after the user picked the
    attribute "age", and its inputs before the value inputs. *)
Definition aged_site : site := pick "age" plugged_site.

Definition aged_front : list input :=
  [mkInput "" DUMMY_INPUT [FieldVariable "VAR" "v"] None;
   mkInput "Data" DUMMY_INPUT
     [FieldDropdown "METHODS" [("age", "age"); ("speak()", "speak")] "age"]
     None].

(** The site after [onchange] has seen the attribute, and the user has
    picked "speak" again. *)
Definition repicked_site : site :=
  pick "speak" (onchange false zoo_noreturn zoo_noreturn rex aged_site).

(** A [variables_set] block as [init] leaves it, with a block plugged into
    its input VALUE. *)
Definition plugged_setter : setter :=
  mkSetter false "" false 0 (Some (mkValueInput None (Some "n1"))).

(** A connection that lets go of no block, whatever it checks. *)
Definition never_unplugs (check target : string) : bool := false.

(** Every system block of the class category is defined. *)
Definition all_defined (type : string) : bool := true.

(** A workspace that can be dragged and nothing else. *)
Definition drag_only : Options :=
  mkOptions (Some (mkMoveOptions false false true))
            (Some (mkZoomOptions false false)).

(* ================================================================== *)
(** * Notions used in the statements *)
(* ================================================================== *)

(** No character of [s] is a line terminator: [.*] can match [s]. *)
Fixpoint no_line_terminator (s : string) : bool :=
  match s with
  | EmptyString => true
  | String c s' => negb (JS.is_line_terminator c) && no_line_terminator s'
  end.

(** The last character of [s] is a decimal digit. *)
Fixpoint ends_in_digit (s : string) : bool :=
  match s with
  | EmptyString => false
  | String c EmptyString => JS.is_digit c
  | String _ s' => ends_in_digit s'
  end.


Definition site_classNames {Foreign : Type} (ws : workspace Foreign)
  : list (option string) :=
  flat_map (fun b => match body b with
                     | SiteB s => [getClassName s]
                     | _ => []
                     end)
           (getAllBlocks ws).

(** A connection that exists and is connected. *)
Definition connected (c : option connection) : bool :=
  match c with
  | Some x => isConnected x
  | None => false
  end.

(** The site [this] is bound for good to a class and the member selected
    in its dropdown is [m], not an attribute: [onchange] takes the branch of
    a method. *)
Definition selects_method (this : site) (m : string) : Prop :=
  varType this <> "" /\ varTypeIsSet this = true /\
  getFieldValue "METHODS" (inputList this) = Str m /\ m <> "" /\
  includes (classVariables this) (Str m) = false.

(** The value input ARGk with a label and, may be, a plugged block. *)
Definition argInput (k : nat) (slot : string * option string) : input :=
  mkInput (argName k) INPUT_VALUE [FieldLabel (fst slot)] (snd slot).

(** The value inputs ARG[start], ARG[start + 1], ... of the given slots. *)
Fixpoint argInputs (start : nat) (slots : list (string * option string))
  : list input :=
  match slots with
  | [] => []
  | slot :: rest => argInput start slot :: argInputs (S start) rest
  end.

(** The inputs of the site are [front], in which no input is named ARGi,
    followed by the value inputs ARG0, ARG1, ... of [slots]; [this.args]
    counts them and [this.argNames] is [names], of the same length. *)
Definition has_arguments (this : site) (front : list input)
  (slots : list (string * option string)) (names : list string) : Prop :=
  inputList this = front ++ argInputs 0 slots /\
  (forall i, getInput (argName i) front = None) /\
  args this = length slots /\
  argNames this = Some names /\ length names = length slots.

(** The names [isNameUsed] compares a name with: those of the definitions
    of the kind [type], the excluded block left out. *)
Fixpoint used_names {Foreign : Type} (blocks : list (block Foreign))
  (opt_exclude : option (block Foreign)) (type : string) : list string :=
  match blocks with
  | [] => []
  | b :: rest =>
      if match opt_exclude with
         | Some e => same_block b e
         | None => false
         end
      then used_names rest opt_exclude type
      else
        match body b with
        | ClassB c =>
            if String.eqb type "class"
            then getClassDef c :: used_names rest opt_exclude type
            else used_names rest opt_exclude type
        | MethodB m =>
            if String.eqb type "method"
            then fst (getMethodDef m) :: used_names rest opt_exclude type
            else used_names rest opt_exclude type
        | _ => used_names rest opt_exclude type
        end
  end.

(** The number the first round of the loop counts up from: the value of
    the decimal suffix [d], and [1] when there is no suffix. *)
Definition suffix_start (d : string) : N :=
  match d with
  | EmptyString => 1
  | _ => JS.digits_value 0 d
  end.

(** The decimal suffix after [i] rounds of the loop, below [2^53]. *)
Definition suffix_at (d : string) (i : nat) : string :=
  match i with
  | O => d
  | S _ => JS.dec (suffix_start d + N.of_nat i)
  end.

(** The candidates of [findLegalName]: the proposed name after [n] rounds
    of the loop. *)
Definition candidate (n : nat) (name : string) : string :=
  Nat.iter n nextName name.

(** The four properties of a site that bind it to its variable and to the
    class of the variable, as a [variables_get] block has them. *)
Definition binding (this : site) : getter :=
  mkGetter (varType this) (varTypeIsSet this) (colourIsSet this) (colour this).

(** The properties of a site other than its member lists, its selection
    and its inputs. *)
Definition rest_of_site (this : site) :=
  (varType this, varTypeIsSet this, args this, argNames this,
   colourIsSet this, colour this, isReturn this,
   nextConnection this, previousConnection this, outputConnection this,
   calls this).

(** A string of characters of [[\s\xa0]] only. *)
Fixpoint all_spaces (s : string) : bool :=
  match s with
  | EmptyString => true
  | String c s' => JS.is_space c && all_spaces s'
  end.

Definition first_char (s : string) : option ascii :=
  match s with
  | EmptyString => None
  | String c _ => Some c
  end.

Fixpoint last_char (s : string) : option ascii :=
  match s with
  | EmptyString => None
  | String c EmptyString => Some c
  | String _ s' => last_char s'
  end.

(* ================================================================== *)
(** * Properties *)
(* ================================================================== *)

(** ** [arraysEqual] *)

Lemma strict_neq_false (x y : option string) :
  strict_neq x y = false <-> x = y.
Proof.
  destruct x as [a|], y as [b|]; simpl; split; intros H;
    try discriminate; try reflexivity.
  - apply negb_false_iff, String.eqb_eq in H. now subst.
  - injection H as ->. now rewrite String.eqb_refl.
Qed.

Lemma strict_neq_true (x y : option string) :
  strict_neq x y = true <-> x <> y.
Proof.
  split.
  - intros H E. apply strict_neq_false in E. congruence.
  - intros H. destruct (strict_neq x y) eqn:E; [reflexivity|].
    apply strict_neq_false in E. contradiction.
Qed.

(** What the loop has established when it ends. *)
Lemma arraysEqual_loop_spec (arr1 arr2 : list string) (i : nat) :
  match arraysEqual_loop arr1 arr2 i with
  | RTrue => forall j, j < i -> nth_error arr1 j = nth_error arr2 j
  | RIndex k =>
      k < i /\ nth_error arr1 k <> nth_error arr2 k /\
      forall j, k < j -> j < i -> nth_error arr1 j = nth_error arr2 j
  | RFalse => False
  end.
Proof.
  induction i as [|i IH]; simpl.
  - intros j Hj. lia.
  - destruct (strict_neq (nth_error arr1 i) (nth_error arr2 i)) eqn:E.
    + apply strict_neq_true in E. repeat split; [lia|exact E|].
      intros j H1 H2. lia.
    + apply strict_neq_false in E.
      destruct (arraysEqual_loop arr1 arr2 i) as [| |k]; try exact IH.
      * intros j Hj. destruct (Nat.eq_dec j i) as [->|Hne]; [exact E|].
        apply IH. lia.
      * destruct IH as (Hk & Hd & Ha). repeat split; [lia|exact Hd|].
        intros j H1 H2. destruct (Nat.eq_dec j i) as [->|Hne]; [exact E|].
        apply Ha; lia.
Qed.

Lemma nth_error_beyond (arr1 arr2 : list string) (j : nat) :
  length arr1 = length arr2 -> length arr1 <= j ->
  nth_error arr1 j = nth_error arr2 j.
Proof.
  intros Hl Hj.
  rewrite (proj2 (nth_error_None arr1 j)) by exact Hj.
  symmetry. apply nth_error_None. lia.
Qed.

Lemma nth_error_all_eq (arr1 arr2 : list string) :
  (forall j, nth_error arr1 j = nth_error arr2 j) -> arr1 = arr2.
Proof.
  revert arr2. induction arr1 as [|x arr1 IH]; intros [|y arr2] H.
  - reflexivity.
  - specialize (H 0). discriminate.
  - specialize (H 0). discriminate.
  - f_equal.
    + specialize (H 0). simpl in H. congruence.
    + apply IH. intros j. exact (H (S j)).
Qed.

(** C10: [arraysEqual] returns [false] on arrays of different lengths,
    [true] on equal arrays, and otherwise a number, the largest index at
    which the arrays differ; in particular the one index at which they
    differ when there is only one, index [0] included. *)
Theorem arraysEqual_returns (arr1 arr2 : list string) :
  (length arr1 <> length arr2 -> arraysEqual arr1 arr2 = RFalse) /\
  (arr1 = arr2 -> arraysEqual arr1 arr2 = RTrue) /\
  (length arr1 = length arr2 -> arr1 <> arr2 ->
   exists k, arraysEqual arr1 arr2 = RIndex k /\
             nth_error arr1 k <> nth_error arr2 k /\
             forall j, k < j -> nth_error arr1 j = nth_error arr2 j) /\
  (forall k, length arr1 = length arr2 ->
             nth_error arr1 k <> nth_error arr2 k ->
             (forall j, j <> k -> nth_error arr1 j = nth_error arr2 j) ->
             arraysEqual arr1 arr2 = RIndex k).
Proof.
  assert (Hmain : length arr1 = length arr2 -> arr1 <> arr2 ->
     exists k, arraysEqual arr1 arr2 = RIndex k /\
               nth_error arr1 k <> nth_error arr2 k /\
               forall j, k < j -> nth_error arr1 j = nth_error arr2 j).
  { intros Hl Hne. unfold arraysEqual.
    rewrite (proj2 (Nat.eqb_eq _ _) Hl). simpl.
    pose proof (arraysEqual_loop_spec arr1 arr2 (length arr1)) as S.
    destruct (arraysEqual_loop arr1 arr2 (length arr1)) as [| |k].
    - contradiction.
    - exfalso. apply Hne, nth_error_all_eq. intros j.
      destruct (Nat.lt_ge_cases j (length arr1)) as [Hj|Hj].
      + now apply S.
      + now apply nth_error_beyond.
    - destruct S as (Hk & Hd & Ha). exists k. repeat split; [exact Hd|].
      intros j Hj. destruct (Nat.lt_ge_cases j (length arr1)) as [Hj'|Hj'].
      + now apply Ha.
      + now apply nth_error_beyond. }
  repeat split.
  - intros Hl. unfold arraysEqual.
    now rewrite (proj2 (Nat.eqb_neq _ _) Hl).
  - intros ->. unfold arraysEqual. rewrite Nat.eqb_refl. simpl.
    pose proof (arraysEqual_loop_spec arr2 arr2 (length arr2)) as S.
    destruct (arraysEqual_loop arr2 arr2 (length arr2)) as [| |k].
    + contradiction.
    + reflexivity.
    + destruct S as (_ & Hd & _). now contradiction Hd.
  - exact Hmain.
  - intros k Hl Hd Hothers.
    destruct Hmain as (k' & -> & Hd' & _).
    + exact Hl.
    + intros ->. now contradiction Hd.
    + destruct (Nat.eq_dec k' k) as [->|Hne]; [reflexivity|].
      exfalso. apply Hd'. now apply Hothers.
Qed.

Lemma arraysEqual_returns_witness :
  arraysEqual ["a"; "b"] ["a"] = RFalse /\
  arraysEqual ["a"; "b"] ["a"; "b"] = RTrue /\
  arraysEqual ["x"; "b"] ["a"; "b"] = RIndex 0.
Proof.
  split; [|split].
  - apply (proj1 (arraysEqual_returns ["a"; "b"] ["a"])). simpl. lia.
  - apply (proj1 (proj2 (arraysEqual_returns ["a"; "b"] ["a"; "b"]))).
    reflexivity.
  - apply (proj2 (proj2 (proj2 (arraysEqual_returns ["x"; "b"] ["a"; "b"])))).
    + reflexivity.
    + simpl. discriminate.
    + intros [|[|j]] Hj; simpl; try reflexivity. now contradiction Hj.
Defined.

(** ** Member queries *)

Section Queries.

Context {Foreign : Type}.

Lemma getMethods_loop_absent (blocks : list (block Foreign))
  (classname : string) (methods : list string) :
  (forall b c, In b blocks -> body b = ClassB c ->
               getClassDef c <> classname) ->
  getMethods_loop Foreign blocks classname methods = methods.
Proof.
  revert methods. induction blocks as [|b blocks IH]; intros methods H.
  - reflexivity.
  - simpl. destruct (body b) as [c| | |] eqn:Eb;
      try (apply IH; intros b' c' Hin; apply H; now right).
    destruct (String.eqb classname (getClassDef c)) eqn:E.
    + apply String.eqb_eq in E. exfalso.
      apply (H b c); [now left|exact Eb|now symmetry].
    + apply IH. intros b' c' Hin. apply H. now right.
Qed.

Lemma getClassVariables_loop_absent (blocks : list (block Foreign))
  (classname : string) (variables_ : list string) :
  (forall b c, In b blocks -> body b = ClassB c ->
               getClassDef c <> classname) ->
  getClassVariables_loop Foreign blocks classname variables_ = variables_.
Proof.
  revert variables_. induction blocks as [|b blocks IH]; intros vs H.
  - reflexivity.
  - simpl. destruct (body b) as [c| | |] eqn:Eb;
      try (apply IH; intros b' c' Hin; apply H; now right).
    destruct (String.eqb classname (getClassDef c)) eqn:E.
    + apply String.eqb_eq in E. exfalso.
      apply (H b c); [now left|exact Eb|now symmetry].
    + apply IH. intros b' c' Hin. apply H. now right.
Qed.

(** C9: when no class definition of the workspace is named [className],
    [getMethods] and [getClassVariables] return the empty list. *)
Theorem member_queries_absent_class (ws : workspace Foreign)
  (className : string) :
  (forall b c, In b (getAllBlocks ws) -> body b = ClassB c ->
               getClassDef c <> className) ->
  getMethods ws className = [] /\ getClassVariables ws className = [].
Proof.
  intros H. split.
  - now apply getMethods_loop_absent.
  - now apply getClassVariables_loop_absent.
Qed.

End Queries.

Lemma member_queries_absent_class_witness :
  getMethods zoo_noreturn "Animal" = ["speak"] /\
  getClassVariables zoo_noreturn "Animal" = ["age"] /\
  getMethods zoo_noreturn "Boat" = [] /\
  getClassVariables zoo_noreturn "Boat" = [].
Proof.
  split; [reflexivity|]. split; [reflexivity|].
  apply (member_queries_absent_class zoo_noreturn "Boat").
  intros b c [<-|[<-|[]]] E; try discriminate.
  injection E as <-. simpl. discriminate.
Defined.

(** ** Legal names *)

Lemma digits_value_app (acc : N) (s t : string) :
  JS.digits_value acc (s ++ t) = JS.digits_value (JS.digits_value acc s) t.
Proof.
  revert acc. induction s as [|c s IH]; intros acc; [reflexivity|].
  simpl. apply IH.
Qed.

Lemma code_digit_char (d : N) : (d < 10)%N -> JS.code (JS.digit_char d) = (48 + d)%N.
Proof.
  intros H. unfold JS.code, JS.digit_char. apply N_ascii_embedding. lia.
Qed.

Lemma is_digit_digit_char (d : N) :
  (d < 10)%N -> JS.is_digit (JS.digit_char d) = true.
Proof.
  intros H. unfold JS.is_digit. rewrite code_digit_char by exact H.
  apply andb_true_iff. split; apply N.leb_le; lia.
Qed.

Lemma all_digits_app (p d : string) :
  JS.all_digits (p ++ d) = JS.all_digits p && JS.all_digits d.
Proof.
  induction p as [|c p IH]; simpl; [reflexivity|].
  now rewrite IH, andb_assoc.
Qed.

Lemma all_digits_ends_in_digit (p : string) :
  p <> EmptyString -> JS.all_digits p = true -> ends_in_digit p = true.
Proof.
  induction p as [|c p IH]; intros Hne H; [congruence|].
  simpl in H. apply andb_true_iff in H as [Hc Hp].
  destruct p as [|c' p']; [exact Hc|].
  change (ends_in_digit (String c' p') = true). apply IH; [discriminate|exact Hp].
Qed.

Lemma match_suffix_unfold (s : string) :
  JS.match_suffix s =
  if JS.digits_to_end s then Some (EmptyString, s)
  else
    match s with
    | EmptyString => None
    | String c s' =>
        if JS.is_line_terminator c then None
        else
          match JS.match_suffix s' with
          | Some (p, d) => Some (String c p, d)
          | None => None
          end
    end.
Proof. destruct s; reflexivity. Qed.

Lemma digits_to_end_all_digits (s : string) :
  s <> EmptyString -> JS.digits_to_end s = JS.all_digits s.
Proof. destruct s; [congruence|reflexivity]. Qed.

Lemma not_all_digits (c : ascii) (p : string) :
  ends_in_digit (String c p) = false -> JS.all_digits (String c p) = false.
Proof.
  intros Hend. destruct (JS.all_digits (String c p)) eqn:E; [|reflexivity].
  apply all_digits_ends_in_digit in E; [congruence|discriminate].
Qed.

Lemma ends_in_digit_tail (c : ascii) (p : string) :
  ends_in_digit (String c p) = false -> ends_in_digit p = false.
Proof. destruct p as [|c' p']; [reflexivity|intros H; exact H]. Qed.

(** The decimal digits of a number: digits only, at least one, and they
    denote the number. *)
Lemma dec_digits_spec (fuel : nat) (n : N) :
  0 < fuel -> (n < 2 ^ N.of_nat fuel)%N ->
  JS.digits_value 0 (JS.dec_digits fuel n) = n /\
  JS.all_digits (JS.dec_digits fuel n) = true /\
  JS.dec_digits fuel n <> EmptyString.
Proof.
  revert n. induction fuel as [|fuel IH]; intros n Hfuel Hn.
  - lia.
  - cbn [JS.dec_digits]. destruct (N.ltb_spec n 10) as [Hlt|Hge].
    + split; [|split].
      * cbn [JS.digits_value]. rewrite code_digit_char by exact Hlt. lia.
      * cbn [JS.all_digits]. now rewrite is_digit_digit_char.
      * discriminate.
    + assert (Hdiv : (n / 10 < 2 ^ N.of_nat fuel)%N).
      { rewrite Nat2N.inj_succ, N.pow_succ_r' in Hn.
        apply N.Div0.div_lt_upper_bound. lia. }
      assert (Hmod : (n mod 10 < 10)%N) by (apply N.mod_lt; lia).
      assert (Hpos : 0 < fuel).
      { destruct fuel; [|lia]. simpl in Hdiv.
        assert (1 <= n / 10)%N by (apply N.div_le_lower_bound; lia). lia. }
      destruct (IH _ Hpos Hdiv) as (Hv & Ha & Hne).
      split; [|split].
      * rewrite digits_value_app, Hv. cbn [JS.digits_value].
        rewrite code_digit_char by exact Hmod.
        pose proof (N.div_mod n 10 ltac:(lia)) as H. clear - H.
        set (q := (n / 10)%N) in *. set (r := (n mod 10)%N) in *.
        clearbody q r. lia.
      * rewrite all_digits_app, Ha. cbn [JS.all_digits].
        now rewrite is_digit_digit_char.
      * destruct (JS.dec_digits fuel (n / 10)); [congruence|discriminate].
Qed.

Lemma dec_spec (n : N) :
  JS.digits_value 0 (JS.dec n) = n /\
  JS.all_digits (JS.dec n) = true /\
  JS.dec n <> EmptyString.
Proof.
  apply dec_digits_spec; [lia|]. rewrite Nat2N.inj_succ, N2Nat.id.
  destruct n as [|q]; [reflexivity|].
  apply N.log2_spec. lia.
Qed.

Lemma digits_value_dec (n : N) : JS.digits_value 0 (JS.dec n) = n.
Proof. apply dec_spec. Qed.

(** The match of [/^(.*?)(\d+)$/] on a name made of a part that does not
    end in a digit and of digits: [r[1]] is that part, [r[2]] the digits. *)
Lemma match_suffix_app (p d : string) :
  no_line_terminator p = true -> ends_in_digit p = false ->
  d <> EmptyString -> JS.all_digits d = true ->
  JS.match_suffix (p ++ d) = Some (p, d).
Proof.
  intros Hlt Hend Hd Hall. induction p as [|c p IH].
  - change (EmptyString ++ d)%string with d. rewrite match_suffix_unfold.
    now rewrite digits_to_end_all_digits, Hall.
  - rewrite match_suffix_unfold.
    rewrite digits_to_end_all_digits by discriminate.
    rewrite all_digits_app, (not_all_digits c p Hend).
    change (String c p ++ d)%string with (String c (p ++ d)). cbv iota beta.
    rewrite andb_false_l. cbv iota.
    simpl in Hlt. apply andb_true_iff in Hlt as [Hc Hp].
    apply negb_true_iff in Hc. rewrite Hc.
    rewrite IH; [reflexivity|exact Hp|].
    now apply ends_in_digit_tail in Hend.
Qed.

(** A name that does not end in a digit is not matched. *)
Lemma match_suffix_no_digit (p : string) :
  ends_in_digit p = false -> JS.match_suffix p = None.
Proof.
  induction p as [|c p IH]; intros Hend; [reflexivity|].
  rewrite match_suffix_unfold.
  rewrite digits_to_end_all_digits by discriminate.
  rewrite (not_all_digits c p Hend).
  destruct (JS.is_line_terminator c); [reflexivity|].
  rewrite IH; [reflexivity|]. now apply ends_in_digit_tail in Hend.
Qed.

Lemma nextName_appends_2 (p : string) :
  ends_in_digit p = false -> nextName p = (p ++ "2")%string.
Proof.
  intros H. unfold nextName. now rewrite match_suffix_no_digit.
Qed.

(** Below [2^53] the loop body replaces the decimal suffix by the decimal
    digits of its value plus one. *)
Lemma nextName_increments (p d : string) :
  no_line_terminator p = true -> ends_in_digit p = false ->
  d <> EmptyString -> JS.all_digits d = true ->
  (JS.digits_value 0 d + 1 < 2 ^ 53)%N ->
  nextName (p ++ d) = (p ++ JS.dec (JS.digits_value 0 d + 1))%string.
Proof.
  intros Hlt Hend Hd Hall Hv. unfold nextName.
  rewrite match_suffix_app by assumption.
  unfold JS.parseInt, JS.to_double.
  destruct (N.ltb_spec (JS.digits_value 0 d) (2 ^ 53)) as [_|Hge]; [|lia].
  unfold JS.add1, JS.to_double.
  destruct (N.ltb_spec (JS.digits_value 0 d + 1) (2 ^ 53)) as [_|Hge]; [|lia].
  unfold JS.Number_toString.
  destruct (N.ltb_spec (JS.digits_value 0 d + 1) (2 ^ 53)) as [_|Hge]; [|lia].
  reflexivity.
Qed.

Section LegalName.

Variable Names_equals : string -> string -> bool.
Context {Foreign : Type}.
Variables (ws : workspace Foreign) (blk : block Foreign) (type : string).

Lemma candidate_next (n : nat) (name : string) :
  candidate n (nextName name) = candidate (S n) name.
Proof.
  unfold candidate. induction n as [|n IH]; [reflexivity|].
  simpl in *. now rewrite IH.
Qed.

(** When the loop returns, the name it returns is not used. *)
Lemma findLegalName_loop_unused (fuel : nat) (name legal : string) :
  findLegalName_loop Names_equals fuel name ws blk type = Some legal ->
  isNameUsed Names_equals legal ws (Some blk) type = false.
Proof.
  revert name. induction fuel as [|fuel IH]; intros name H; [discriminate|].
  simpl in H. unfold isLegalName_ in H.
  destruct (isNameUsed Names_equals name ws (Some blk) type) eqn:E; simpl in H.
  - now apply IH in H.
  - now injection H as <-.
Qed.

(** The loop returns as soon as a candidate is not used: with more fuel
    than the rank of an unused candidate it returns the first unused one. *)
Lemma findLegalName_loop_returns (n fuel : nat) (name : string) :
  n < fuel ->
  isNameUsed Names_equals (candidate n name) ws (Some blk) type = false ->
  exists m, m <= n /\
    findLegalName_loop Names_equals fuel name ws blk type
    = Some (candidate m name) /\
    forall j, j < m ->
      isNameUsed Names_equals (candidate j name) ws (Some blk) type = true.
Proof.
  revert fuel name. induction n as [|n IH]; intros fuel name Hf Hfree.
  - destruct fuel as [|fuel]; [lia|]. exists 0. split; [lia|]. split.
    + simpl. unfold isLegalName_. unfold candidate in Hfree. simpl in Hfree.
      now rewrite Hfree.
    + intros j Hj. lia.
  - destruct fuel as [|fuel]; [lia|].
    destruct (isNameUsed Names_equals name ws (Some blk) type) eqn:E.
    + rewrite <- candidate_next in Hfree.
      destruct (IH fuel (nextName name)) as (m & Hm & Hr & Hused);
        [lia|exact Hfree|].
      exists (S m). split; [lia|]. split.
      * rewrite <- candidate_next. cbn [findLegalName_loop].
        unfold isLegalName_. rewrite E. exact Hr.
      * intros [|j] Hj; [exact E|].
        rewrite <- candidate_next. apply Hused. lia.
    + exists 0. split; [lia|]. split.
      * cbn [findLegalName_loop]. unfold isLegalName_. now rewrite E.
      * intros j Hj. lia.
Qed.

(** A candidate that the loop body leaves as it is and that is used keeps
    the loop from returning, whatever the fuel. *)
Lemma findLegalName_loop_stuck (fuel : nat) (name : string) :
  nextName name = name ->
  isNameUsed Names_equals name ws (Some blk) type = true ->
  findLegalName_loop Names_equals fuel name ws blk type = None.
Proof.
  intros Hfix Hused. induction fuel as [|fuel IH]; [reflexivity|].
  simpl. unfold isLegalName_. rewrite Hused. simpl. now rewrite Hfix.
Qed.

(** C1 (amended): inside a flyout [findLegalName] returns the proposed name
    as it is, untrimmed; outside a flyout it returns as soon as one of the
    candidates, the proposed name after some rounds of the loop, is not
    used, and every name it returns is one for which [isNameUsed] is
    false. *)
Theorem findLegalName_result (fuel : nat) (name : string) :
  (isInFlyout blk = true ->
   findLegalName Names_equals fuel name ws blk type = Some name) /\
  (isInFlyout blk = false ->
   forall n, n < fuel ->
     isNameUsed Names_equals (candidate n name) ws (Some blk) type = false ->
     exists legal,
       findLegalName Names_equals fuel name ws blk type = Some legal /\
       isNameUsed Names_equals legal ws (Some blk) type = false) /\
  (isInFlyout blk = false ->
   forall legal,
     findLegalName Names_equals fuel name ws blk type = Some legal ->
     isNameUsed Names_equals legal ws (Some blk) type = false).
Proof.
  unfold findLegalName. repeat split.
  - intros ->. reflexivity.
  - intros -> n Hn Hfree.
    destruct (findLegalName_loop_returns n fuel name Hn Hfree)
      as (m & _ & Hr & _).
    exists (candidate m name). split; [exact Hr|].
    now apply findLegalName_loop_unused with (fuel := fuel) (name := name).
  - intros -> legal H. now apply findLegalName_loop_unused in H.
Qed.

End LegalName.

Lemma findLegalName_result_witness :
  findLegalName exact_names 0 " Klasse" flyout_workspace flyout_class "class"
  = Some " Klasse" /\
  (exists legal,
     findLegalName exact_names 3 "Car" cars (class_block "c2" "Car2" [] [])
       "class" = Some legal /\
     isNameUsed exact_names legal cars (Some (class_block "c2" "Car2" [] []))
       "class" = false) /\
  isNameUsed exact_names "Car2" cars (Some (class_block "c2" "Car2" [] []))
    "class" = false.
Proof.
  split; [|split].
  - apply (proj1 (findLegalName_result exact_names flyout_workspace
                    flyout_class "class" 0 " Klasse")).
    reflexivity.
  - apply (proj1 (proj2 (findLegalName_result exact_names cars
                    (class_block "c2" "Car2" [] []) "class" 3 "Car"))
             eq_refl 1).
    + lia.
    + reflexivity.
  - apply (proj2 (proj2 (findLegalName_result exact_names cars
                    (class_block "c2" "Car2" [] []) "class" 3 "Car"))
             eq_refl "Car2").
    reflexivity.
Defined.

(** C1, as stated, fails inside a flyout: the proposed name comes back with
    its leading blank, which trimming would remove. *)
Lemma findLegalName_flyout_untrimmed :
  findLegalName exact_names 1 " Klasse" flyout_workspace flyout_class "class"
  = Some " Klasse" /\
  JS.trim " Klasse" = "Klasse" /\
  " Klasse" <> JS.trim " Klasse".
Proof.
  repeat split. discriminate.
Qed.

(** C5: in a workspace with the classes "Car" and "Car2", renaming "Car"
    to "Car2" resolves to "Car3", and "Car" would get the digit 2 appended;
    but the suffix [9007199254740992], which is [2^53], is not incremented:
    [parseInt] of it plus one is the same number, and the loop body gives
    the same name back. *)
Theorem nextName_rounds :
  nextName "Car" = "Car2" /\
  nextName "Car2" = "Car3" /\
  findLegalName exact_names 2 "Car2" cars (class_block "c1" "Car" [] [])
    "class" = Some "Car3" /\
  JS.add1 (JS.parseInt "9007199254740992") = JS.parseInt "9007199254740992" /\
  nextName "A9007199254740992" = "A9007199254740992".
Proof.
  repeat split; vm_compute; reflexivity.
Qed.

(** C6: when the proposed name ends in [9007199254740992] and is used by
    another class, the loop of [findLegalName] never returns: no amount of
    fuel gives a result. *)
Theorem findLegalName_never_returns (Names_equals : string -> string -> bool) :
  Names_equals big_name big_name = true ->
  forall fuel,
    findLegalName Names_equals fuel big_name big_suffix
      (class_block "c2" "B" [] []) "class" = None.
Proof.
  intros Hrefl fuel. unfold findLegalName. simpl isInFlyout. cbv iota.
  apply findLegalName_loop_stuck.
  - vm_compute. reflexivity.
  - unfold isNameUsed, big_suffix. simpl. now rewrite Hrefl.
Qed.

Lemma findLegalName_never_returns_witness :
  exact_names big_name big_name = true /\
  findLegalName exact_names 1000 big_name big_suffix
    (class_block "c2" "B" [] []) "class" = None.
Proof.
  split.
  - reflexivity.
  - apply (findLegalName_never_returns exact_names); reflexivity.
Defined.

(** ** Renaming a class or a method *)

Section Rename.

Variable Names_equals : string -> string -> bool.
Context {Foreign : Type}.
Variable foreign_renameClass : Foreign -> string -> string -> Foreign.
Variable foreign_setOldName : Foreign -> string -> Foreign.
Variable foreign_renameProcedure : Foreign -> string -> string -> Foreign.
Variable renameScope :
  list VariableModel -> string -> string -> list VariableModel.

Local Abbreviation renameClass' :=
  (renameClass Names_equals foreign_renameClass foreign_setOldName renameScope).
Local Abbreviation renameMethod' := (renameMethod Names_equals foreign_renameProcedure).
Local Abbreviation rename_block :=
  (renameClass_round Names_equals Foreign foreign_renameClass
     foreign_setOldName).


Lemma findLegalName_unused_returns (fuel : nat) (name : string)
  (ws : workspace Foreign) (blk : block Foreign) (type : string) :
  isNameUsed Names_equals name ws (Some blk) type = false ->
  findLegalName Names_equals (S fuel) name ws blk type = Some name.
Proof.
  intros Hfree. unfold findLegalName. destruct (isInFlyout blk); [reflexivity|].
  simpl. unfold isLegalName_. now rewrite Hfree.
Qed.

(** What [renameClass] returns, and the workspace it leaves, in terms of
    the legal name. *)
Lemma renameClass_inv (fuel : nat) (this : name_field Foreign)
  (ws ws' : workspace Foreign) (name legal : string) :
  renameClass' fuel this ws name = Some (legal, ws') ->
  findLegalName Names_equals fuel (JS.trim name) ws (sourceBlock_ this) "class"
  = Some legal /\
  getAllBlocks ws' =
    (if negb (String.eqb (text_ this) (JS.trim name))
        && negb (String.eqb (text_ this) legal)
     then map (rename_block (text_ this) legal) (getAllBlocks ws)
     else getAllBlocks ws) /\
  variableMap ws' = renameScope (variableMap ws) (text_ this) legal.
Proof.
  unfold renameClass.
  destruct (findLegalName Names_equals fuel (JS.trim name) ws
              (sourceBlock_ this) "class") as [l|]; [|discriminate].
  intros H. injection H as <- <-.
  split; [reflexivity|].
  destruct (negb (String.eqb (text_ this) (JS.trim name))
            && negb (String.eqb (text_ this) l)); split; reflexivity.
Qed.




Lemma workspace_eta (ws : workspace Foreign) :
  mkWorkspace (getAllBlocks ws) (variableMap ws) = ws.
Proof. now destruct ws. Qed.

(** C4: [renameClass] and [renameMethod] change no block when the trimmed
    proposed name or the legal name is the current name; when the legal
    name is the current name nothing changes at all, given that renaming a
    scope to its own name changes no variable; and proposing the current
    name of a class that no other class definition uses returns that name
    and changes nothing. *)
Theorem rename_to_current_name (fuel : nat) (this : name_field Foreign)
  (ws ws' : workspace Foreign) (name legal : string) :
  (forall vars n, renameScope vars n n = vars) ->
  (renameClass' fuel this ws name = Some (legal, ws') ->
   (JS.trim name = text_ this \/ legal = text_ this ->
    getAllBlocks ws' = getAllBlocks ws) /\
   (legal = text_ this -> ws' = ws)) /\
  (renameMethod' fuel this ws name = Some (legal, ws') ->
   JS.trim name = text_ this \/ legal = text_ this -> ws' = ws) /\
  (isNameUsed Names_equals (text_ this) ws (Some (sourceBlock_ this)) "class"
   = false ->
   JS.trim name = text_ this ->
   renameClass' (S fuel) this ws name = Some (text_ this, ws)).
Proof.
  intros Hself.
  assert (Hguard : forall l,
    JS.trim name = text_ this \/ l = text_ this ->
    negb (String.eqb (text_ this) (JS.trim name))
    && negb (String.eqb (text_ this) l) = false).
  { intros l [E|E]; rewrite E, String.eqb_refl; simpl;
      [reflexivity|apply andb_false_r]. }
  split; [|split].
  - intros Hr.
    destruct (renameClass_inv _ _ _ _ _ _ Hr) as (_ & Hblocks & Hvars).
    split.
    + intros Hor. now rewrite (Hguard legal Hor) in Hblocks.
    + intros E. rewrite (Hguard legal (or_intror E)) in Hblocks.
      rewrite E, Hself in Hvars.
      rewrite <- (workspace_eta ws'), <- (workspace_eta ws). congruence.
  - unfold renameMethod.
    destruct (findLegalName Names_equals fuel (JS.trim name) ws
                (sourceBlock_ this) "method") as [l|]; [|discriminate].
    intros H Hor. injection H as <- <-. now rewrite (Hguard l Hor).
  - intros Hfree E. unfold renameClass.
    rewrite E, (findLegalName_unused_returns _ _ _ _ _ Hfree).
    rewrite String.eqb_refl. simpl. rewrite Hself.
    now rewrite workspace_eta.
Qed.

End Rename.

Lemma renameScope_spec_self (vars : list VariableModel) (n : string) :
  renameScope_spec vars n n = vars.
Proof.
  unfold renameScope_spec. induction vars as [|v vars IH]; [reflexivity|].
  simpl. rewrite IH. f_equal.
  destruct (String.eqb (var_type v) n) eqn:E; [|reflexivity].
  apply String.eqb_eq in E. destruct v; simpl in *. now subst.
Qed.



Lemma rename_to_current_name_witness :
  isNameUsed exact_names "Cat" pets (Some cat_class) "class" = false /\
  JS.trim " Cat " = "Cat" /\
  rename_pets 1 " Cat " = Some ("Cat", pets).
Proof.
  split; [reflexivity|]. split; [reflexivity|].
  apply (proj2 (proj2 (rename_to_current_name exact_names no_foreign2
                         no_foreign1 no_foreign2 renameScope_spec 0 cat_field
                         pets pets " Cat " "Cat" renameScope_spec_self)));
    reflexivity.
Defined.

(** ** The dropdown of a reference site *)

Section DropDown.

Context {Foreign : Type}.
Variable main : workspace Foreign.

Lemma curValue_translate (oldName newName : value) (s1 s2 : site) :
  curValue s1 = curValue s2 ->
  curValue (translate_curValue oldName newName s1)
  = curValue (translate_curValue oldName newName s2).
Proof.
  intros E. unfold translate_curValue. rewrite E.
  destruct (loose_eq (curValue s2) oldName); [reflexivity|exact E].
Qed.

Lemma nonempty_length (l1 l2 : list string) :
  l1 <> [] \/ l2 <> [] ->
  negb (Nat.eqb (length l1) 0) || negb (Nat.eqb (length l2) 0) = true.
Proof.
  intros [H|H]; [destruct l1|destruct l2]; try congruence;
    simpl; auto using orb_true_r.
Qed.

End DropDown.

(** ** The connections of a reference site *)

Lemma site_eta (this : site) :
  set_colourIsSet (colourIsSet this) (set_colour (colour this) this) = this.
Proof. now destruct this. Qed.

(** [setType(true)] on a site that is bound for good. *)
Lemma setType_expression (this : site) :
  varType this <> "" -> varTypeIsSet this = true ->
  nextConnection (setType true this) = None /\
  previousConnection (setType true this) = None /\
  outputConnection (setType true this) = ensure (outputConnection this) /\
  calls (setType true this) =
    calls this
    ++ (if connected (nextConnection this)
        then [NextConnection_disconnect] else [])
    ++ (if connected (previousConnection this)
        then [PreviousConnection_disconnect] else [])
    ++ [SetNextStatement false; SetPreviousStatement false; SetOutput true].
Proof.
  intros Hne Hset. unfold setType.
  rewrite (proj2 (String.eqb_neq _ _) Hne), Hset. simpl.
  destruct (nextConnection this) as [[[t|]]|] eqn:En;
    destruct (previousConnection this) as [[[u|]]|] eqn:Ep;
    simpl; rewrite ?Ep; simpl; rewrite <- ?app_assoc; simpl;
    repeat split; reflexivity.
Qed.

(** [setType(false)] on a site that is bound for good: no call disconnects
    the output connection before [setOutput(false)]. *)
Lemma setType_statement (this : site) :
  varType this <> "" -> varTypeIsSet this = true ->
  outputConnection (setType false this) = None /\
  nextConnection (setType false this) = ensure (nextConnection this) /\
  previousConnection (setType false this)
  = ensure (previousConnection this) /\
  calls (setType false this) =
    calls this ++ [SetOutput false; SetNextStatement true;
                   SetPreviousStatement true].
Proof.
  intros Hne Hset. unfold setType.
  rewrite (proj2 (String.eqb_neq _ _) Hne), Hset. simpl.
  rewrite <- !app_assoc. repeat split; reflexivity.
Qed.

Lemma ensure_some (c : option connection) : ensure c <> None.
Proof. destruct c; discriminate. Qed.

Section Onchange.

Context {Foreign : Type}.
Variables (ws main : workspace Foreign) (variableModel : VariableModel).

(** The first part of [onchange] touches the colour only. *)
Lemma onchange_colour_frame (this : site) :
  exists c b,
    onchange_colour main variableModel this
    = set_colourIsSet b (set_colour c this).
Proof.
  unfold onchange_colour.
  destruct (negb (colourIsSet this));
    [destruct (getClassByName main (var_type variableModel)) as [cb|]|].
  - now exists (getColour cb), true.
  - exists (colour this), (colourIsSet this). now rewrite site_eta.
  - exists (colour this), (colourIsSet this). now rewrite site_eta.
Qed.

(** The end of the branch of a method touches the value inputs only. *)
Lemma reconcile_args_frame (params : option (list string)) (this : site) :
  exists a inputs,
    reconcile_args params this
    = set_argNames params (set_inputList inputs (set_args a this)).
Proof.
  assert (Hid : forall s : site,
            set_inputList (inputList s) (set_args (args s) s) = s)
    by (intros s; now destruct s).
  unfold reconcile_args.
  set (this1 := match params with
                | Some ps => _
                | None => this
                end).
  assert (H1 : exists a inputs,
             this1 = set_inputList inputs (set_args a this)).
  { subst this1. destruct params as [ps|].
    - destruct (Nat.eqb (args this) (length ps)).
      + exists (args this), (inputList this). now rewrite Hid.
      + destruct (if Nat.ltb (length ps) (args this)
                  then removeArgs (args this) (length ps) (inputList this)
                  else addArgs (length ps - args this) (args this) ps
                         (inputList this)) as [a inputs].
        now exists a, inputs.
    - exists (args this), (inputList this). now rewrite Hid. }
  destruct H1 as (a & inputs & ->).
  destruct (arraysEqual_js _ params) as [| |count].
  - now exists a, inputs.
  - now exists a, inputs.
  - eexists a, _. reflexivity.
Qed.

(** On a site that selects a method, [onchange] is the branch of a method
    after the colour. *)
Lemma onchange_selects_method (this : site) (m : string) :
  selects_method this m ->
  onchange false ws main variableModel this
  = onchange_method ws m (onchange_colour main variableModel this).
Proof.
  intros (Hne & Hset & Hval & Hm & Hvar).
  unfold onchange.
  destruct (onchange_colour_frame this) as (c & b & ->).
  unfold onchange_bind. simpl. rewrite Hset. simpl.
  rewrite (proj2 (String.eqb_neq _ _) Hne), Hval, Hvar. simpl.
  rewrite ?Hset.
  destruct m as [|ch m']; [congruence|reflexivity].
Qed.

(** C3 (amended): the connections of a site are set by its [onchange].
    On a site bound for good whose selected member is a method: when the
    method block is of the type with a return value, the next and the
    previous connection are disconnected if they are connected, before
    they are removed, and the site then has an output connection and
    neither a previous nor a next connection; when the method block is of
    the type without a return value, the site then has a previous and a
    next connection and no output connection. *)
Theorem onchange_sets_shape (this : site) (m : string)
  (methodBlock : method_def) :
  selects_method this m ->
  find_methodBlock (getAllBlocks ws) m None = Some methodBlock ->
  let this' := onchange false ws main variableModel this in
  (method_type methodBlock = "class_function_return" ->
   outputConnection this' <> None /\
   previousConnection this' = None /\ nextConnection this' = None /\
   calls this' =
     calls this
     ++ (if connected (nextConnection this)
         then [NextConnection_disconnect] else [])
     ++ (if connected (previousConnection this)
         then [PreviousConnection_disconnect] else [])
     ++ [SetNextStatement false; SetPreviousStatement false;
         SetOutput true]) /\
  (method_type methodBlock = "class_function_noreturn" ->
   outputConnection this' = None /\
   previousConnection this' <> None /\ nextConnection this' <> None).
Proof.
  intros Hsel Hfind this'. subst this'.
  rewrite (onchange_selects_method this m Hsel).
  destruct Hsel as (Hne & Hset & _).
  destruct (onchange_colour_frame this) as (c & b & ->).
  unfold onchange_method. rewrite Hfind. cbv zeta.
  match goal with
  | |- context [reconcile_args ?p ?s] =>
      destruct (reconcile_args_frame p s) as (a & inputs & Hrec)
  end.
  rewrite Hrec. clear Hrec.
  set (s0 := set_isReturn _ _).
  assert (Hne0 : varType s0 <> "") by exact Hne.
  assert (Hset0 : varTypeIsSet s0 = true) by exact Hset.
  assert (Hcalls : calls s0 = calls this) by reflexivity.
  assert (Hnext : nextConnection s0 = nextConnection this) by reflexivity.
  assert (Hprev : previousConnection s0 = previousConnection this)
    by reflexivity.
  clearbody s0.
  split; intros Htype; unfold isReturn_of; rewrite Htype;
    cbn [String.eqb Ascii.eqb Bool.eqb]; cbv iota;
    cbn [outputConnection previousConnection nextConnection calls
         set_argNames set_inputList set_args set_curValue].
  - destruct (setType_expression s0 Hne0 Hset0) as (Hn & Hp & Ho & Hc).
    rewrite Hn, Hp, Ho, Hc, Hcalls, Hnext, Hprev.
    repeat split. apply ensure_some.
  - destruct (setType_statement s0 Hne0 Hset0) as (Ho & Hn & Hp & _).
    rewrite Hn, Hp, Ho. repeat split; apply ensure_some.
Qed.

End Onchange.

(** ** The value inputs of a reference site *)

Lemma dec_inj (a b : N) : JS.dec a = JS.dec b -> a = b.
Proof.
  intros H. rewrite <- (digits_value_dec a), <- (digits_value_dec b).
  now rewrite H.
Qed.

Lemma argName_inj (i j : nat) : argName i = argName j -> i = j.
Proof.
  unfold argName. intros H. simpl in H. injection H as H.
  apply dec_inj in H. now apply Nat2N.inj.
Qed.

Lemma argName_eqb (i j : nat) :
  i <> j -> String.eqb (argName i) (argName j) = false.
Proof.
  intros H. apply String.eqb_neq. intros E. now apply argName_inj in E.
Qed.

Lemma getInput_cons (name : string) (i : input) (l : list input) :
  getInput name (i :: l)
  = if String.eqb (input_name i) name then Some i else getInput name l.
Proof. reflexivity. Qed.

Lemma removeInput_cons (name : string) (i : input) (l : list input) :
  removeInput name (i :: l)
  = if String.eqb (input_name i) name then l else i :: removeInput name l.
Proof. reflexivity. Qed.

Lemma insertBefore_cons (name : string) (i j : input) (l : list input) :
  insertBefore name i (j :: l)
  = if String.eqb (input_name j) name then i :: j :: l
    else j :: insertBefore name i l.
Proof. reflexivity. Qed.

Lemma getInput_app (name : string) (l1 l2 : list input) :
  getInput name (l1 ++ l2) =
  match getInput name l1 with
  | Some i => Some i
  | None => getInput name l2
  end.
Proof.
  unfold getInput. induction l1 as [|i l1 IH]; [reflexivity|].
  simpl. destruct (String.eqb (input_name i) name); [reflexivity|exact IH].
Qed.

Lemma removeInput_absent (name : string) (l : list input) :
  getInput name l = None -> removeInput name l = l.
Proof.
  unfold getInput. induction l as [|i l IH]; [reflexivity|].
  simpl. destruct (String.eqb (input_name i) name); [discriminate|].
  intros H. now rewrite IH.
Qed.

Lemma removeInput_app (name : string) (l1 l2 : list input) :
  getInput name l1 = None ->
  removeInput name (l1 ++ l2) = l1 ++ removeInput name l2.
Proof.
  unfold getInput. induction l1 as [|i l1 IH]; [reflexivity|].
  simpl. destruct (String.eqb (input_name i) name); [discriminate|].
  intros H. now rewrite IH.
Qed.

Lemma insertBefore_app (name : string) (i : input) (l1 l2 : list input) :
  getInput name l1 = None ->
  insertBefore name i (l1 ++ l2) = l1 ++ insertBefore name i l2.
Proof.
  unfold getInput. induction l1 as [|j l1 IH]; [reflexivity|].
  simpl. destruct (String.eqb (input_name j) name); [discriminate|].
  intros H. now rewrite IH.
Qed.

Lemma argInputs_app (start : nat) (l1 l2 : list (string * option string)) :
  argInputs start (l1 ++ l2)
  = argInputs start l1 ++ argInputs (start + length l1) l2.
Proof.
  revert start. induction l1 as [|x l1 IH]; intros start.
  - simpl. now rewrite Nat.add_0_r.
  - simpl. rewrite IH. now rewrite Nat.add_succ_r.
Qed.

Lemma getInput_argInputs (start j : nat)
  (slots : list (string * option string)) :
  j < start \/ start + length slots <= j ->
  getInput (argName j) (argInputs start slots) = None.
Proof.
  revert start. induction slots as [|x slots IH]; intros start H.
  - reflexivity.
  - cbn [argInputs length] in *. rewrite getInput_cons.
    unfold argInput at 1. cbn [input_name].
    rewrite argName_eqb by lia. apply IH. lia.
Qed.

(** An input appended after [A ++ B] and moved before the first input of
    [B], when [B] starts with the input of the name after its own. *)
Lemma move_in_place (A B : list input) (new : input) (k : nat) :
  input_name new = argName k ->
  getInput (argName k) A = None ->
  getInput (argName (S k)) A = None ->
  getInput (argName k) B = None ->
  B = [] \/ (exists y B', B = y :: B' /\ input_name y = argName (S k)) ->
  match getInput (argName (S k)) ((A ++ B) ++ [new]) with
  | Some _ =>
      moveInputBefore (argName k) (Some (argName (S k))) ((A ++ B) ++ [new])
  | None => (A ++ B) ++ [new]
  end
  = A ++ new :: B.
Proof.
  intros Hnew HkA HSkA HkB [->|(y & B' & -> & Hy)].
  - rewrite app_nil_r, getInput_app, HSkA, getInput_cons, Hnew.
    now rewrite argName_eqb by lia.
  - assert (Hget : getInput (argName (S k)) ((A ++ y :: B') ++ [new])
                   = Some y).
    { rewrite <- app_assoc, getInput_app, HSkA.
      rewrite <- app_comm_cons, getInput_cons, Hy.
      now rewrite String.eqb_refl. }
    assert (Hk : getInput (argName k) (A ++ y :: B') = None)
      by now rewrite getInput_app, HkA.
    rewrite Hget. unfold moveInputBefore.
    rewrite getInput_app, Hk, getInput_cons, Hnew, String.eqb_refl.
    rewrite argName_eqb by lia.
    rewrite removeInput_app by exact Hk.
    rewrite removeInput_cons, Hnew, String.eqb_refl, app_nil_r.
    rewrite insertBefore_app by exact HSkA.
    now rewrite insertBefore_cons, Hy, String.eqb_refl.
Qed.

Section ValueInputs.

Variable front : list input.
Hypothesis front_free : forall i, getInput (argName i) front = None.

Lemma argInputs_cons (k : nat) (x : string * option string)
  (l : list (string * option string)) :
  argInputs k (x :: l) = argInput k x :: argInputs (S k) l.
Proof. reflexivity. Qed.

(** Removing the input ARGk, [k] the number of slots before it. *)
Lemma removeInput_slot (s1 s2 : list (string * option string))
  (x : string * option string) :
  removeInput (argName (length s1)) (front ++ argInputs 0 (s1 ++ x :: s2))
  = front ++ argInputs 0 s1 ++ argInputs (S (length s1)) s2.
Proof.
  rewrite removeInput_app by apply front_free.
  rewrite argInputs_app, removeInput_app
    by (apply getInput_argInputs; right; simpl; lia).
  rewrite Nat.add_0_l, argInputs_cons, removeInput_cons. unfold argInput at 1.
  cbn [input_name]. now rewrite String.eqb_refl.
Qed.

Lemma getInput_front_slots (k : nat) (s : list (string * option string)) :
  length s <= k -> getInput (argName k) (front ++ argInputs 0 s) = None.
Proof.
  intros H. rewrite getInput_app, front_free.
  apply getInput_argInputs. right. simpl. lia.
Qed.

(** The loop that removes the trailing value inputs. *)
Lemma removeArgs_slots (slots : list (string * option string)) (n : nat) :
  n <= length slots ->
  removeArgs (length slots) n (front ++ argInputs 0 slots)
  = (n, front ++ argInputs 0 (firstn n slots)).
Proof.
  induction slots as [|x s IH] using rev_ind; intros Hn.
  - simpl in *. assert (n = 0) as -> by lia. reflexivity.
  - rewrite length_app in *. simpl in *. rewrite Nat.add_1_r in *.
    cbn [removeArgs].
    destruct (Nat.ltb_spec n (S (length s))) as [Hlt|Hge].
    + pose proof (removeInput_slot s [] x) as Hrm.
      simpl in Hrm. rewrite app_nil_r in Hrm. rewrite Hrm.
      rewrite IH by lia. f_equal. f_equal. f_equal.
      rewrite firstn_app. replace (n - length s) with 0 by lia.
      simpl. now rewrite app_nil_r.
    + assert (n = S (length s)) as -> by lia. f_equal. f_equal. f_equal.
      symmetry. apply firstn_all2. rewrite length_app. simpl. lia.
Qed.

(** Appending the input ARGk after [k] slots and moving it to the end. *)
Lemma append_slot (s : list (string * option string)) (label : string) :
  moveInputBefore (argName (length s)) None
    (appendValueInput (argName (length s)) label (front ++ argInputs 0 s))
  = front ++ argInputs 0 (s ++ [(label, None)]).
Proof.
  unfold appendValueInput, moveInputBefore.
  rewrite getInput_app, getInput_front_slots by lia.
  rewrite getInput_cons. cbn [input_name]. rewrite String.eqb_refl.
  rewrite removeInput_app by (apply getInput_front_slots; lia).
  rewrite removeInput_cons. cbn [input_name].
  rewrite String.eqb_refl, app_nil_r.
  rewrite argInputs_app. cbn [argInputs]. now rewrite <- app_assoc.
Qed.

(** The loop that appends the missing value inputs. *)
Lemma addArgs_slots (fuel : nat) (slots : list (string * option string))
  (params : list string) :
  length slots + fuel = length params ->
  addArgs fuel (length slots) params (front ++ argInputs 0 slots)
  = (length params,
     front ++ argInputs 0
       (slots ++ map (fun p => (p, None)) (skipn (length slots) params))).
Proof.
  revert slots. induction fuel as [|fuel IH]; intros slots Hl.
  - simpl. rewrite skipn_all2 by lia. simpl. rewrite app_nil_r.
    f_equal. lia.
  - cbn [addArgs].
    destruct (Nat.ltb_spec (length slots) (length params)) as [Hlt|Hge];
      [|lia].
    rewrite append_slot.
    replace (S (length slots))
      with (length (slots ++ [(nth (length slots) params "", @None string)]))
      by (rewrite length_app; simpl; lia).
    rewrite IH by (rewrite length_app; simpl; lia).
    f_equal. f_equal. f_equal. rewrite <- app_assoc. f_equal.
    rewrite length_app. simpl. rewrite Nat.add_1_r.
    assert (Hsk : skipn (length slots) params
                  = nth (length slots) params ""
                    :: skipn (S (length slots)) params).
    { clear - Hlt. revert params Hlt.
      induction (length slots) as [|k IHk]; intros [|p params] Hlt;
        simpl in *; try lia; [reflexivity|].
      apply IHk. lia. }
    rewrite Hsk. reflexivity.
Qed.

(** Replacing the input ARGk where it stands. *)
Lemma replace_slot (s1 s2 : list (string * option string))
  (x : string * option string) (label : string) :
  let k := length s1 in
  let inputs1 :=
    appendValueInput (argName k) label
      (removeInput (argName k) (front ++ argInputs 0 (s1 ++ x :: s2))) in
  match getInput (argName (k + 1)) inputs1 with
  | Some _ => moveInputBefore (argName k) (Some (argName (k + 1))) inputs1
  | None => inputs1
  end
  = front ++ argInputs 0 (s1 ++ (label, None) :: s2).
Proof.
  intros k inputs1. subst inputs1. subst k. rewrite removeInput_slot.
  unfold appendValueInput.
  rewrite (argInputs_app 0 s1), Nat.add_0_l, argInputs_cons.
  rewrite !app_assoc.
  replace (length s1 + 1) with (S (length s1)) by lia.
  apply move_in_place.
  - reflexivity.
  - now apply getInput_front_slots.
  - apply getInput_front_slots. lia.
  - apply getInput_argInputs. left. lia.
  - destruct s2 as [|y s2]; [now left|right].
    rewrite argInputs_cons. eexists _, _. split; reflexivity.
Qed.

End ValueInputs.

(** [setType] touches the connections and the record of calls only. *)
Lemma setType_frame (isReturn : bool) (this : site) :
  setType isReturn this
  = set_calls (calls (setType isReturn this))
      (set_outputConnection (outputConnection (setType isReturn this))
         (set_previousConnection (previousConnection (setType isReturn this))
            (set_nextConnection (nextConnection (setType isReturn this))
               this))).
Proof.
  destruct this as [vt vs ms cvs ar an cs col tov cur ir il nc pc oc cl].
  unfold setType. cbn [varType varTypeIsSet].
  destruct (negb (String.eqb vt "") && vs); [|reflexivity].
  destruct isReturn.
  - destruct nc as [[[t|]]|]; destruct pc as [[[u|]]|]; reflexivity.
  - reflexivity.
Qed.

(** The value inputs after [reconcile_args], on a site whose inputs are
    [front] and the slots ARG0, ARG1, ... *)
Lemma reconcile_args_slots (this : site) (front : list input)
  (slots : list (string * option string)) (names ps : list string) :
  has_arguments this front slots names ->
  let this' := reconcile_args (Some ps) this in
  args this' = length ps /\ argNames this' = Some ps /\
  (length ps <> length slots ->
   inputList this' =
     front ++ argInputs 0
       (firstn (length ps) slots
        ++ map (fun p => (p, None)) (skipn (length slots) ps))) /\
  (length ps = length slots ->
   forall k, arraysEqual names ps = RIndex k ->
     inputList this' =
       front ++ argInputs 0
         (firstn k slots ++ (nth k ps "", None) :: skipn (S k) slots)) /\
  (length ps = length slots -> arraysEqual names ps = RTrue ->
   inputList this' = inputList this).
Proof.
  intros (Hin & Hfront & Hargs & Hnames & Hlen) this'. subst this'.
  unfold reconcile_args. rewrite Hargs, Hin.
  destruct (Nat.eqb_spec (length slots) (length ps)) as [Heq|Hne].
  - (* the same number of parameters *)
    rewrite Hnames. cbn [arraysEqual_js].
    pose proof (arraysEqual_loop_spec names ps (length names)) as Hloop.
    unfold arraysEqual in *.
    rewrite (proj2 (Nat.eqb_eq (length names) (length ps))) in * by lia.
    cbn [negb] in *.
    destruct (arraysEqual_loop names ps (length names)) as [| |k] eqn:Eres.
    + contradiction.
    + simpl. repeat split; try congruence; try lia.
    + destruct Hloop as (Hk & _).
      assert (Hk' : k < length slots) by lia.
      destruct (nth_error slots k) as [x|] eqn:Ex;
        [|apply nth_error_None in Ex; lia].
      pose proof Ex as Hsplit. apply firstn_skipn_middle in Hsplit.
      assert (Hfk : length (firstn k slots) = k)
        by (rewrite length_firstn; lia).
      pose proof (replace_slot front Hfront (firstn k slots)
                    (skipn (S k) slots) x (nth k ps "")) as Hrep.
      cbv zeta in Hrep. rewrite Hfk, Hsplit in Hrep.
      cbn [inputList set_inputList set_argNames args argNames].
      rewrite Hin, Hrep.
      repeat split; try congruence; try lia.
  - (* another number of parameters *)
    assert (Hres : arraysEqual names ps = RFalse).
    { unfold arraysEqual.
      rewrite (proj2 (Nat.eqb_neq (length names) (length ps))) by lia.
      reflexivity. }
    destruct (Nat.ltb_spec (length ps) (length slots)) as [Hlt|Hge].
    + rewrite removeArgs_slots by (exact Hfront || lia).
      cbn [argNames set_inputList set_args set_argNames arraysEqual_js
           inputList args].
      rewrite Hnames. cbn [arraysEqual_js]. rewrite Hres.
      cbn [argNames set_inputList set_args set_argNames inputList args].
      repeat split; try lia.
      intros _. rewrite skipn_all2 by lia. simpl. now rewrite app_nil_r.
    + rewrite addArgs_slots by (exact Hfront || lia).
      cbn [argNames set_inputList set_args set_argNames arraysEqual_js
           inputList args].
      rewrite Hnames. cbn [arraysEqual_js]. rewrite Hres.
      cbn [argNames set_inputList set_args set_argNames inputList args].
      repeat split; try lia.
      intros _. now rewrite firstn_all2 by lia.
Qed.

Section Arguments.

Context {Foreign : Type}.
Variables (ws main : workspace Foreign) (variableModel : VariableModel).

(** C7 (amended): when [onchange] runs on a site whose selected member
    is a method with the parameters [ps]: if their number differs from the
    number of value inputs, trailing value inputs are removed, or value
    inputs are appended, until the numbers agree, and the inputs below the
    new number keep their labels and the blocks plugged into them; if the
    numbers agree and the names differ, the one input at the largest index
    at which the names differ is replaced where it stands, and every other
    input is kept, also one whose name has changed as well; if the names
    are the same, the inputs are kept. *)
Theorem onchange_reconciles_arguments (this : site) (m : string)
  (ps : list string) (front : list input)
  (slots : list (string * option string)) (names : list string) :
  selects_method this m ->
  getMethodAttributes ws m = Some ps ->
  has_arguments this front slots names ->
  let this' := onchange false ws main variableModel this in
  args this' = length ps /\ argNames this' = Some ps /\
  (length ps <> length slots ->
   inputList this' =
     front ++ argInputs 0
       (firstn (length ps) slots
        ++ map (fun p => (p, None)) (skipn (length slots) ps))) /\
  (length ps = length slots ->
   forall k, arraysEqual names ps = RIndex k ->
     inputList this' =
       front ++ argInputs 0
         (firstn k slots ++ (nth k ps "", None) :: skipn (S k) slots)) /\
  (length ps = length slots -> arraysEqual names ps = RTrue ->
   inputList this' = inputList this).
Proof.
  intros Hsel Hps Hargs this'. subst this'.
  rewrite (onchange_selects_method ws main variableModel this m Hsel).
  destruct (onchange_colour_frame main variableModel this) as (c & b & ->).
  unfold onchange_method. rewrite Hps. cbv zeta.
  set (s3 := set_curValue (Str m) _).
  assert (H3 : has_arguments s3 front slots names /\
               inputList s3 = inputList this).
  { subst s3.
    destruct (find_methodBlock (getAllBlocks ws) m None) as [mb|].
    - match goal with
      | |- context [setType ?r ?s] => rewrite (setType_frame r s)
      end.
      split; [exact Hargs|reflexivity].
    - split; [exact Hargs|reflexivity]. }
  destruct H3 as (H3 & Hin3). clearbody s3.
  pose proof (reconcile_args_slots s3 front slots names ps H3) as H.
  cbv zeta in H. rewrite Hin3 in H. exact H.
Qed.

End Arguments.

Lemma chained_site_selects_speak : selects_method chained_site "speak".
Proof. unfold selects_method. vm_compute. repeat split; discriminate. Qed.

Lemma picked_site_selects_speak : selects_method picked_site "speak".
Proof. unfold selects_method. vm_compute. repeat split; discriminate. Qed.

Lemma plugged_site_selects_speak : selects_method plugged_site "speak".
Proof. unfold selects_method. vm_compute. repeat split; discriminate. Qed.

Lemma onchange_sets_shape_witness :
  (let this' := onchange false zoo_return zoo_return rex chained_site in
   outputConnection this' <> None /\
   previousConnection this' = None /\ nextConnection this' = None /\
   calls this' =
     calls chained_site
     ++ [NextConnection_disconnect]
     ++ [PreviousConnection_disconnect]
     ++ [SetNextStatement false; SetPreviousStatement false;
         SetOutput true]) /\
  (let this' := onchange false zoo_noreturn zoo_noreturn rex picked_site in
   outputConnection this' = None /\
   previousConnection this' <> None /\ nextConnection this' <> None).
Proof.
  split.
  - apply (proj1 (onchange_sets_shape zoo_return zoo_return rex chained_site
                    "speak"
                    (mkMethod "class_function_return" ("speak", ["a"; "b"]))
                    chained_site_selects_speak eq_refl)).
    reflexivity.
  - apply (proj2 (onchange_sets_shape zoo_noreturn zoo_noreturn rex
                    picked_site "speak"
                    (mkMethod "class_function_noreturn" ("speak", ["a"; "b"]))
                    picked_site_selects_speak eq_refl)).
    reflexivity.
Defined.

(** C3, as stated, fails for [update] and [mutateCallers]: the method
    "speak" has a return value, and after [mutateCallers] the site that
    selects it still has its previous and its next connection and no output
    connection; its [onchange] is what gives it the other shape. *)
Lemma mutateCallers_keeps_shape :
  let ws := zoo_with chained_site "class_function_return" ["a"; "b"] in
  let ws' := mutateCallers exact_names no_foreign_name no_foreign0 ws
               (mkClass "Animal" ["speak"] ["age"] 0) ws in
  is_caller exact_names no_foreign_name "Animal" (site_block "s1" chained_site)
  = true /\
  site_shapes ws = [(false, true, true)] /\
  site_shapes ws' = [(false, true, true)] /\
  shape (onchange false ws ws rex chained_site) = (true, false, false).
Proof. vm_compute. repeat split. Qed.

(** On a site whose output is connected, the branch of a method without
    return value calls [setOutput(false)] first: no call disconnects the
    output connection. *)
Lemma onchange_statement_calls :
  connected (outputConnection nested_site) = true /\
  calls (onchange false zoo_noreturn zoo_noreturn rex nested_site) =
    calls nested_site
    ++ [SetOutput false; SetNextStatement true; SetPreviousStatement true].
Proof. vm_compute. split; reflexivity. Qed.

Lemma onchange_reconciles_arguments_witness :
  let this' := onchange false zoo_three zoo_three rex plugged_site in
  args this' = 3 /\
  inputList this' =
    plugged_front
    ++ argInputs 0 [("a", Some "x1"); ("b", Some "x2"); ("c", None)].
Proof.
  pose proof (onchange_reconciles_arguments zoo_three zoo_three rex
                plugged_site "speak" ["a"; "b"; "c"] plugged_front
                [("a", Some "x1"); ("b", Some "x2")] ["a"; "b"]
                plugged_site_selects_speak eq_refl) as H.
  cbv zeta in H. destruct H as (Hargs & _ & Hinputs & _).
  - repeat split.
  - split; [exact Hargs|]. apply Hinputs. simpl. lia.
Defined.

(** C7, as stated, fails when two parameter names have changed: the
    parameters are now "x" and "y", the input ARG1 is replaced by one
    labelled "y", and the input ARG0 keeps the label "a". *)
Lemma onchange_replaces_one_slot :
  argNames plugged_site = Some ["a"; "b"] /\
  getMethodAttributes zoo_xy "speak" = Some ["x"; "y"] /\
  value_inputs plugged_site =
    [("ARG0", [FieldLabel "a"], Some "x1");
     ("ARG1", [FieldLabel "b"], Some "x2")] /\
  value_inputs (onchange false zoo_xy zoo_xy rex plugged_site) =
    [("ARG0", [FieldLabel "a"], Some "x1");
     ("ARG1", [FieldLabel "y"], None)].
Proof. vm_compute. repeat split. Qed.

(** ** The loop of [findLegalName] below [2^53] *)

Lemma string_app_nil_r (s : string) : (s ++ "")%string = s.
Proof. induction s as [|c s IH]; [reflexivity|]. simpl. now rewrite IH. Qed.

Lemma string_app_inv_head (p s t : string) :
  (p ++ s)%string = (p ++ t)%string -> s = t.
Proof.
  induction p as [|c p IH]; intros H; [exact H|].
  simpl in H. injection H as H. now apply IH.
Qed.

Lemma suffix_at_digits (d : string) (i : nat) :
  JS.all_digits d = true -> JS.all_digits (suffix_at d i) = true.
Proof.
  intros Hd. destruct i as [|i]; [exact Hd|]. apply dec_spec.
Qed.

Lemma suffix_at_inj (d : string) (i j : nat) :
  suffix_at d i = suffix_at d j -> i = j.
Proof.
  assert (Hzero : forall k, d <> suffix_at d (S k)).
  { intros k E. unfold suffix_at in E.
    pose proof (dec_spec (suffix_start d + N.of_nat (S k))) as (Hv & _ & Hne).
    rewrite <- E in Hv, Hne. unfold suffix_start in Hv.
    destruct d as [|c d]; [congruence|]. lia. }
  destruct i as [|i], j as [|j]; intros E.
  - reflexivity.
  - now apply Hzero in E.
  - symmetry in E. now apply Hzero in E.
  - unfold suffix_at in E. apply dec_inj in E. lia.
Qed.

(** One round of the loop on a name with the suffix of round [i]. *)
Lemma nextName_suffix_at (p d : string) (i : nat) :
  no_line_terminator p = true -> ends_in_digit p = false ->
  JS.all_digits d = true ->
  (suffix_start d + N.of_nat (S i) < 2 ^ 53)%N ->
  nextName (p ++ suffix_at d i) = (p ++ suffix_at d (S i))%string.
Proof.
  intros Hlt Hend Hd Hrange.
  destruct i as [|i].
  - cbn [suffix_at]. destruct d as [|c d].
    + rewrite string_app_nil_r. now apply nextName_appends_2.
    + rewrite nextName_increments;
        [reflexivity|assumption|assumption|discriminate|assumption|].
      unfold suffix_start in Hrange. lia.
  - cbn [suffix_at].
    pose proof (dec_spec (suffix_start d + N.of_nat (S i))) as (Hv & Ha & Hne).
    rewrite nextName_increments; try assumption.
    + rewrite Hv. f_equal. f_equal. lia.
    + rewrite Hv. lia.
Qed.

Lemma candidate_suffix_at (p d : string) (i : nat) :
  no_line_terminator p = true -> ends_in_digit p = false ->
  JS.all_digits d = true ->
  (suffix_start d + N.of_nat i < 2 ^ 53)%N ->
  candidate i (p ++ d) = (p ++ suffix_at d i)%string.
Proof.
  intros Hlt Hend Hd. induction i as [|i IH]; intros Hrange.
  - reflexivity.
  - change (candidate (S i) (p ++ d)%string)
      with (nextName (candidate i (p ++ d)%string)).
    rewrite IH by lia. now apply nextName_suffix_at.
Qed.

Section Termination.

Variable Names_equals : string -> string -> bool.
Context {Foreign : Type}.

(** A name is equal to at most one of the names that differ in their
    decimal suffix only: so it is when names are compared exactly, and when
    they are compared without regard to the case of letters. *)
Hypothesis suffixes_apart :
  forall a p d1 d2,
    JS.all_digits d1 = true -> JS.all_digits d2 = true ->
    Names_equals a (p ++ d1) = true -> Names_equals a (p ++ d2) = true ->
    d1 = d2.

Lemma isNameUsed_loop_used_names (name : string)
  (blocks : list (block Foreign)) (opt_exclude : option (block Foreign))
  (type : string) :
  isNameUsed_loop Names_equals Foreign name blocks opt_exclude type
  = existsb (fun a => Names_equals a name)
            (used_names blocks opt_exclude type).
Proof.
  induction blocks as [|b blocks IH]; [reflexivity|].
  cbn [isNameUsed_loop used_names].
  destruct (match opt_exclude with
            | Some e => same_block b e
            | None => false
            end); [exact IH|].
  destruct (body b) as [c|m|s|f]; rewrite ?andb_false_r; try exact IH.
  - destruct (String.eqb type "class"); cbn [andb existsb].
    + destruct (Names_equals (getClassDef c) name); [reflexivity|exact IH].
    + exact IH.
  - destruct (String.eqb type "method"); cbn [andb existsb].
    + destruct (Names_equals (fst (getMethodDef m)) name);
        [reflexivity|exact IH].
    + exact IH.
Qed.

Lemma used_names_length (blocks : list (block Foreign))
  (opt_exclude : option (block Foreign)) (type : string) :
  length (used_names blocks opt_exclude type) <= length blocks.
Proof.
  induction blocks as [|b blocks IH]; [simpl; lia|].
  cbn [used_names length].
  destruct (match opt_exclude with
            | Some e => same_block b e
            | None => false
            end); [lia|].
  destruct (body b) as [c|m|s|f]; try lia.
  - destruct (String.eqb type "class"); simpl; lia.
  - destruct (String.eqb type "method"); simpl; lia.
Qed.

(** At most one of the suffixes makes a name equal to [a]. *)
Lemma at_most_one_suffix (a p : string) (D : list string) :
  NoDup D -> Forall (fun d => JS.all_digits d = true) D ->
  length (filter (fun d => Names_equals a (p ++ d)) D) <= 1.
Proof.
  intros Hnd Hall. induction D as [|d D IH]; [simpl; lia|].
  inversion Hnd as [|? ? Hnotin HndD]; subst.
  inversion Hall as [|? ? Hd HallD]; subst.
  simpl. destruct (Names_equals a (p ++ d)) eqn:E; [|now apply IH].
  assert (Hnone : filter (fun d' => Names_equals a (p ++ d')) D = []).
  { destruct (filter (fun d' => Names_equals a (p ++ d')) D) as [|d' l] eqn:F;
      [reflexivity|].
    assert (Hin : In d' (filter (fun d' => Names_equals a (p ++ d')) D))
      by (rewrite F; now left).
    apply filter_In in Hin as (Hin & E').
    assert (d = d').
    { apply (suffixes_apart a p d d'); try assumption.
      rewrite Forall_forall in HallD. now apply HallD. }
    subst d'. contradiction. }
  rewrite Hnone. simpl. lia.
Qed.

(** With more suffixes than names in use, one suffix gives a name that is
    not in use. *)
Lemma free_suffix (p : string) (U D : list string) :
  NoDup D -> Forall (fun d => JS.all_digits d = true) D ->
  length U < length D ->
  exists d, In d D /\ existsb (fun a => Names_equals a (p ++ d)) U = false.
Proof.
  revert D. induction U as [|a U IH]; intros D Hnd Hall Hlen.
  - destruct D as [|d D]; [simpl in Hlen; lia|].
    exists d. split; [now left|reflexivity].
  - set (f := fun d => Names_equals a (p ++ d)).
    destruct (IH (filter (fun d => negb (f d)) D)) as (d & Hin & Hfree).
    + now apply NoDup_filter.
    + rewrite Forall_forall in *. intros d Hin.
      apply filter_In in Hin as (Hin & _). now apply Hall.
    + pose proof (filter_length f D) as Hsum.
      pose proof (at_most_one_suffix a p D Hnd Hall) as Hone.
      fold f in Hone. simpl in Hlen. lia.
    + apply filter_In in Hin as (Hin & Hneg).
      exists d. split; [exact Hin|].
      cbn [existsb]. apply negb_true_iff in Hneg. unfold f in Hneg.
      now rewrite Hneg.
Qed.

(** Outside a flyout the loop returns, within as many rounds as the
    workspace has blocks, a name that is not used, when the part of the
    proposed name before its decimal suffix has no line terminator and the
    value of the suffix plus the number of blocks is below [2^53]. *)
Theorem findLegalName_returns_below_two53 (ws : workspace Foreign)
  (blk : block Foreign) (type p d : string) :
  isInFlyout blk = false ->
  no_line_terminator p = true -> ends_in_digit p = false ->
  JS.all_digits d = true ->
  (suffix_start d + N.of_nat (length (getAllBlocks ws)) < 2 ^ 53)%N ->
  exists legal,
    findLegalName Names_equals (S (length (getAllBlocks ws))) (p ++ d)
      ws blk type = Some legal /\
    isNameUsed Names_equals legal ws (Some blk) type = false.
Proof.
  intros Hfly Hlt Hend Hd Hrange.
  set (n := length (getAllBlocks ws)) in *.
  set (U := used_names (getAllBlocks ws) (Some blk) type).
  destruct (free_suffix p U (map (suffix_at d) (seq 0 (S n))))
    as (d' & Hin & Hfree).
  - apply NoDup_map_NoDup_ForallPairs; [|apply seq_NoDup].
    intros i j _ _ E. now apply suffix_at_inj in E.
  - apply Forall_forall. intros d' Hin.
    apply in_map_iff in Hin as (i & <- & _). now apply suffix_at_digits.
  - rewrite length_map, length_seq.
    pose proof (used_names_length (getAllBlocks ws) (Some blk) type).
    fold U n in H. lia.
  - apply in_map_iff in Hin as (i & <- & Hi). apply in_seq in Hi.
    assert (Hused : isNameUsed Names_equals (candidate i (p ++ d)) ws
                      (Some blk) type = false).
    { rewrite candidate_suffix_at by (assumption || lia).
      unfold isNameUsed. now rewrite isNameUsed_loop_used_names. }
    destruct (findLegalName_loop_returns Names_equals ws blk type i (S n)
                (p ++ d) ltac:(lia) Hused) as (m & _ & Hr & _).
    exists (candidate m (p ++ d)). unfold findLegalName. rewrite Hfly.
    split; [exact Hr|].
    now apply findLegalName_loop_unused with (fuel := S n) (name := (p ++ d)%string).
Qed.

End Termination.

(** Names compared exactly are told apart by their decimal suffixes. *)
Lemma exact_names_suffixes_apart (a p d1 d2 : string) :
  JS.all_digits d1 = true -> JS.all_digits d2 = true ->
  exact_names a (p ++ d1) = true -> exact_names a (p ++ d2) = true ->
  d1 = d2.
Proof.
  intros _ _ H1 H2. apply String.eqb_eq in H1, H2.
  apply (string_app_inv_head p). congruence.
Qed.

(** In the workspace with "Car" and "Car2", every proposed name "Car"
    followed by a number below [2^53 - 2] is resolved. *)
Example cars_resolved (blk : block unit) (d : string) :
  isInFlyout blk = false -> JS.all_digits d = true ->
  (suffix_start d + 2 < 2 ^ 53)%N ->
  exists legal,
    findLegalName exact_names 3 ("Car" ++ d) cars blk "class" = Some legal /\
    isNameUsed exact_names legal cars (Some blk) "class" = false.
Proof.
  intros Hfly Hd Hrange.
  apply (findLegalName_returns_below_two53 exact_names
           exact_names_suffixes_apart cars blk "class" "Car" d);
    try assumption; reflexivity.
Qed.

(* ================================================================== *)
(** * Further properties: the catalogue of classes *)
(* ================================================================== *)

Lemma Class_colour_next (n : N) :
  Class_colour (10 * (n mod 36 + 1)) = (10 * ((n + 1) mod 36 + 1))%N.
Proof.
  unfold Class_colour.
  destruct (N.ltb_spec 360 (10 * (n mod 36 + 1) + 10)) as [H|H];
    zify; Z.to_euclidean_division_equations; lia.
Qed.

(** X1: the calls of [Blockly.Class.colour] return the hues 10, 20, ...,
    360 and then 10 again: the call number [n + 1] returns
    [10 * (n mod 36 + 1)], so that the class number 37 gets the colour of
    the first. *)
Theorem nth_colour_cycle (n : nat) :
  nth_colour (S n) = (10 * (N.of_nat n mod 36 + 1))%N.
Proof.
  induction n as [|n IH]; [reflexivity|].
  change (nth_colour (S (S n))) with (Class_colour (nth_colour (S n))).
  rewrite IH, Class_colour_next. f_equal. f_equal. f_equal. lia.
Qed.

Section ClassQueries.

Context {Foreign : Type}.

(** [allUsedClasses] lists the names of the class blocks in the order of
    the blocks. *)
Lemma allUsedClasses_loop_spec (blocks : list (block Foreign))
  (classes : list string) :
  allUsedClasses_loop blocks classes
  = classes ++ flat_map (fun b => match body b with
                                  | ClassB c => [getClassDef c]
                                  | _ => []
                                  end) blocks.
Proof.
  revert classes. induction blocks as [|b blocks IH]; intros classes.
  - simpl. now rewrite app_nil_r.
  - cbn [allUsedClasses_loop flat_map].
    destruct (body b); rewrite IH; try reflexivity.
    now rewrite <- app_assoc.
Qed.

Lemma allUsedClasses_cons (b : block Foreign) (blocks : list (block Foreign)) :
  allUsedClasses_loop (b :: blocks) []
  = match body b with
    | ClassB c => getClassDef c :: allUsedClasses_loop blocks []
    | _ => allUsedClasses_loop blocks []
    end.
Proof.
  rewrite !allUsedClasses_loop_spec. cbn [flat_map app].
  destruct (body b); reflexivity.
Qed.

Lemma getClassByName_loop_found (blocks : list (block Foreign))
  (className : string) (c : class_def) :
  getClassByName_loop Foreign blocks className = Some c ->
  getClassDef c = className /\
  exists b, In b blocks /\ body b = ClassB c.
Proof.
  induction blocks as [|b blocks IH]; [discriminate|].
  cbn [getClassByName_loop].
  destruct (body b) as [c'| | |] eqn:Eb;
    try (intros H; destruct (IH H) as (? & b' & ? & ?); split; [assumption|];
         exists b'; split; [now right|assumption]).
  destruct (String.eqb (getClassDef c') className) eqn:E.
  - intros H. injection H as <-. apply String.eqb_eq in E.
    split; [exact E|]. exists b. split; [now left|exact Eb].
  - intros H; destruct (IH H) as (? & b' & ? & ?); split; [assumption|];
      exists b'; split; [now right|assumption].
Qed.

Lemma getClassByName_loop_none (blocks : list (block Foreign))
  (className : string) :
  getClassByName_loop Foreign blocks className = None <->
  ~ In className (allUsedClasses_loop blocks []).
Proof.
  induction blocks as [|b blocks IH].
  - simpl. tauto.
  - rewrite allUsedClasses_cons. cbn [getClassByName_loop].
    destruct (body b) as [c'| | |]; try exact IH.
    destruct (String.eqb_spec (getClassDef c') className) as [E|E].
    + split; [discriminate|]. intros H. exfalso. apply H. now left.
    + rewrite IH. simpl. tauto.
Qed.

(** X2: [getClassByName] finds a class exactly for the names
    [allUsedClasses] lists; the block it returns is a class block of the
    workspace and carries the name asked for. *)
Theorem getClassByName_allUsedClasses (ws : workspace Foreign)
  (className : string) :
  (forall c, getClassByName ws className = Some c ->
             getClassDef c = className /\
             exists b, In b (getAllBlocks ws) /\ body b = ClassB c) /\
  (getClassByName ws className = None <->
   ~ In className (allUsedClasses ws)).
Proof.
  split.
  - intros c. apply getClassByName_loop_found.
  - apply getClassByName_loop_none.
Qed.

Lemma getMethods_loop_app (l1 l2 : list (block Foreign)) (n : string)
  (acc : list string) :
  getMethods_loop Foreign (l1 ++ l2) n acc
  = getMethods_loop Foreign l2 n (getMethods_loop Foreign l1 n acc).
Proof.
  revert acc. induction l1 as [|b l1 IH]; intros acc; [reflexivity|].
  cbn [app getMethods_loop].
  destruct (body b) as [c| | |]; try apply IH.
  destruct (String.eqb n (getClassDef c)); apply IH.
Qed.

Lemma getClassVariables_loop_app (l1 l2 : list (block Foreign)) (n : string)
  (acc : list string) :
  getClassVariables_loop Foreign (l1 ++ l2) n acc
  = getClassVariables_loop Foreign l2 n
      (getClassVariables_loop Foreign l1 n acc).
Proof.
  revert acc. induction l1 as [|b l1 IH]; intros acc; [reflexivity|].
  cbn [app getClassVariables_loop].
  destruct (body b) as [c| | |]; try apply IH.
  destruct (String.eqb n (getClassDef c)); apply IH.
Qed.

Lemma member_loops_rev (blocks : list (block Foreign)) (n : string)
  (ms vs : list string) :
  match getClassByName_loop Foreign (rev blocks) n with
  | Some c =>
      getMethods_loop Foreign blocks n ms = class_methods c /\
      getClassVariables_loop Foreign blocks n vs = getAttributeInputs c
  | None =>
      getMethods_loop Foreign blocks n ms = ms /\
      getClassVariables_loop Foreign blocks n vs = vs
  end.
Proof.
  revert ms vs.
  induction blocks as [|b blocks IH] using rev_ind; intros ms vs.
  - simpl. split; reflexivity.
  - rewrite rev_app_distr. cbn [rev app getClassByName_loop].
    rewrite getMethods_loop_app, getClassVariables_loop_app.
    cbn [getMethods_loop getClassVariables_loop].
    destruct (body b) as [c| | |]; try apply IH.
    rewrite (String.eqb_sym n (getClassDef c)).
    destruct (String.eqb (getClassDef c) n); [split; reflexivity|apply IH].
Qed.

(** X3: [getMethods] and [getClassVariables] answer with the members of
    the last class block of that name, the one [getClassByName] finds first
    when the blocks are read in the reverse order; both are empty when
    there is none. *)
Theorem member_queries_last_class (ws : workspace Foreign)
  (className : string) :
  match getClassByName
          (mkWorkspace (rev (getAllBlocks ws)) (variableMap ws)) className with
  | Some c =>
      getMethods ws className = class_methods c /\
      getClassVariables ws className = getAttributeInputs c
  | None =>
      getMethods ws className = [] /\ getClassVariables ws className = []
  end.
Proof.
  apply (member_loops_rev (getAllBlocks ws) className [] []).
Qed.

Lemma member_loops_unique (blocks : list (block Foreign)) (n : string)
  (c : class_def) (ms vs : list string) :
  NoDup (allUsedClasses_loop blocks []) ->
  getClassByName_loop Foreign blocks n = Some c ->
  getMethods_loop Foreign blocks n ms = class_methods c /\
  getClassVariables_loop Foreign blocks n vs = getAttributeInputs c.
Proof.
  revert ms vs. induction blocks as [|b blocks IH]; intros ms vs;
    [discriminate|].
  rewrite allUsedClasses_cons.
  cbn [getClassByName_loop getMethods_loop getClassVariables_loop].
  destruct (body b) as [c'| | |]; try apply IH.
  intros Hnd. inversion Hnd as [|? ? Hnotin Hnd']; subst.
  rewrite (String.eqb_sym n (getClassDef c')).
  destruct (String.eqb_spec (getClassDef c') n) as [E|E]; [|now apply IH].
  intros H. injection H as <-. subst n.
  assert (Habsent : forall b' c'', In b' blocks -> body b' = ClassB c'' ->
                                   getClassDef c'' <> getClassDef c').
  { intros b' c'' Hin Hb E. apply Hnotin.
    rewrite allUsedClasses_loop_spec. cbn [app]. apply in_flat_map.
    exists b'. split; [exact Hin|]. rewrite Hb. now left. }
  split.
  - now apply getMethods_loop_absent.
  - now apply getClassVariables_loop_absent.
Qed.

(** X4: in a workspace whose class names are distinct, the three queries
    agree: [getMethods] and [getClassVariables] return the members of the
    class block [getClassByName] returns. *)
Theorem unique_class_members (ws : workspace Foreign) (className : string)
  (c : class_def) :
  NoDup (allUsedClasses ws) ->
  getClassByName ws className = Some c ->
  getMethods ws className = class_methods c /\
  getClassVariables ws className = getAttributeInputs c.
Proof.
  apply member_loops_unique.
Qed.

Lemma find_methodBlock_app (l1 l2 : list (block Foreign)) (m : string)
  (acc : option method_def) :
  find_methodBlock (l1 ++ l2) m acc
  = find_methodBlock l2 m (find_methodBlock l1 m acc).
Proof.
  revert acc. induction l1 as [|b l1 IH]; intros acc; [reflexivity|].
  cbn [app find_methodBlock].
  destruct (body b) as [|mb| |]; try apply IH.
  destruct (String.eqb (fst (getMethodDef mb)) m); apply IH.
Qed.

Lemma find_methodBlock_acc (blocks : list (block Foreign)) (m : string)
  (acc : option method_def) :
  find_methodBlock blocks m acc
  = match find_methodBlock blocks m None with
    | Some mb => Some mb
    | None => acc
    end.
Proof.
  revert acc. induction blocks as [|b blocks IH]; intros acc; [reflexivity|].
  cbn [find_methodBlock].
  destruct (body b) as [|mb| |]; try apply IH.
  destruct (String.eqb (fst (getMethodDef mb)) m); [|apply IH].
  rewrite (IH (Some mb)).
  now destruct (find_methodBlock blocks m None).
Qed.

Lemma getMethodAttributes_loop_rev (blocks : list (block Foreign))
  (m : string) :
  getMethodAttributes_loop Foreign blocks m
  = option_map (fun mb => snd (getMethodDef mb))
      (find_methodBlock (rev blocks) m None).
Proof.
  induction blocks as [|b blocks IH]; [reflexivity|].
  cbn [rev getMethodAttributes_loop]. rewrite find_methodBlock_app.
  cbn [find_methodBlock].
  destruct (body b) as [|mb| |]; try exact IH.
  destruct (String.eqb (fst (getMethodDef mb)) m); [reflexivity|exact IH].
Qed.

Lemma method_lookups_none (blocks : list (block Foreign)) (m : string) :
  getMethodAttributes_loop Foreign blocks m = None <->
  find_methodBlock blocks m None = None.
Proof.
  induction blocks as [|b blocks IH]; [simpl; tauto|].
  cbn [getMethodAttributes_loop find_methodBlock].
  destruct (body b) as [|mb| |]; try exact IH.
  destruct (String.eqb (fst (getMethodDef mb)) m); [|exact IH].
  rewrite find_methodBlock_acc.
  destruct (find_methodBlock blocks m None); split; discriminate.
Qed.

(** X5: [getMethodAttributes] takes the parameters from the first method
    block of the name, which is the block the search of [onchange] (it
    keeps the last) finds when the blocks are read in the reverse order;
    the one lookup finds nothing exactly when the other finds nothing. *)
Theorem method_lookups (ws : workspace Foreign) (m : string) :
  getMethodAttributes ws m
  = option_map (fun mb => snd (getMethodDef mb))
      (find_methodBlock (rev (getAllBlocks ws)) m None) /\
  (getMethodAttributes ws m = None <->
   find_methodBlock (getAllBlocks ws) m None = None).
Proof.
  split; [apply getMethodAttributes_loop_rev|apply method_lookups_none].
Qed.

Lemma populateClasses_spec (classList : list string) (xmlList : list xml) :
  populateClasses classList xmlList
  = xmlList ++ map instance_template classList.
Proof.
  revert xmlList. induction classList as [|n l IH]; intros xmlList.
  - simpl. now rewrite app_nil_r.
  - cbn [populateClasses map]. rewrite IH. now rewrite <- app_assoc.
Qed.

(** X6: [flyoutCategory] lists the system blocks that are defined, in the
    order class, function with return, function without, constructor, and
    after them one template for each class of the workspace, in the order
    of [allUsedClasses]: a block element of the type [class_get_instance]
    whose one child is a mutation element with the name of the class; the
    gap of the last system block is 24, every other gap is 16. *)
Theorem flyoutCategory_lists (Blocks : string -> bool)
  (ws : workspace Foreign) :
  let xmlList := flyoutCategory Blocks ws in
  let k := system_blocks Blocks in
  length xmlList = k + length (allUsedClasses ws) /\
  skipn k xmlList
  = map (fun name =>
           Element "block" [("type", "class_get_instance"); ("gap", "16")]
                   [Element "mutation" [("name", name)] []])
        (allUsedClasses ws) /\
  map (getAttribute "type") (firstn k xmlList)
  = map Some (filter Blocks ["class_class"; "class_function_return";
                             "class_function_noreturn"; "class_constructor"]) /\
  forall i node,
    nth_error xmlList i = Some node ->
    getAttribute "gap" node = Some (if Nat.eqb (S i) k then "24" else "16").
Proof.
  intros xmlList k. subst xmlList k.
  unfold flyoutCategory, system_blocks. rewrite populateClasses_spec.
  generalize (allUsedClasses ws) as classes. intros classes.
  cbn [filter].
  destruct (Blocks "class_class"), (Blocks "class_function_return"),
    (Blocks "class_function_noreturn"), (Blocks "class_constructor");
    cbn [app length negb Nat.eqb widen_last];
    (split; [cbn [length]; now rewrite length_map|]);
    (split; [reflexivity|]);
    (split; [reflexivity|]);
    intros i node;
    do 4 (try (destruct i as [|i];
               [intros H; injection H as <-; reflexivity|]));
    cbn [nth_error app];
    intros H; apply nth_error_In in H; try apply in_map_iff in H;
    try (destruct H as (n & <- & _); reflexivity).
Qed.

End ClassQueries.

Lemma getClassByName_allUsedClasses_witness :
  getClassDef (mkClass "Car2" [] [] 0) = "Car2" /\
  ~ In "Bus" (allUsedClasses cars).
Proof.
  destruct (getClassByName_allUsedClasses cars "Car2") as (Hfound & _).
  destruct (getClassByName_allUsedClasses cars "Bus") as (_ & Hnone).
  split.
  - exact (proj1 (Hfound (mkClass "Car2" [] [] 0) eq_refl)).
  - apply Hnone. reflexivity.
Defined.

Lemma unique_class_members_witness :
  NoDup (allUsedClasses zoo_noreturn) /\
  getMethods zoo_noreturn "Animal" = ["speak"] /\
  getClassVariables zoo_noreturn "Animal" = ["age"].
Proof.
  assert (H : NoDup (allUsedClasses zoo_noreturn)).
  { vm_compute. constructor; [intros []|constructor]. }
  split; [exact H|].
  exact (unique_class_members zoo_noreturn "Animal"
           (mkClass "Animal" ["speak"] ["age"] 0) H eq_refl).
Defined.

Lemma method_lookups_witness :
  getMethodAttributes zoo_noreturn "speak" = Some ["a"; "b"] /\
  find_methodBlock (getAllBlocks zoo_noreturn) "fly" None = None.
Proof.
  destruct (method_lookups zoo_noreturn "speak") as (H & _).
  destruct (method_lookups zoo_noreturn "fly") as (_ & Hnone).
  split; [exact H|]. apply Hnone. reflexivity.
Defined.

Lemma flyoutCategory_lists_witness :
  length (flyoutCategory all_defined cars) = 4 + 2 /\
  skipn 4 (flyoutCategory all_defined cars)
  = [Element "block" [("type", "class_get_instance"); ("gap", "16")]
             [Element "mutation" [("name", "Car")] []];
     Element "block" [("type", "class_get_instance"); ("gap", "16")]
             [Element "mutation" [("name", "Car2")] []]] /\
  exists node,
    nth_error (flyoutCategory all_defined cars) 3 = Some node /\
    getAttribute "type" node = Some "class_constructor" /\
    getAttribute "gap" node = Some "24".
Proof.
  destruct (flyoutCategory_lists all_defined cars) as (Hlen & Hskip & _ & Hgap).
  split; [exact Hlen|]. split; [exact Hskip|].
  eexists. split; [reflexivity|]. split; [reflexivity|].
  exact (Hgap 3 _ eq_refl).
Defined.

(* ================================================================== *)
(** * Further properties: how a site is bound to its variable *)
(* ================================================================== *)

(** Projections of a site out of the assignments to its properties. *)
Ltac site_fields :=
  cbn [varType varTypeIsSet methods classVariables args argNames colourIsSet
       colour typeOfValue curValue isReturn inputList nextConnection
       previousConnection outputConnection calls
       set_varType set_varTypeIsSet set_methods set_classVariables set_args
       set_argNames set_colourIsSet set_colour set_typeOfValue set_curValue
       set_isReturn set_inputList set_nextConnection set_previousConnection
       set_outputConnection set_calls].

Lemma binding_setType (isReturn : bool) (this : site) :
  binding (setType isReturn this) = binding this.
Proof.
  rewrite setType_frame. unfold binding. site_fields. reflexivity.
Qed.

Lemma binding_reconcile_args (params : option (list string)) (this : site) :
  binding (reconcile_args params this) = binding this.
Proof.
  destruct (reconcile_args_frame params this) as (a & inputs & ->).
  reflexivity.
Qed.

Lemma getDropDown_rest {Foreign : Type} (main : workspace Foreign)
  (inFlyout : bool) (oldName newName : value) (this : site) :
  rest_of_site (getDropDown inFlyout main oldName newName this)
  = rest_of_site this.
Proof.
  unfold getDropDown, translate_curValue.
  destruct inFlyout; [reflexivity|].
  destruct (rebuilds _ _ _ _); [|reflexivity].
  destruct (negb _ || negb _); [|reflexivity].
  cbv zeta.
  repeat match goal with
         | |- context [if ?c then _ else _] => destruct c
         | |- context [match getInput ?a ?b with _ => _ end] =>
             destruct (getInput a b)
         end; reflexivity.
Qed.

Lemma getDropDown_binding {Foreign : Type} (main : workspace Foreign)
  (inFlyout : bool) (oldName newName : value) (this : site) :
  varType (getDropDown inFlyout main oldName newName this) = varType this /\
  varTypeIsSet (getDropDown inFlyout main oldName newName this)
  = varTypeIsSet this.
Proof.
  pose proof (getDropDown_rest main inFlyout oldName newName this) as H.
  unfold rest_of_site in H. injection H as -> -> _ _ _ _ _ _ _ _ _.
  split; reflexivity.
Qed.

Section Binding.

Context {Foreign : Type}.
Variables (ws main : workspace Foreign) (variableModel : VariableModel).

Lemma binding_onchange_method (m : string) (this : site) :
  binding (onchange_method ws m this) = binding this.
Proof.
  unfold onchange_method. rewrite binding_reconcile_args.
  destruct (find_methodBlock (getAllBlocks ws) m None) as [mb|].
  - change (binding (setType match isReturn_of mb with
                             | Some b => b
                             | None => false
                             end
                       (set_isReturn (isReturn_of mb)
                          (set_typeOfValue (Str "method") this)))
            = binding this).
    now rewrite binding_setType.
  - reflexivity.
Qed.

Lemma binding_onchange_attribute (v : value) (this : site) :
  binding (onchange_attribute v this) = binding this.
Proof.
  unfold onchange_attribute.
  destruct (removeArgs _ _ _) as [a inputs].
  change (binding (setType true (set_typeOfValue (Str "attribute") this))
          = binding this).
  now rewrite binding_setType.
Qed.

Lemma binding_onchange (inFlyout : bool) (this : site) :
  binding (onchange inFlyout ws main variableModel this)
  = variables_get_onchange inFlyout ws main variableModel (binding this).
Proof.
  unfold onchange.
  set (this2 := onchange_bind inFlyout ws variableModel
                  (onchange_colour main variableModel this)).
  assert (H2 : binding this2
               = variables_get_onchange inFlyout ws main variableModel
                   (binding this)).
  { subst this2. destruct this as [vt vs ? ? ? ? cs ? ? ? ? ? ? ? ? ?].
    unfold onchange_bind, onchange_colour, variables_get_onchange, binding.
    site_fields.
    cbn [getter_colourIsSet getter_varType getter_varTypeIsSet getter_colour].
    destruct cs, inFlyout, vs,
      (getClassByName main (var_type variableModel)),
      (getClassByName ws (var_type variableModel)),
      (typeSet variableModel); reflexivity. }
  rewrite <- H2.
  destruct (negb (String.eqb (varType this2) "") && varTypeIsSet this2);
    [|reflexivity].
  destruct (truthy_value _ && negb inFlyout && negb _).
  - apply binding_onchange_method.
  - apply binding_onchange_attribute.
Qed.

(** X7: seen through the four properties that bind it ([varType],
    [varTypeIsSet], [colourIsSet], the colour), [onchange] of an
    [object_variables_get] block is [onchange] of a [variables_get] block:
    what the site does to its selection, its inputs and its connections
    never reaches its binding. *)
Theorem site_binds_like_getter (inFlyout : bool) (this : site) :
  binding (onchange inFlyout ws main variableModel this)
  = variables_get_onchange inFlyout ws main variableModel (binding this).
Proof.
  apply binding_onchange.
Qed.

(** X8: the class of a finalized site is for good: neither [onchange],
    whatever the type of the variable has become, nor [update] nor
    [setType] changes [varType] or resets [varTypeIsSet]. *)
Theorem finalized_binding_is_kept (inFlyout isReturn : bool)
  (oldName newName : value) (this : site) :
  varTypeIsSet this = true ->
  (varType (onchange inFlyout ws main variableModel this) = varType this /\
   varTypeIsSet (onchange inFlyout ws main variableModel this) = true) /\
  (varType (update inFlyout main oldName newName this) = varType this /\
   varTypeIsSet (update inFlyout main oldName newName this) = true) /\
  (varType (setType isReturn this) = varType this /\
   varTypeIsSet (setType isReturn this) = true).
Proof.
  intros Hset. split; [|split].
  - pose proof (binding_onchange inFlyout this) as H.
    unfold variables_get_onchange, binding in H.
    cbn [getter_colourIsSet getter_varType getter_varTypeIsSet getter_colour]
      in H.
    rewrite Hset in H.
    destruct (colourIsSet this); cbn [negb] in H.
    + rewrite ?Hset, ?andb_false_r in H. injection H as -> -> _ _. now split.
    + destruct (getClassByName main (var_type variableModel));
        cbn [getter_varTypeIsSet] in H; rewrite ?Hset, andb_false_r in H;
        injection H as -> -> _ _; now split.
  - unfold update. rewrite Hset.
    destruct (getDropDown_binding main inFlyout oldName newName this)
      as (-> & ->). now split.
  - pose proof (binding_setType isReturn this) as H.
    injection H as -> -> _ _. now split.
Qed.

End Binding.

Section Lifecycle.

Context {Foreign : Type}.
Variable unplugs : string -> string -> bool.

Local Ltac setter_fields :=
  cbn [setInit VALUE setter_varType setter_colourIsSet setter_colour fst snd
       negb andb check value_target].

(** [onchange] of [variables_set] after its first part, which sets the
    colour: [this1] is the block then. *)
Lemma variables_set_onchange_unfold (inFlyout : bool)
  (ws main : workspace Foreign) (variableModel : VariableModel)
  (this : setter) :
  exists this1,
    setInit this1 = setInit this /\
    setter_varType this1 = setter_varType this /\
    VALUE this1 = VALUE this /\
    variables_set_onchange unplugs inFlyout ws main variableModel this
    = if negb inFlyout then
        let this2 :=
          if negb (setInit this1) then
            let varType := var_type variableModel in
            let a :=
              mkSetter (setInit this1) varType (setter_colourIsSet this1)
                       (setter_colour this1) (VALUE this1) in
            let b :=
              if negb (String.eqb varType "")
              then setCheck_VALUE unplugs varType a
              else a in
            let c :=
              match getClassByName ws varType with
              | Some classBlock =>
                  mkSetter (setInit b) (setter_varType b)
                           (setter_colourIsSet b)
                           (getColour classBlock) (VALUE b)
              | None => b
              end in
            mkSetter true (setter_varType c) (setter_colourIsSet c)
                     (setter_colour c) (VALUE c)
          else this1 in
        (this2,
         if getInputTargetBlock_VALUE this2
         then mkVariable (var_id variableModel) (var_name variableModel)
                         (var_type variableModel) true
         else variableModel)
      else (this1, variableModel).
Proof.
  exists (if negb (setter_colourIsSet this) then
            match getClassByName main (var_type variableModel) with
            | Some classBlock =>
                mkSetter (setInit this) (setter_varType this) true
                         (getColour classBlock) (VALUE this)
            | None => this
            end
          else this).
  repeat split;
    destruct (setter_colourIsSet this); cbn [negb]; try reflexivity;
    destruct (getClassByName main (var_type variableModel)); reflexivity.
Qed.

(** The variable after [onchange] of [variables_set]: marked as having a
    value when the block is on a workspace and a block is plugged into its
    input when [onchange] is through with the check, and otherwise as it
    was. *)
Lemma variables_set_onchange_variable (inFlyout : bool)
  (ws main : workspace Foreign) (variableModel : VariableModel)
  (this : setter) :
  snd (variables_set_onchange unplugs inFlyout ws main variableModel this)
  = if negb inFlyout
       && match VALUE this with
          | Some i =>
              match value_target i with
              | Some target =>
                  negb (negb (setInit this)
                        && negb (String.eqb (var_type variableModel) "")
                        && unplugs (var_type variableModel) target)
              | None => false
              end
          | None => false
          end
    then mkVariable (var_id variableModel) (var_name variableModel)
                    (var_type variableModel) true
    else variableModel.
Proof.
  destruct (variables_set_onchange_unfold inFlyout ws main variableModel this)
    as (this1 & Hi & _ & Hv & ->).
  destruct inFlyout; [reflexivity|]. cbv zeta.
  destruct this1 as [si1 vt1 cs1 col1 v1], this as [si vt cs col v].
  cbn [VALUE setInit] in Hv, Hi. subst v1 si1.
  unfold getInputTargetBlock_VALUE, setCheck_VALUE. setter_fields.
  destruct si, v as [[ck [tg|]]|],
    (getClassByName ws (var_type variableModel)),
    (String.eqb (var_type variableModel) ""); setter_fields;
    try reflexivity;
    destruct (unplugs (var_type variableModel) tg); reflexivity.
Qed.

(** X9: a value finalizes the sites of a variable: after [onchange] of a
    [variables_set] block on a workspace, with a block plugged into its
    input VALUE that the connection does not let go of when the block sets
    its check, the variable is marked ([typeSet]) and keeps its type, and
    the next [onchange] of a site of that variable that was not finalized,
    on a workspace, finalizes it with the type of the variable as its
    class. *)
Theorem value_finalizes_site (ws main ws' main' : workspace Foreign)
  (variableModel : VariableModel) (block : setter) (this : site)
  (i : value_input) (target : string) :
  let variableModel' :=
    snd (variables_set_onchange unplugs false ws main variableModel block) in
  let this' := onchange false ws' main' variableModel' this in
  VALUE block = Some i -> value_target i = Some target ->
  (setInit block = false -> var_type variableModel <> "" ->
   unplugs (var_type variableModel) target = false) ->
  varTypeIsSet this = false ->
  typeSet variableModel' = true /\
  var_type variableModel' = var_type variableModel /\
  varTypeIsSet this' = true /\ varType this' = var_type variableModel.
Proof.
  intros variableModel' this' Hinput Hplug Hkept Hunset.
  subst this' variableModel'.
  rewrite variables_set_onchange_variable, Hinput, Hplug. cbn [negb andb].
  assert (Hstays : negb (negb (setInit block)
                         && negb (String.eqb (var_type variableModel) "")
                         && unplugs (var_type variableModel) target) = true).
  { destruct (setInit block); [reflexivity|].
    destruct (String.eqb_spec (var_type variableModel) "") as [E|E];
      [reflexivity|]. cbn [negb andb]. now rewrite Hkept. }
  rewrite Hstays.
  split; [reflexivity|]. split; [reflexivity|].
  match goal with
  | |- context [onchange false ws' main' ?vm this] =>
      pose proof (binding_onchange ws' main' vm false this) as H
  end.
  unfold variables_get_onchange, binding in H.
  cbn [getter_colourIsSet getter_varType getter_varTypeIsSet getter_colour
       typeSet var_type negb andb] in H.
  destruct (colourIsSet this);
    [|destruct (getClassByName main' (var_type variableModel))];
    cbn [negb getter_varTypeIsSet getter_colourIsSet] in H;
    rewrite Hunset in H; cbn [negb] in H;
    injection H as -> -> _ _; split; reflexivity.
Qed.

(** X10: a [variables_set] block reads the type of its variable once: after
    one [onchange] on a workspace the block is initialised, and no later
    [onchange], whatever the type of the variable then, changes its
    [varType] or its input VALUE, the type it checks included. *)
Theorem variables_set_check_is_fixed (inFlyout : bool)
  (ws main ws' main' : workspace Foreign)
  (variableModel variableModel' : VariableModel) (block : setter) :
  let block1 :=
    fst (variables_set_onchange unplugs false ws main variableModel block) in
  let block2 :=
    fst (variables_set_onchange unplugs inFlyout ws' main' variableModel'
           block1) in
  setInit block1 = true /\
  setter_varType block2 = setter_varType block1 /\
  VALUE block2 = VALUE block1.
Proof.
  intros block1 block2.
  assert (H1 : setInit block1 = true).
  { subst block1.
    destruct (variables_set_onchange_unfold false ws main variableModel block)
      as (this1 & _ & _ & _ & ->).
    cbv zeta. setter_fields. now destruct (setInit this1) eqn:E. }
  split; [exact H1|]. subst block2. clearbody block1.
  destruct (variables_set_onchange_unfold inFlyout ws' main' variableModel'
              block1) as (this1 & Hi & Ht & Hv & ->).
  rewrite H1 in Hi.
  destruct inFlyout; cbv zeta; setter_fields; rewrite ?Hi; setter_fields;
    now split.
Qed.

End Lifecycle.

Lemma finalized_binding_is_kept_witness :
  varTypeIsSet speak_site = true /\
  var_type boat_rex = "Boat" /\
  varType (onchange false zoo_noreturn zoo_noreturn boat_rex speak_site)
  = varType speak_site /\
  varType speak_site = "Animal".
Proof.
  assert (H : varTypeIsSet speak_site = true) by (vm_compute; reflexivity).
  split; [exact H|]. split; [reflexivity|]. split.
  - exact (proj1 (proj1 (finalized_binding_is_kept zoo_noreturn zoo_noreturn
                           boat_rex false true Undefined Undefined
                           speak_site H))).
  - vm_compute. reflexivity.
Defined.

Lemma value_finalizes_site_witness :
  typeSet kit = false /\
  VALUE plugged_setter = Some (mkValueInput None (Some "n1")) /\
  varTypeIsSet (init "v2") = false /\
  (let kit' :=
     snd (variables_set_onchange never_unplugs false cat_only cat_only kit
            plugged_setter) in
   varTypeIsSet (onchange false cat_only cat_only kit' (init "v2")) = true /\
   varType (onchange false cat_only cat_only kit' (init "v2")) = "Cat").
Proof.
  pose proof (value_finalizes_site never_unplugs cat_only cat_only cat_only
                cat_only kit plugged_setter (init "v2")
                (mkValueInput None (Some "n1")) "n1" eq_refl eq_refl
                (fun _ _ => eq_refl) eq_refl) as H.
  cbv zeta in H. destruct H as (_ & _ & H1 & H2).
  repeat split; assumption.
Defined.

(* ================================================================== *)
(** * Further properties: the dropdown and the selection *)
(* ================================================================== *)

(** ** Moving an input keeps the inputs *)

Lemma removeInput_Permutation (name : string) (i : input) (l : list input) :
  getInput name l = Some i -> Permutation l (i :: removeInput name l).
Proof.
  induction l as [|j l IH]; [discriminate|].
  rewrite getInput_cons, removeInput_cons.
  destruct (String.eqb (input_name j) name).
  - intros H. injection H as ->. reflexivity.
  - intros H. rewrite perm_swap. constructor. now apply IH.
Qed.

Lemma insertBefore_Permutation (name : string) (i : input) (l : list input) :
  Permutation (insertBefore name i l) (i :: l).
Proof.
  induction l as [|j l IH]; [reflexivity|].
  rewrite insertBefore_cons.
  destruct (String.eqb (input_name j) name); [reflexivity|].
  rewrite perm_swap. now constructor.
Qed.

Lemma moveInputBefore_Permutation (name : string) (refName : option string)
  (l : list input) :
  Permutation (moveInputBefore name refName l) l.
Proof.
  unfold moveInputBefore.
  destruct (getInput name l) as [i|] eqn:E; [|reflexivity].
  apply removeInput_Permutation in E.
  destruct refName as [r|].
  - destruct (String.eqb name r); [reflexivity|].
    rewrite insertBefore_Permutation. now symmetry.
  - rewrite Permutation_app_comm. now symmetry.
Qed.

(** ** The value of a field that one input only carries *)

Lemma getFieldValue_Null (name : string) (l : list input) :
  getFieldValue name l = Null <->
  forall i, In i l -> row_value name (fieldRow i) = None.
Proof.
  induction l as [|j l IH]; cbn [getFieldValue].
  - split; [intros _ i []|reflexivity].
  - destruct (row_value name (fieldRow j)) eqn:E.
    + split; [discriminate|]. intros H.
      specialize (H j (or_introl eq_refl)). congruence.
    + rewrite IH. split.
      * intros H i [<-|Hin]; [exact E|now apply H].
      * intros H i Hin. apply H. now right.
Qed.

Lemma getFieldValue_only (name v : string) (d : input) (l : list input) :
  In d l -> row_value name (fieldRow d) = Some v ->
  (forall i, In i l -> i = d \/ row_value name (fieldRow i) = None) ->
  getFieldValue name l = Str v.
Proof.
  induction l as [|j l IH]; [intros []|].
  intros Hin Hd Hall. cbn [getFieldValue].
  destruct (Hall j (or_introl eq_refl)) as [->|Hj].
  - now rewrite Hd.
  - rewrite Hj. destruct Hin as [->|Hin]; [congruence|].
    apply IH; [exact Hin|exact Hd|].
    intros i Hi. apply Hall. now right.
Qed.

Lemma getFieldValue_moved (name v : string) (d : input) (l l' : list input) :
  getFieldValue name l = Null ->
  row_value name (fieldRow d) = Some v ->
  Permutation l' (l ++ [d]) ->
  getFieldValue name l' = Str v.
Proof.
  intros Hl Hd Hp. apply (getFieldValue_only name v d).
  - apply Permutation_in with (l := l ++ [d]); [now symmetry|].
    apply in_or_app. right. now left.
  - exact Hd.
  - intros i Hi. apply (Permutation_in _ Hp) in Hi.
    apply in_app_or in Hi as [Hi|[<-|[]]]; [right|now left].
    rewrite getFieldValue_Null in Hl. now apply Hl.
Qed.

Lemma row_value_dropdown (options : list (string * string)) :
  row_value "METHODS" [dropdown options]
  = Some match options with
         | (_, v) :: _ => v
         | [] => ""
         end.
Proof. reflexivity. Qed.

(** ** The options after the selection was cleared: every attribute, then
    every method *)

Lemma attribute_options_cleared (cv : list string) :
  attribute_options cv (Str "") (Str "") = map (fun v => (v, v)) cv.
Proof.
  unfold attribute_options. induction cv as [|v cv IH]; [reflexivity|].
  cbn [flat_map map]. rewrite IH.
  replace (loose_eq (Str "") (Str "attribute")) with false by reflexivity.
  now rewrite andb_false_r.
Qed.

Lemma method_options_cleared (names : list value) (ms : list string) :
  length names = length ms ->
  method_options names ms (Str "") (Str "")
  = map (fun m => ((m ++ "()")%string, m)) ms.
Proof.
  revert ms. induction names as [|n names IH]; intros [|m ms] Hlen;
    try discriminate; [reflexivity|].
  cbn [method_options map]. rewrite IH by (simpl in Hlen; lia).
  replace (loose_eq (Str "") (Str "method")) with false by reflexivity.
  now rewrite andb_false_r.
Qed.

Lemma inputList_translate (oldName newName : value) (this : site) :
  inputList (translate_curValue oldName newName this) = inputList this.
Proof.
  unfold translate_curValue. now destruct (loose_eq _ _).
Qed.

Section Selection.

Context {Foreign : Type}.
Variables (ws main : workspace Foreign) (variableModel : VariableModel).

(** [onchange] of a finalized site adopts the value the dropdown shows. *)
Lemma curValue_onchange_method (m : string) (this : site) :
  curValue (onchange_method ws m this) = Str m.
Proof.
  unfold onchange_method.
  destruct (reconcile_args_frame (getMethodAttributes ws m)
              (set_curValue (Str m)
                 match find_methodBlock (getAllBlocks ws) m None with
                 | Some methodBlock =>
                     setType match isReturn_of methodBlock with
                             | Some b => b
                             | None => false
                             end
                       (set_isReturn (isReturn_of methodBlock)
                          (set_typeOfValue (Str "method") this))
                 | None => set_typeOfValue (Str "method") this
                 end)) as (a & inputs & ->).
  reflexivity.
Qed.

Lemma curValue_onchange_attribute (v : value) (this : site) :
  curValue (onchange_attribute v this) = v.
Proof.
  unfold onchange_attribute.
  destruct (removeArgs _ _ _) as [a inputs]. reflexivity.
Qed.

Lemma onchange_adopts_field (this : site) :
  varType this <> "" -> varTypeIsSet this = true ->
  curValue (onchange false ws main variableModel this)
  = getFieldValue "METHODS" (inputList this).
Proof.
  intros Hvt Hset. unfold onchange.
  destruct (onchange_colour_frame main variableModel this) as (c & b & ->).
  unfold onchange_bind. site_fields. rewrite Hset. cbn [negb andb].
  site_fields. rewrite Hset.
  apply String.eqb_neq in Hvt. rewrite Hvt. cbn [negb andb].
  destruct (truthy_value (getFieldValue "METHODS" (inputList this))) eqn:Et;
    cbn [andb negb].
  - destruct (includes (classVariables this) _); cbn [negb].
    + apply curValue_onchange_attribute.
    + rewrite curValue_onchange_method.
      destruct (getFieldValue "METHODS" (inputList this)); try discriminate.
      reflexivity.
  - apply curValue_onchange_attribute.
Qed.

(** The inputs and the options of the dropdown after [getDropDown] has
    rebuilt it. *)
Lemma getDropDown_rebuilt (oldName newName : value) (this : site) :
  let methods_ := fetch_methods main this in
  let classVariables_ := fetch_classVariables main this in
  let selected := curValue (translate_curValue oldName newName this) in
  let this' := getDropDown false main oldName newName this in
  rebuilds oldName methods_ classVariables_ this = true ->
  methods_ <> [] \/ classVariables_ <> [] ->
  exists options,
    Permutation (inputList this')
      (removeInput "Data" (inputList this)
       ++ [mkInput "Data" DUMMY_INPUT [dropdown options] None]) /\
    (forall c, curValue this' = Str c -> JS.truthy c = true ->
               exists label rest, options = (label, c) :: rest) /\
    (includes_value (methodNames_of oldName newName methods_) selected = false ->
     includes classVariables_ selected = false ->
     curValue this' = Str "" /\
     options = map (fun v => (v, v)) classVariables_
               ++ map (fun m => ((m ++ "()")%string, m)) methods_).
Proof.
  intros methods_ classVariables_ selected this' Hreb Hne.
  subst this'. unfold getDropDown.
  fold methods_ classVariables_. rewrite Hreb.
  rewrite (nonempty_length _ _ Hne). cbv zeta.
  set (this1 := set_classVariables classVariables_
                  (set_methods methods_
                     (set_inputList (removeInput "Data" (inputList this))
                        this))).
  assert (Hsel : curValue (translate_curValue oldName newName this1)
                 = selected)
    by (apply curValue_translate; reflexivity).
  assert (Hin : inputList (translate_curValue oldName newName this1)
                = removeInput "Data" (inputList this))
    by (now rewrite inputList_translate).
  set (this2 := translate_curValue oldName newName this1) in *.
  clearbody this2. clear this1.
  set (names := methodNames_of oldName newName methods_).
  destruct (negb (includes_value names (curValue this2))
            && negb (includes classVariables_ (curValue this2))) eqn:Ec.
  - site_fields. cbn [truthy_value JS.truthy app]. site_fields.
    eexists. split; [|split].
    + rewrite Hin.
      match goal with
      | |- context [match getInput ?a ?b with _ => _ end] =>
          destruct (getInput a b)
      end; [apply moveInputBefore_Permutation|reflexivity].
    + intros c H. injection H as <-. discriminate.
    + intros _ _. split; [reflexivity|].
      rewrite attribute_options_cleared, method_options_cleared;
        [reflexivity|]. unfold names, methodNames_of. apply length_map.
  - destruct (truthy_value (curValue this2)) eqn:Et.
    + destruct (curValue this2) as [| |c] eqn:Ecur; try discriminate.
      cbn [truthy_value] in Et. rewrite Et.
      destruct (includes classVariables_ (Str c)) eqn:Ei; site_fields;
        rewrite ?Ecur;
        (eexists; split; [|split];
         [rewrite Hin;
          match goal with
          | |- context [match getInput ?a ?b with _ => _ end] =>
              destruct (getInput a b)
          end; [apply moveInputBefore_Permutation|reflexivity]
         |intros c' H _; injection H as <-; eexists; eexists; reflexivity
         |intros H1 H2; rewrite <- Hsel in H1, H2; rewrite H1 in Ec;
          rewrite Ei in H2; first [discriminate H2|discriminate Ec]]).
    + site_fields. eexists. split; [|split].
      * rewrite Hin.
        match goal with
        | |- context [match getInput ?a ?b with _ => _ end] =>
            destruct (getInput a b)
        end; [apply moveInputBefore_Permutation|reflexivity].
      * intros c H Hc. rewrite H in Et. cbn [truthy_value] in Et. congruence.
      * intros H1 H2. rewrite <- Hsel in H1, H2. rewrite H1, H2 in Ec.
        discriminate.
Qed.


(** X12: a selection that is no member any more is replaced, not only
    cleared: when [update] rebuilds the dropdown of such a site, the current
    value becomes the empty string, and the next [onchange] makes the first
    attribute of the class, or its first method when it has no attribute,
    the current value. *)
Theorem cleared_selection_is_replaced (oldName newName : value)
  (this : site) :
  let methods_ := fetch_methods main this in
  let classVariables_ := fetch_classVariables main this in
  let selected := curValue (translate_curValue oldName newName this) in
  let this' := update false main oldName newName this in
  varType this <> "" -> varTypeIsSet this = true ->
  rebuilds oldName methods_ classVariables_ this = true ->
  methods_ <> [] \/ classVariables_ <> [] ->
  getFieldValue "METHODS" (removeInput "Data" (inputList this)) = Null ->
  includes_value (methodNames_of oldName newName methods_) selected = false ->
  includes classVariables_ selected = false ->
  curValue this' = Str "" /\
  curValue (onchange false ws main variableModel this')
  = Str (hd "" (classVariables_ ++ methods_)).
Proof.
  intros methods_ classVariables_ selected this' Hvt Hset Hreb Hne Hfield
    Hm Hv.
  subst this'. unfold update. rewrite Hset.
  destruct (getDropDown_binding main false oldName newName this)
    as (Hvt' & Hset').
  destruct (getDropDown_rebuilt oldName newName this Hreb Hne)
    as (options & Hperm & _ & Hcleared).
  destruct (Hcleared Hm Hv) as (Hcur & ->).
  split; [exact Hcur|].
  rewrite onchange_adopts_field by congruence.
  refine (getFieldValue_moved _ _ _ _ _ Hfield _ Hperm).
  cbn [fieldRow]. rewrite row_value_dropdown. f_equal.
  subst classVariables_ methods_.
  destruct (fetch_classVariables main this) as [|v cv]; [|reflexivity].
  destruct (fetch_methods main this) as [|m ms]; reflexivity.
Qed.

Lemma fetch_methods_binding (s1 s2 : site) :
  varType s1 = varType s2 -> varTypeIsSet s1 = varTypeIsSet s2 ->
  fetch_methods main s1 = fetch_methods main s2 /\
  fetch_classVariables main s1 = fetch_classVariables main s2.
Proof.
  intros H1 H2. unfold fetch_methods, fetch_classVariables, getClassName.
  now rewrite H1, H2.
Qed.

Lemma getDropDown_members (oldName newName : value) (this : site) :
  rebuilds oldName (fetch_methods main this) (fetch_classVariables main this)
    this = true ->
  methods (getDropDown false main oldName newName this)
  = fetch_methods main this /\
  classVariables (getDropDown false main oldName newName this)
  = fetch_classVariables main this.
Proof.
  intros Hreb. unfold getDropDown, translate_curValue. rewrite Hreb.
  destruct (negb _ || negb _); [|split; reflexivity].
  cbv zeta.
  repeat match goal with
         | |- context [if ?c then _ else _] => destruct c
         | |- context [match getInput ?a ?b with _ => _ end] =>
             destruct (getInput a b)
         end; split; reflexivity.
Qed.

Lemma update_update (inFlyout : bool) (oldName newName : value)
  (this : site) :
  update inFlyout main Undefined Undefined
    (update inFlyout main oldName newName this)
  = update inFlyout main oldName newName this.
Proof.
  unfold update. destruct (varTypeIsSet this) eqn:Hset;
    [|now rewrite Hset].
  destruct (getDropDown_binding main inFlyout oldName newName this)
    as (Hvt' & Hset').
  rewrite Hset', Hset.
  destruct inFlyout; [reflexivity|].
  set (this' := getDropDown false main oldName newName this) in *.
  destruct (fetch_methods_binding this' this Hvt' Hset') as (Hm & Hv).
  assert (Hno : rebuilds Undefined (fetch_methods main this')
                  (fetch_classVariables main this') this' = false).
  { rewrite Hm, Hv. unfold rebuilds. cbn [truthy_value orb].
    rewrite orb_false_r.
    destruct (rebuilds oldName (fetch_methods main this)
                (fetch_classVariables main this) this) eqn:Hreb.
    - destruct (getDropDown_members oldName newName this Hreb) as (H1 & H2).
      fold this' in H1, H2. rewrite H1, H2.
      now rewrite !Nat.eqb_refl.
    - subst this'. unfold getDropDown. rewrite Hreb.
      unfold rebuilds in Hreb.
      apply orb_false_iff in Hreb as (Hreb & ->).
      apply orb_false_iff in Hreb as (-> & _). reflexivity. }
  unfold getDropDown at 1. now rewrite Hno.
Qed.

(** X13: [update] settles the member lists of a finalized site on a
    workspace: when it rebuilds the dropdown (the number of methods or of
    attributes differs from that of the class, or an old name is passed),
    the site lists the methods and the attributes of the class afterwards;
    when it does not, the site is left as it is, also when the class has
    other members in the same numbers; in both cases the site lists as many
    methods and attributes as the class has.  A second [update] with no
    old name, in a flyout or not, then changes nothing. *)
Theorem update_settles_members (inFlyout : bool) (oldName newName : value)
  (this : site) :
  let methods_ := fetch_methods main this in
  let classVariables_ := fetch_classVariables main this in
  let this' := update false main oldName newName this in
  (varTypeIsSet this = true ->
   rebuilds oldName methods_ classVariables_ this = true ->
   methods this' = methods_ /\ classVariables this' = classVariables_) /\
  (rebuilds oldName methods_ classVariables_ this = false -> this' = this) /\
  (varTypeIsSet this = true ->
   length (methods this') = length methods_ /\
   length (classVariables this') = length classVariables_) /\
  update inFlyout main Undefined Undefined
    (update inFlyout main oldName newName this)
  = update inFlyout main oldName newName this.
Proof.
  intros methods_ classVariables_ this'. subst this'.
  assert (Hskip : rebuilds oldName methods_ classVariables_ this = false ->
                  update false main oldName newName this = this).
  { intros Hreb. unfold update, getDropDown.
    fold methods_ classVariables_. rewrite Hreb.
    now destruct (varTypeIsSet this). }
  assert (Hlists : varTypeIsSet this = true ->
                   rebuilds oldName methods_ classVariables_ this = true ->
                   methods (update false main oldName newName this) = methods_ /\
                   classVariables (update false main oldName newName this)
                   = classVariables_).
  { intros Hset Hreb. unfold update. rewrite Hset.
    now apply getDropDown_members. }
  split; [exact Hlists|]. split; [exact Hskip|].
  split; [|apply update_update].
  intros Hset.
  destruct (rebuilds oldName methods_ classVariables_ this) eqn:Hreb.
  - destruct (Hlists Hset eq_refl) as (-> & ->). now split.
  - rewrite (Hskip eq_refl). unfold rebuilds in Hreb.
    apply orb_false_iff in Hreb as (Hreb & Hv).
    apply orb_false_iff in Hreb as (Hm & _).
    apply negb_false_iff, Nat.eqb_eq in Hm, Hv. now split.
Qed.

(** X14: when the dropdown of a finalized site shows an attribute or
    nothing, or the site is in a flyout, [onchange] removes every value
    input and leaves the inputs before them, sets the number of arguments
    to 0 and the kind of the value to "attribute", makes what the dropdown
    shows the current value, gives the site the shape of an expression, and
    keeps the recorded names of the parameters. *)
Theorem onchange_attribute_removes_inputs (inFlyout : bool) (this : site)
  (front : list input) (slots : list (string * option string))
  (names : list string) :
  let selected := getFieldValue "METHODS" (inputList this) in
  let this' := onchange inFlyout ws main variableModel this in
  varType this <> "" -> varTypeIsSet this = true ->
  truthy_value selected && negb inFlyout
  && negb (includes (classVariables this) selected) = false ->
  has_arguments this front slots names ->
  inputList this' = front /\ args this' = 0 /\
  argNames this' = Some names /\
  typeOfValue this' = Str "attribute" /\ curValue this' = selected /\
  outputConnection this' <> None /\
  previousConnection this' = None /\ nextConnection this' = None.
Proof.
  intros selected this' Hvt Hset Hbranch (Hin & Hfree & Hargs & Hnames & _).
  subst this' selected. unfold onchange.
  destruct (onchange_colour_frame main variableModel this) as (c & b & ->).
  unfold onchange_bind. site_fields. rewrite Hset, andb_false_r. site_fields.
  rewrite Hset. pose proof Hvt as Hvt'. apply String.eqb_neq in Hvt'.
  rewrite Hvt'. cbn [negb andb]. rewrite Hbranch.
  unfold onchange_attribute.
  set (this1 := set_typeOfValue (Str "attribute")
                  (set_colourIsSet b (set_colour c this))).
  destruct (setType_expression this1 Hvt Hset) as (Hn & Hp & Ho & _).
  rewrite (setType_frame true this1). subst this1. site_fields.
  rewrite Hargs, Hin, (removeArgs_slots front Hfree slots 0) by lia.
  site_fields. cbn [firstn argInputs]. rewrite app_nil_r.
  repeat split; try assumption.
  rewrite Ho. apply ensure_some.
Qed.

End Selection.

Section Cleared.

Context {Foreign : Type}.
Variable main : workspace Foreign.

Lemma In_removeInput (name : string) (i : input) (l : list input) :
  In i l -> input_name i <> name -> In i (removeInput name l).
Proof.
  intros Hin Hname. induction l as [|j l IH]; [contradiction|].
  rewrite removeInput_cons.
  destruct (String.eqb_spec (input_name j) name) as [E|E].
  - destruct Hin as [->|Hin]; [contradiction|exact Hin].
  - destruct Hin as [->|Hin]; [now left|right; now apply IH].
Qed.

(** A refresh keeps the inputs of the site other than its dropdown. *)
Lemma getDropDown_keeps_inputs (inFlyout : bool) (oldName newName : value)
  (this : site) (i : input) :
  In i (inputList this) -> input_name i <> "Data" ->
  In i (inputList (getDropDown inFlyout main oldName newName this)).
Proof.
  intros Hin Hname. destruct inFlyout; [exact Hin|].
  destruct (rebuilds oldName (fetch_methods main this)
              (fetch_classVariables main this) this) eqn:Hreb;
    [|unfold getDropDown; now rewrite Hreb].
  pose proof (In_removeInput "Data" i _ Hin Hname) as Hkept.
  pose proof (getDropDown_rebuilt main oldName newName this) as Hshape.
  cbv zeta in Hshape.
  destruct (fetch_methods main this) as [|m ms] eqn:Em;
    [destruct (fetch_classVariables main this) as [|v cv] eqn:Ev|].
  - unfold getDropDown. rewrite Em, Ev, Hreb. exact Hkept.
  - destruct (Hshape Hreb) as (options & Hperm & _); [right; discriminate|].
    apply (Permutation_in _ (Permutation_sym Hperm)).
    apply in_or_app. now left.
  - destruct (Hshape Hreb) as (options & Hperm & _); [left; discriminate|].
    apply (Permutation_in _ (Permutation_sym Hperm)).
    apply in_or_app. now left.
Qed.

(** The kind of the value after the refresh has cleared the selection. *)
Lemma getDropDown_cleared_kind (oldName newName : value) (this : site) :
  let methods_ := fetch_methods main this in
  let classVariables_ := fetch_classVariables main this in
  let selected := curValue (translate_curValue oldName newName this) in
  rebuilds oldName methods_ classVariables_ this = true ->
  methods_ <> [] \/ classVariables_ <> [] ->
  includes_value (methodNames_of oldName newName methods_) selected = false ->
  includes classVariables_ selected = false ->
  typeOfValue (getDropDown false main oldName newName this) = Str "".
Proof.
  intros methods_ classVariables_ selected Hre Hmem Hm Hv.
  assert (Hsel : forall s1, curValue s1 = curValue this ->
            curValue (translate_curValue oldName newName s1) = selected).
  { intros s1 E. now apply curValue_translate. }
  unfold getDropDown. fold methods_ classVariables_.
  rewrite Hre, (nonempty_length _ _ Hmem). cbv zeta.
  set (this1 := set_classVariables classVariables_
                  (set_methods methods_
                     (set_inputList (removeInput "Data" (inputList this))
                        this))).
  rewrite (Hsel this1 eq_refl), Hm, Hv. reflexivity.
Qed.

(** C8 (amended): when a refresh outside a flyout rebuilds the dropdown
    (the number of methods or of attributes has changed, or an old name is
    passed) and the class has a method or an attribute, a selected member
    that, after the renaming, is neither among the names of the methods nor
    among the attributes is cleared: [curValue] and [typeOfValue] become
    the empty string and no other member is stored in their place; the
    dropdown that replaces the old one offers every attribute and then
    every method, and its field, when it is the only field METHODS of the
    site, shows the first of them.  A refresh that is skipped, in a flyout
    or because neither number has changed and no old name is passed,
    leaves the site as it is.  The block is kept by every refresh: nothing
    of the site but its member lists, its selection and its inputs
    changes, and every input other than the dropdown stays. *)
Theorem getDropDown_clears_selection (inFlyout : bool)
  (oldName newName : value) (this : site) :
  let methods_ := fetch_methods main this in
  let classVariables_ := fetch_classVariables main this in
  let selected := curValue (translate_curValue oldName newName this) in
  let this' := getDropDown inFlyout main oldName newName this in
  (inFlyout = false ->
   rebuilds oldName methods_ classVariables_ this = true ->
   methods_ <> [] \/ classVariables_ <> [] ->
   includes_value (methodNames_of oldName newName methods_) selected = false ->
   includes classVariables_ selected = false ->
   curValue this' = Str "" /\ typeOfValue this' = Str "" /\
   Permutation (inputList this')
     (removeInput "Data" (inputList this)
      ++ [mkInput "Data" DUMMY_INPUT
            [dropdown (map (fun v => (v, v)) classVariables_
                       ++ map (fun m => ((m ++ "()")%string, m)) methods_)]
            None]) /\
   (getFieldValue "METHODS" (removeInput "Data" (inputList this)) = Null ->
    getFieldValue "METHODS" (inputList this')
    = Str (hd "" (classVariables_ ++ methods_)))) /\
  (inFlyout = true \/ rebuilds oldName methods_ classVariables_ this = false ->
   this' = this) /\
  rest_of_site this' = rest_of_site this /\
  (forall i, In i (inputList this) -> input_name i <> "Data" ->
             In i (inputList this')).
Proof.
  intros methods_ classVariables_ selected this'. subst this'.
  split; [|split; [|split]].
  - intros -> Hreb Hne Hm Hv.
    destruct (getDropDown_rebuilt main oldName newName this Hreb Hne)
      as (options & Hperm & _ & Hcleared).
    destruct (Hcleared Hm Hv) as (Hcur & ->).
    split; [exact Hcur|].
    split; [now apply getDropDown_cleared_kind|].
    split; [exact Hperm|].
    intros Hfield.
    refine (getFieldValue_moved _ _ _ _ _ Hfield _ Hperm).
    cbn [fieldRow]. rewrite row_value_dropdown. f_equal.
    subst classVariables_ methods_.
    destruct (fetch_classVariables main this) as [|v cv]; [|reflexivity].
    destruct (fetch_methods main this) as [|m ms]; reflexivity.
  - intros [->|Hreb]; [reflexivity|].
    unfold getDropDown. fold methods_ classVariables_. rewrite Hreb.
    now destruct inFlyout.
  - apply getDropDown_rest.
  - intros i. apply getDropDown_keeps_inputs.
Qed.

End Cleared.

Section Callers.

Variable Names_equals : string -> string -> bool.
Context {Foreign : Type}.
Variable foreign_getClassName : Foreign -> option string.
Variable foreign_update : Foreign -> Foreign.
Variable main : workspace Foreign.

Local Abbreviation is_caller' := (is_caller Names_equals foreign_getClassName).

(** X15: [mutateCallers] keeps the variables, the number and the order of
    the blocks, and the identity of each block; it leaves every class
    block and every method block as it is, and every site that is not
    finalized, whose class name is empty or is not the name of the class;
    in a site it updates it changes nothing but the member lists, the
    selection and the inputs. *)
Theorem mutateCallers_frame (c : class_def) (ws : workspace Foreign) :
  let ws' :=
    mutateCallers Names_equals foreign_getClassName foreign_update main c ws in
  variableMap ws' = variableMap ws /\
  length (getAllBlocks ws') = length (getAllBlocks ws) /\
  forall i b,
    nth_error (getAllBlocks ws) i = Some b ->
    exists b',
      nth_error (getAllBlocks ws') i = Some b' /\
      id b' = id b /\ isInFlyout b' = isInFlyout b /\
      match body b with
      | ClassB _ | MethodB _ => b' = b
      | SiteB s =>
          exists s', body b' = SiteB s' /\
                     rest_of_site s' = rest_of_site s /\
                     (getClassName s = None \/ getClassName s = Some "" \/
                      is_caller' (getClassDef c) b = false -> b' = b)
      | ForeignB _ => is_caller' (getClassDef c) b = false -> b' = b
      end.
Proof.
  intros ws'. subst ws'. unfold mutateCallers. cbn [variableMap getAllBlocks].
  split; [reflexivity|]. split; [apply length_map|].
  intros i b Hb. eexists. split; [exact (map_nth_error _ _ _ Hb)|].
  unfold is_caller, block_update.
  destruct (body b) as [c'|m|s|f] eqn:Eb.
  - repeat split.
  - repeat split.
  - destruct (getClassName s) as [cn|] eqn:Ecn.
    + destruct (JS.truthy cn && Names_equals cn (getClassDef c)) eqn:Ecall.
      * rewrite ?Eb. cbn [id isInFlyout with_body body].
        repeat split. eexists. split; [reflexivity|].
        split.
        -- unfold update. destruct (varTypeIsSet s); [|reflexivity].
           apply getDropDown_rest.
        -- intros [H|[H|H]]; try discriminate.
           injection H as ->. discriminate.
      * repeat split. exists s. repeat split; assumption.
    + repeat split. exists s. repeat split; assumption.
  - destruct (foreign_getClassName f) as [cn|].
    + destruct (JS.truthy cn && Names_equals cn (getClassDef c)).
      * rewrite ?Eb. cbn [id isInFlyout with_body body].
        repeat split. discriminate.
      * repeat split.
    + repeat split.
Qed.

End Callers.

Lemma getDropDown_clears_selection_witness :
  rebuilds Undefined (fetch_methods zoo_walk speak_site)
    (fetch_classVariables zoo_walk speak_site) speak_site = true /\
  curValue speak_site = Str "speak" /\
  (let this' := getDropDown false zoo_walk Undefined Undefined speak_site in
   curValue this' = Str "" /\ typeOfValue this' = Str "" /\
   getFieldValue "METHODS" (inputList this') = Str "age").
Proof.
  split; [reflexivity|]. split; [reflexivity|].
  pose proof (getDropDown_clears_selection zoo_walk false Undefined Undefined
                speak_site) as H.
  cbv zeta in H. destruct H as (H & _).
  destruct H as (H1 & H2 & _ & H3); try reflexivity.
  - left. vm_compute. discriminate.
  - split; [exact H1|]. split; [exact H2|]. apply H3. reflexivity.
Defined.

(** C8, as stated, fails when the refresh is skipped: the class has as many
    methods and attributes as the site lists, so that nothing is rebuilt,
    and the site keeps "speak" as its selection although the class has
    neither a method nor an attribute of that name. *)
Lemma getDropDown_keeps_selection :
  curValue speak_site = Str "speak" /\
  fetch_methods zoo_swap speak_site = ["walk"] /\
  fetch_classVariables zoo_swap speak_site = ["legs"] /\
  includes_value (methodNames_of Undefined Undefined ["walk"]) (Str "speak")
  = false /\
  includes ["legs"] (Str "speak") = false /\
  curValue (getDropDown false zoo_swap Undefined Undefined speak_site)
  = Str "speak" /\
  typeOfValue (getDropDown false zoo_swap Undefined Undefined speak_site)
  = Str "method".
Proof. vm_compute. repeat split. Qed.

(** When the class has no member left, the refresh removes the dropdown
    and leaves the selection. *)
Lemma getDropDown_empty_class :
  curValue speak_site = Str "speak" /\
  fetch_methods zoo_empty speak_site = [] /\
  fetch_classVariables zoo_empty speak_site = [] /\
  curValue (getDropDown false zoo_empty Undefined Undefined speak_site) = Str "speak" /\
  typeOfValue (getDropDown false zoo_empty Undefined Undefined speak_site)
  = Str "method".
Proof. repeat split. Qed.

Lemma update_settles_members_witness :
  varTypeIsSet speak_site = true /\
  methods speak_site = ["speak"] /\
  methods (update false zoo_more Undefined Undefined speak_site)
  = ["speak"; "walk"] /\
  update false zoo_swap Undefined Undefined speak_site = speak_site.
Proof.
  assert (Hset : varTypeIsSet speak_site = true) by (vm_compute; reflexivity).
  destruct (update_settles_members zoo_more false Undefined Undefined
              speak_site) as (Hlists & _).
  destruct (update_settles_members zoo_swap false Undefined Undefined
              speak_site) as (_ & Hskip & _).
  split; [exact Hset|]. split; [vm_compute; reflexivity|].
  split.
  - exact (proj1 (Hlists Hset eq_refl)).
  - apply Hskip. vm_compute. reflexivity.
Defined.


Lemma cleared_selection_is_replaced_witness :
  curValue speak_site = Str "speak" /\
  fetch_methods zoo_walk speak_site = ["walk"; "run"] /\
  fetch_classVariables zoo_walk speak_site = ["age"] /\
  (let this' := update false zoo_walk Undefined Undefined speak_site in
   curValue this' = Str "" /\
   curValue (onchange false zoo_walk zoo_walk rex this') = Str "age").
Proof.
  assert (Hvt : varType speak_site <> "") by (vm_compute; discriminate).
  pose proof (cleared_selection_is_replaced zoo_walk zoo_walk rex Undefined
                Undefined speak_site) as H.
  cbv zeta in H. destruct H as (H1 & H2); try assumption;
    try (vm_compute; reflexivity).
  - left. vm_compute. discriminate.
  - split; [vm_compute; reflexivity|]. split; [vm_compute; reflexivity|].
    split; [vm_compute; reflexivity|]. split; [exact H1|exact H2].
Defined.

Lemma onchange_attribute_removes_inputs_witness :
  getFieldValue "METHODS" (inputList aged_site) = Str "age" /\
  args aged_site = 2 /\
  (let this' := onchange false zoo_noreturn zoo_noreturn rex aged_site in
   inputList this' = aged_front /\ args this' = 0 /\
   argNames this' = Some ["a"; "b"] /\
   typeOfValue this' = Str "attribute").
Proof.
  assert (Hvt : varType aged_site <> "") by (vm_compute; discriminate).
  pose proof (onchange_attribute_removes_inputs zoo_noreturn zoo_noreturn rex
                false aged_site aged_front
                [("a", Some "x1"); ("b", Some "x2")] ["a"; "b"]) as H.
  cbv zeta in H.
  destruct H as (H1 & H2 & H3 & H4 & _); try assumption;
    try (vm_compute; reflexivity).
  - repeat split.
  - split; [vm_compute; reflexivity|]. split; [vm_compute; reflexivity|].
    repeat split; assumption.
Defined.

Lemma mutateCallers_frame_witness :
  let ws := zoo_with speak_site "class_function_noreturn" ["a"; "b"] in
  let ws' := mutateCallers exact_names no_foreign_name no_foreign0 zoo_walk
               (mkClass "Animal" ["walk"; "run"] ["age"] 0) ws in
  exists b',
    nth_error (getAllBlocks ws') 1 = Some b' /\
    b' = speak "class_function_noreturn" ["a"; "b"].
Proof.
  cbv zeta.
  destruct (mutateCallers_frame exact_names no_foreign_name no_foreign0
              zoo_walk (mkClass "Animal" ["walk"; "run"] ["age"] 0)
              (zoo_with speak_site "class_function_noreturn" ["a"; "b"]))
    as (_ & _ & H).
  destruct (H 1 (speak "class_function_noreturn" ["a"; "b"]) eq_refl)
    as (b' & Hb' & _ & _ & Hsame).
  exists b'. split; [exact Hb'|exact Hsame].
Defined.

(* ================================================================== *)
(** * Further properties: renames and names *)
(* ================================================================== *)

Section Frames.

Variable Names_equals : string -> string -> bool.
Context {Foreign : Type}.
Variable foreign_renameClass : Foreign -> string -> string -> Foreign.
Variable foreign_setOldName : Foreign -> string -> Foreign.
Variable foreign_renameProcedure : Foreign -> string -> string -> Foreign.
Variable renameScope :
  list VariableModel -> string -> string -> list VariableModel.

(** X16: [renameClass] keeps the number, the order and the identity of the
    blocks; it leaves every class block and every method block as it is,
    the block of the renamed class included, and in a site it changes
    nothing or [varType] only, which becomes the legal name. *)
Theorem renameClass_frame (fuel : nat) (this : name_field Foreign)
  (ws ws' : workspace Foreign) (name legal : string) :
  renameClass Names_equals foreign_renameClass foreign_setOldName renameScope
    fuel this ws name = Some (legal, ws') ->
  length (getAllBlocks ws') = length (getAllBlocks ws) /\
  forall i b,
    nth_error (getAllBlocks ws) i = Some b ->
    exists b',
      nth_error (getAllBlocks ws') i = Some b' /\
      id b' = id b /\ isInFlyout b' = isInFlyout b /\
      match body b with
      | ClassB _ | MethodB _ => b' = b
      | SiteB s => body b' = SiteB s \/ body b' = SiteB (set_varType legal s)
      | ForeignB _ => exists f', body b' = ForeignB f'
      end.
Proof.
  intros H.
  apply (renameClass_inv Names_equals foreign_renameClass foreign_setOldName
           renameScope) in H as (_ & Hblocks & _).
  rewrite Hblocks.
  destruct (negb (String.eqb (text_ this) (JS.trim name))
            && negb (String.eqb (text_ this) legal)).
  - split; [apply length_map|]. intros i b Hb.
    eexists. split; [exact (map_nth_error _ _ _ Hb)|].
    unfold renameClass_round, block_setOldName, block_renameClass.
    destruct (body b) as [c|m|s|f] eqn:Eb; rewrite ?Eb;
      cbn [body with_body id isInFlyout]; rewrite ?Eb;
      cbn [body with_body id isInFlyout].
    + repeat split.
    + repeat split.
    + repeat split. unfold site_renameClass.
      destruct (varTypeIsSet s); [|now left].
      destruct (Names_equals (text_ this) (varType s)); [now right|now left].
    + repeat split. now eexists.
  - split; [reflexivity|]. intros i b Hb. exists b.
    repeat split; [exact Hb|].
    destruct (body b); try reflexivity; [now left|now eexists].
Qed.

(** X17: [renameMethod] changes no class block, no method block and no
    site: a site that has selected the renamed method keeps the old name
    as its current value; the variables and the number, the order and the
    identity of the blocks are kept. *)
Theorem renameMethod_frame (fuel : nat) (this : name_field Foreign)
  (ws ws' : workspace Foreign) (name legal : string) :
  renameMethod Names_equals foreign_renameProcedure fuel this ws name
  = Some (legal, ws') ->
  variableMap ws' = variableMap ws /\
  length (getAllBlocks ws') = length (getAllBlocks ws) /\
  forall i b,
    nth_error (getAllBlocks ws) i = Some b ->
    exists b',
      nth_error (getAllBlocks ws') i = Some b' /\
      id b' = id b /\ isInFlyout b' = isInFlyout b /\
      match body b with
      | ForeignB _ => exists f', body b' = ForeignB f'
      | _ => b' = b
      end.
Proof.
  unfold renameMethod.
  destruct (findLegalName _ _ _ _ _ _) as [legalName|]; [|discriminate].
  intros H. injection H as <- <-.
  destruct (negb _ && negb _).
  - cbn [variableMap getAllBlocks]. split; [reflexivity|].
    split; [apply length_map|]. intros i b Hb.
    eexists. split; [exact (map_nth_error _ _ _ Hb)|].
    unfold block_renameProcedure.
    destruct (body b) as [c|m|s|f] eqn:Eb;
      cbn [body with_body id isInFlyout]; repeat split.
    now eexists.
  - split; [reflexivity|]. split; [reflexivity|]. intros i b Hb. exists b.
    repeat split; [exact Hb|].
    destruct (body b); try reflexivity. now eexists.
Qed.

End Frames.

(** ** Trimming *)

Lemma trim_start_spec (s : string) :
  exists l, s = (l ++ JS.trim_start s)%string /\ all_spaces l = true /\
            forall c, first_char (JS.trim_start s) = Some c ->
                      JS.is_space c = false.
Proof.
  induction s as [|c s (l & Hs & Hl & Hc)].
  - exists EmptyString. repeat split. discriminate.
  - cbn [JS.trim_start]. destruct (JS.is_space c) eqn:E.
    + exists (String c l). cbn [append all_spaces]. rewrite <- Hs, E, Hl.
      repeat split. exact Hc.
    + exists EmptyString. repeat split. intros c' H. injection H as <-.
      exact E.
Qed.

Lemma trim_end_nonempty (c : ascii) (s : string) :
  JS.is_space c = false ->
  exists t, JS.trim_end (String c s) = String c t.
Proof.
  intros E. cbn [JS.trim_end]. destruct (JS.trim_end s).
  - rewrite E. now exists EmptyString.
  - now eexists.
Qed.

Lemma trim_end_spec (s : string) :
  exists r, s = (JS.trim_end s ++ r)%string /\ all_spaces r = true /\
            forall c, last_char (JS.trim_end s) = Some c ->
                      JS.is_space c = false.
Proof.
  induction s as [|c s (r & Hs & Hr & Hc)].
  - exists EmptyString. repeat split. discriminate.
  - cbn [JS.trim_end]. destruct (JS.trim_end s) as [|c' t] eqn:Et.
    + cbn [append] in Hs. subst r. destruct (JS.is_space c) eqn:E.
      * exists (String c s). cbn [append all_spaces]. rewrite E, Hr.
        repeat split. discriminate.
      * exists s. repeat split; trivial.
        intros c0 H. injection H as <-. exact E.
    + exists r. cbn [append]. repeat split; trivial.
      f_equal. exact Hs.
Qed.

Lemma trim_start_fixed (s : string) :
  (forall c, first_char s = Some c -> JS.is_space c = false) ->
  JS.trim_start s = s.
Proof.
  destruct s as [|c s]; [reflexivity|]. intros H. cbn [JS.trim_start].
  now rewrite (H c eq_refl).
Qed.

Lemma trim_end_fixed (s : string) :
  (forall c, last_char s = Some c -> JS.is_space c = false) ->
  JS.trim_end s = s.
Proof.
  induction s as [|c s IH]; [reflexivity|]. intros H. cbn [JS.trim_end].
  destruct s as [|c' s'].
  - cbn [JS.trim_end]. now rewrite (H c eq_refl).
  - rewrite IH; [reflexivity|]. intros c0 Hc. apply H. exact Hc.
Qed.

Lemma first_char_trim_end (s : string) (c : ascii) :
  (forall c, first_char s = Some c -> JS.is_space c = false) ->
  first_char (JS.trim_end s) = Some c -> JS.is_space c = false.
Proof.
  destruct s as [|c0 s]; [discriminate|]. intros H.
  destruct (trim_end_nonempty c0 s (H c0 eq_refl)) as (t & ->).
  intros E. injection E as <-. now apply H.
Qed.

(** X18: the replacement at the head of [renameClass] and [renameMethod]
    removes the padding and nothing else: the name is the trimmed name
    between a string of blanks and a string of blanks, the trimmed name
    neither begins nor ends with a blank, and trimming it again changes
    nothing. *)
Theorem trim_removes_the_padding (s : string) :
  (exists l r, s = (l ++ JS.trim s ++ r)%string /\
               all_spaces l = true /\ all_spaces r = true) /\
  (forall c, first_char (JS.trim s) = Some c -> JS.is_space c = false) /\
  (forall c, last_char (JS.trim s) = Some c -> JS.is_space c = false) /\
  JS.trim (JS.trim s) = JS.trim s.
Proof.
  unfold JS.trim.
  destruct (trim_start_spec s) as (l & Hs & Hl & Hfirst).
  destruct (trim_end_spec (JS.trim_start s)) as (r & Ht & Hr & Hlast).
  assert (Hfirst' : forall c, first_char (JS.trim_end (JS.trim_start s))
                              = Some c -> JS.is_space c = false)
    by (intros c; now apply first_char_trim_end).
  repeat split.
  - exists l, r. repeat split; trivial. now rewrite <- Ht.
  - exact Hfirst'.
  - exact Hlast.
  - rewrite (trim_start_fixed _ Hfirst'). now apply trim_end_fixed.
Qed.

Lemma trim_start_spaces (l s : string) :
  all_spaces l = true -> JS.trim_start (l ++ s) = JS.trim_start s.
Proof.
  induction l as [|c l IH]; [reflexivity|]. cbn [all_spaces append].
  intros H. apply andb_true_iff in H as (Hc & Hl).
  cbn [JS.trim_start]. rewrite Hc. now apply IH.
Qed.

Lemma trim_start_spaces_only (s : string) :
  all_spaces s = true -> JS.trim_start s = EmptyString.
Proof.
  induction s as [|c s IH]; [reflexivity|]. cbn [all_spaces].
  intros H. apply andb_true_iff in H as (Hc & Hs).
  cbn [JS.trim_start]. now rewrite Hc, IH.
Qed.

Lemma trim_end_spaces_only (r : string) :
  all_spaces r = true -> JS.trim_end r = EmptyString.
Proof.
  induction r as [|c r IH]; [reflexivity|]. cbn [all_spaces].
  intros H. apply andb_true_iff in H as (Hc & Hr).
  cbn [JS.trim_end]. now rewrite IH, Hc.
Qed.

Lemma trim_end_spaces (s r : string) :
  all_spaces r = true -> JS.trim_end (s ++ r) = JS.trim_end s.
Proof.
  intros Hr. induction s as [|c s IH].
  - now apply trim_end_spaces_only.
  - cbn [append JS.trim_end]. now rewrite IH.
Qed.

Lemma trim_start_app (s r : string) :
  all_spaces r = true ->
  JS.trim_start (s ++ r)
  = if all_spaces s then EmptyString else (JS.trim_start s ++ r)%string.
Proof.
  intros Hr. induction s as [|c s IH].
  - cbn [append all_spaces]. now apply trim_start_spaces_only.
  - cbn [append JS.trim_start all_spaces].
    destruct (JS.is_space c); [exact IH|reflexivity].
Qed.

Lemma trim_padded (l r name : string) :
  all_spaces l = true -> all_spaces r = true ->
  JS.trim (l ++ name ++ r) = JS.trim name.
Proof.
  intros Hl Hr. unfold JS.trim.
  rewrite (trim_start_spaces l _ Hl), (trim_start_app name r Hr).
  destruct (all_spaces name) eqn:E.
  - now rewrite (trim_start_spaces_only name E).
  - now apply trim_end_spaces.
Qed.

Section Padding.

Variable Names_equals : string -> string -> bool.
Context {Foreign : Type}.
Variable foreign_renameClass : Foreign -> string -> string -> Foreign.
Variable foreign_setOldName : Foreign -> string -> Foreign.
Variable foreign_renameProcedure : Foreign -> string -> string -> Foreign.
Variable renameScope :
  list VariableModel -> string -> string -> list VariableModel.

(** X19: blanks before and after the proposed name do not reach a rename:
    [renameClass] and [renameMethod] return the same legal name and leave
    the same workspace for the padded name as for the name. *)
Theorem rename_ignores_padding (fuel : nat) (this : name_field Foreign)
  (ws : workspace Foreign) (l r name : string) :
  all_spaces l = true -> all_spaces r = true ->
  renameClass Names_equals foreign_renameClass foreign_setOldName renameScope
    fuel this ws (l ++ name ++ r)
  = renameClass Names_equals foreign_renameClass foreign_setOldName
      renameScope fuel this ws name /\
  renameMethod Names_equals foreign_renameProcedure fuel this ws
    (l ++ name ++ r)
  = renameMethod Names_equals foreign_renameProcedure fuel this ws name.
Proof.
  intros Hl Hr. unfold renameClass, renameMethod.
  now rewrite (trim_padded l r name Hl Hr).
Qed.

End Padding.

(** X20: the match of [/^(.*?)(\d+)$/] in [findLegalName] splits a name
    into the part before its decimal suffix and the suffix: it gives [p]
    and [d] exactly when the name is [p] followed by [d], [d] is a string
    of one digit or more, and [p] has no line terminator and does not end
    with a digit. *)
Theorem match_suffix_splits (s p d : string) :
  JS.match_suffix s = Some (p, d) <->
  s = (p ++ d)%string /\ d <> EmptyString /\ JS.all_digits d = true /\
  no_line_terminator p = true /\ ends_in_digit p = false.
Proof.
  split.
  - revert p. induction s as [|c s IH]; intros p.
    + rewrite match_suffix_unfold. cbn [JS.digits_to_end]. discriminate.
    + rewrite match_suffix_unfold.
      destruct (JS.digits_to_end (String c s)) eqn:Ed.
      * intros H. injection H as <- <-. repeat split; [discriminate|exact Ed].
      * destruct (JS.is_line_terminator c) eqn:El; [discriminate|].
        destruct (JS.match_suffix s) as [[p' d']|]; [|discriminate].
        intros H. injection H as <- <-.
        destruct (IH p' eq_refl) as (-> & Hd & Hall & Hlt & Hend).
        repeat split; trivial.
        -- cbn [no_line_terminator]. now rewrite El, Hlt.
        -- destruct p' as [|c' p'']; [|exact Hend].
           cbn [append] in Ed. cbn [JS.digits_to_end JS.all_digits] in Ed.
           rewrite Hall, andb_true_r in Ed. exact Ed.
  - intros (-> & Hd & Hall & Hlt & Hend). now apply match_suffix_app.
Qed.

Section Names.

Variable Names_equals : string -> string -> bool.
Context {Foreign : Type}.

(** X21: a name [findLegalName] has returned is legal: proposed again for
    the same block, it is returned as it is, in the first round. *)
Theorem findLegalName_again (fuel fuel' : nat) (name legal : string)
  (ws : workspace Foreign) (blk : block Foreign) (type : string) :
  findLegalName Names_equals fuel name ws blk type = Some legal ->
  findLegalName Names_equals (S fuel') legal ws blk type = Some legal.
Proof.
  intros H. destruct (isInFlyout blk) eqn:Hfly.
  - unfold findLegalName. now rewrite Hfly.
  - apply findLegalName_unused_returns.
    unfold findLegalName in H. rewrite Hfly in H.
    now apply findLegalName_loop_unused in H.
Qed.

Lemma isNameUsed_loop_other_kind (name : string)
  (blocks : list (block Foreign)) (opt_exclude : option (block Foreign))
  (type : string) :
  type <> "class" -> type <> "method" ->
  isNameUsed_loop Names_equals Foreign name blocks opt_exclude type = false.
Proof.
  intros Hc Hm. apply String.eqb_neq in Hc, Hm.
  induction blocks as [|b blocks IH]; [reflexivity|].
  cbn [isNameUsed_loop]. rewrite Hc, Hm. cbn [andb].
  now destruct (match opt_exclude with
                | Some e => same_block b e
                | None => false
                end).
Qed.

(** X22: names are looked for among the classes and among the methods
    only: for every other kind no name is in use, and [findLegalName]
    returns the proposed name as it is. *)
Theorem other_kinds_have_no_names (fuel : nat) (name : string)
  (ws : workspace Foreign) (blk : block Foreign)
  (opt_exclude : option (block Foreign)) (type : string) :
  type <> "class" -> type <> "method" ->
  isNameUsed Names_equals name ws opt_exclude type = false /\
  findLegalName Names_equals (S fuel) name ws blk type = Some name.
Proof.
  intros Hc Hm. split.
  - now apply isNameUsed_loop_other_kind.
  - apply findLegalName_unused_returns.
    now apply isNameUsed_loop_other_kind.
Qed.

Hypothesis suffixes_apart :
  forall a p d1 d2,
    JS.all_digits d1 = true -> JS.all_digits d2 = true ->
    Names_equals a (p ++ d1) = true -> Names_equals a (p ++ d2) = true ->
    d1 = d2.

(** X23: below [2^53] the name [findLegalName] returns is the proposed name
    with the first free number: for the proposed name [p] followed by the
    digits [d], outside a flyout, it is [p] followed by the suffix number
    [i] counted from [d], every earlier suffix gives a name in use, and
    [i] is at most the number of blocks. *)
Theorem findLegalName_smallest_free_number (ws : workspace Foreign)
  (blk : block Foreign) (type p d : string) :
  isInFlyout blk = false ->
  no_line_terminator p = true -> ends_in_digit p = false ->
  JS.all_digits d = true ->
  (suffix_start d + N.of_nat (length (getAllBlocks ws)) < 2 ^ 53)%N ->
  exists i,
    i <= length (getAllBlocks ws) /\
    findLegalName Names_equals (S (length (getAllBlocks ws))) (p ++ d)
      ws blk type = Some (p ++ suffix_at d i)%string /\
    isNameUsed Names_equals (p ++ suffix_at d i) ws (Some blk) type = false /\
    forall j, j < i ->
      isNameUsed Names_equals (p ++ suffix_at d j) ws (Some blk) type = true.
Proof.
  intros Hfly Hlt Hend Hd Hrange.
  set (n := length (getAllBlocks ws)) in *.
  set (U := used_names (getAllBlocks ws) (Some blk) type).
  destruct (free_suffix Names_equals suffixes_apart p U
              (map (suffix_at d) (seq 0 (S n))))
    as (d' & Hin & Hfree).
  - apply NoDup_map_NoDup_ForallPairs; [|apply seq_NoDup].
    intros i j _ _ E. now apply suffix_at_inj in E.
  - apply Forall_forall. intros d' Hin.
    apply in_map_iff in Hin as (i & <- & _). now apply suffix_at_digits.
  - rewrite length_map, length_seq.
    pose proof (used_names_length (getAllBlocks ws) (Some blk) type) as H.
    fold U n in H. lia.
  - apply in_map_iff in Hin as (i & <- & Hi). apply in_seq in Hi.
    assert (Hused : isNameUsed Names_equals (candidate i (p ++ d)) ws
                      (Some blk) type = false).
    { rewrite candidate_suffix_at by (assumption || lia).
      unfold isNameUsed. now rewrite isNameUsed_loop_used_names. }
    destruct (findLegalName_loop_returns Names_equals ws blk type i (S n)
                (p ++ d) ltac:(lia) Hused) as (m & Hm & Hr & Hbefore).
    exists m. split; [lia|].
    unfold findLegalName. rewrite Hfly.
    rewrite candidate_suffix_at in Hr by (assumption || lia).
    split; [exact Hr|]. split.
    + now apply findLegalName_loop_unused
        with (fuel := S n) (name := (p ++ d)%string).
    + intros j Hj. specialize (Hbefore j Hj).
      now rewrite candidate_suffix_at in Hbefore by (assumption || lia).
Qed.

End Names.

(** ** The comparison of the parameter lists *)

Lemma strict_neq_sym (x y : option string) :
  strict_neq x y = strict_neq y x.
Proof.
  destruct x, y; cbn [strict_neq]; try reflexivity.
  now rewrite String.eqb_sym.
Qed.

(** X24: [arraysEqual] does not depend on the order of its arguments. *)
Theorem arraysEqual_sym (arr1 arr2 : list string) :
  arraysEqual arr1 arr2 = arraysEqual arr2 arr1.
Proof.
  unfold arraysEqual. rewrite (Nat.eqb_sym (length arr2)).
  destruct (Nat.eqb_spec (length arr1) (length arr2)) as [E|E];
    [|reflexivity].
  cbn [negb]. rewrite <- E. generalize (length arr1) as i.
  induction i as [|i IH]; [reflexivity|].
  cbn [arraysEqual_loop]. now rewrite strict_neq_sym, IH.
Qed.

(* ================================================================== *)
(** * Further properties: the workspace *)
(* ================================================================== *)

(** X25: a workspace that can be dragged is movable, a movable workspace
    has bounded content, a workspace with bounded content that is not
    movable has zoom controls, and without move and zoom options the content
    is not bounded. *)
Theorem movable_workspaces (options : Options) :
  (isDraggable options = true -> isMovable options = true) /\
  (isMovable options = true -> isContentBounded options = true) /\
  (isContentBounded options = true -> isMovable options = false ->
   has (zoomOptions options) zoom_controls = true) /\
  (moveOptions options = None -> zoomOptions options = None ->
   isContentBounded options = false).
Proof.
  unfold isDraggable, isMovable, isContentBounded.
  destruct (has (moveOptions options) move_scrollbars) eqn:E1,
    (has (moveOptions options) move_wheel) eqn:E2,
    (has (moveOptions options) move_drag) eqn:E3,
    (has (zoomOptions options) zoom_controls) eqn:E4,
    (has (zoomOptions options) zoom_wheel) eqn:E5;
    cbn [orb]; repeat split; try congruence;
    intros Hm Hz; rewrite ?Hm, ?Hz in *; discriminate.
Qed.

Lemma last_cons {A : Type} (e d : A) (l : list A) :
  last (e :: l) d = last l e.
Proof.
  revert e d. induction l as [|x l IH]; intros e d; [reflexivity|].
  change (last (e :: x :: l) d) with (last (x :: l) d).
  now rewrite !IH.
Qed.

(** X26: over any sequence of calls of [setResizesEnabled] the contents
    are resized once for each call that enables resizes while they are
    disabled, and never in a workspace that is not rendered; the setting
    at the end is that of the last call. *)
Theorem resizes_when_reenabled (calls : list bool) (this : WorkspaceSvg) :
  rendered (setResizesEnabled_each calls this) = rendered this /\
  resizesEnabled_ (setResizesEnabled_each calls this)
  = last calls (resizesEnabled_ this) /\
  resized (setResizesEnabled_each calls this) =
    resized this
    + (if rendered this then reenabled_count (resizesEnabled_ this) calls
       else 0).
Proof.
  revert this. induction calls as [|e calls IH]; intros this.
  - cbn. repeat split. destruct (rendered this); lia.
  - change (setResizesEnabled_each (e :: calls) this)
      with (setResizesEnabled_each calls (setResizesEnabled e this)).
    destruct (IH (setResizesEnabled e this)) as (Hr & He & Hn).
    rewrite Hr, He, Hn. clear IH Hr He Hn.
    destruct this as [en re n]. unfold setResizesEnabled, resizeContents.
    cbn [resizesEnabled_ rendered resized reenabled_count].
    destruct en, e, re; cbn [negb andb orb resizesEnabled_ rendered resized];
      (split; [reflexivity|split; [now rewrite last_cons|lia]]).
Qed.

Lemma renameClass_frame_witness :
  rename_pets 1 "Dog" = Some ("Dog", pets_renamed) /\
  exists b',
    nth_error (getAllBlocks pets_renamed) 0 = Some b' /\ b' = cat_class.
Proof.
  assert (H : renameClass exact_names no_foreign2 no_foreign1 renameScope_spec
                1 cat_field pets "Dog" = Some ("Dog", pets_renamed))
    by (vm_compute; reflexivity).
  split; [exact H|].
  destruct (renameClass_frame exact_names no_foreign2 no_foreign1
              renameScope_spec 1 cat_field pets pets_renamed "Dog" "Dog" H)
    as (_ & Hblocks).
  destruct (Hblocks 0 cat_class eq_refl) as (b' & Hb' & _ & _ & Hsame).
  exists b'. split; [exact Hb'|exact Hsame].
Defined.

Lemma renameMethod_frame_witness :
  let ws := zoo_with speak_site "class_function_noreturn" ["a"; "b"] in
  let this := mkField "speak" (speak "class_function_noreturn" ["a"; "b"]) in
  renameMethod exact_names no_foreign2 1 this ws "talk" = Some ("talk", ws) /\
  curValue speak_site = Str "speak" /\
  exists b',
    nth_error (getAllBlocks ws) 2 = Some b' /\
    b' = site_block "s1" speak_site.
Proof.
  cbv zeta.
  assert (H : renameMethod exact_names no_foreign2 1
                (mkField "speak" (speak "class_function_noreturn" ["a"; "b"]))
                (zoo_with speak_site "class_function_noreturn" ["a"; "b"])
                "talk"
              = Some ("talk",
                      zoo_with speak_site "class_function_noreturn"
                        ["a"; "b"]))
    by (vm_compute; reflexivity).
  split; [exact H|]. split; [vm_compute; reflexivity|].
  destruct (renameMethod_frame exact_names no_foreign2 1 _ _ _ _ _ H)
    as (_ & _ & Hblocks).
  destruct (Hblocks 2 (site_block "s1" speak_site) eq_refl)
    as (b' & Hb' & _ & _ & Hsame).
  exists b'. split; [exact Hb'|exact Hsame].
Defined.

Lemma trim_removes_the_padding_witness :
  JS.trim " Dog " = "Dog" /\
  JS.is_space "D"%char = false /\ JS.is_space "g"%char = false /\
  JS.trim (JS.trim " Dog ") = JS.trim " Dog ".
Proof.
  destruct (trim_removes_the_padding " Dog ") as (_ & Hfirst & Hlast & Hagain).
  split; [reflexivity|].
  split; [exact (Hfirst "D"%char eq_refl)|].
  split; [exact (Hlast "g"%char eq_refl)|exact Hagain].
Defined.

Lemma rename_ignores_padding_witness :
  all_spaces " " = true /\ all_spaces "  " = true /\
  rename_pets 1 (" " ++ "Dog" ++ "  ") = rename_pets 1 "Dog".
Proof.
  split; [reflexivity|]. split; [reflexivity|].
  exact (proj1 (rename_ignores_padding exact_names no_foreign2 no_foreign1
                  no_foreign2 renameScope_spec 1 cat_field pets
                  " " "  " "Dog" eq_refl eq_refl)).
Defined.

Lemma match_suffix_splits_witness :
  JS.match_suffix "Car12" = Some ("Car", "12") /\
  ends_in_digit "Car" = false /\ JS.all_digits "12" = true.
Proof.
  split; [reflexivity|].
  destruct (proj1 (match_suffix_splits "Car12" "Car" "12") eq_refl)
    as (_ & _ & Hall & _ & Hend).
  split; [exact Hend|exact Hall].
Defined.

Lemma findLegalName_again_witness :
  findLegalName exact_names 3 "Car" cars (class_block "c3" "Bus" [] []) "class"
  = Some "Car3" /\
  findLegalName exact_names 1 "Car3" cars (class_block "c3" "Bus" [] [])
    "class" = Some "Car3".
Proof.
  assert (H : findLegalName exact_names 3 "Car" cars
                (class_block "c3" "Bus" [] []) "class" = Some "Car3")
    by reflexivity.
  split; [exact H|].
  exact (findLegalName_again exact_names 3 0 "Car" "Car3" cars
           (class_block "c3" "Bus" [] []) "class" H).
Defined.

Lemma other_kinds_have_no_names_witness :
  isNameUsed exact_names "Car" cars None "class" = true /\
  isNameUsed exact_names "Car" cars None "function" = false /\
  findLegalName exact_names 1 "Car" cars (class_block "c3" "Bus" [] [])
    "function" = Some "Car".
Proof.
  split; [reflexivity|].
  apply (other_kinds_have_no_names exact_names 0 "Car" cars
           (class_block "c3" "Bus" [] []) None "function"); discriminate.
Defined.

Lemma findLegalName_smallest_free_number_witness :
  isNameUsed exact_names "Car" cars (Some (class_block "c3" "Bus" [] []))
    "class" = true /\
  exists i,
    i <= 2 /\
    findLegalName exact_names 3 ("Car" ++ "") cars
      (class_block "c3" "Bus" [] []) "class"
    = Some ("Car" ++ suffix_at "" i)%string /\
    isNameUsed exact_names ("Car" ++ suffix_at "" i) cars
      (Some (class_block "c3" "Bus" [] [])) "class" = false.
Proof.
  split; [reflexivity|].
  destruct (findLegalName_smallest_free_number exact_names
              exact_names_suffixes_apart cars (class_block "c3" "Bus" [] [])
              "class" "Car" "" eq_refl eq_refl eq_refl eq_refl eq_refl)
    as (i & Hi & Hlegal & Hfree & _).
  exists i. split; [exact Hi|]. split; [exact Hlegal|exact Hfree].
Defined.

Lemma movable_workspaces_witness :
  isDraggable drag_only = true /\ isMovable drag_only = true /\
  isContentBounded drag_only = true.
Proof.
  destruct (movable_workspaces drag_only) as (Hdrag & Hmove & _).
  split; [reflexivity|].
  split; [exact (Hdrag eq_refl)|exact (Hmove (Hdrag eq_refl))].
Defined.

(* ================================================================== *)
(** * Further properties: from an attribute back to a method *)
(* ================================================================== *)

(** The value inputs of a site without arguments are made anew, whatever
    names of parameters the site has recorded. *)
Lemma reconcile_args_fresh (this : site) (front : list input)
  (ps : list string) :
  inputList this = front ->
  (forall i, getInput (argName i) front = None) ->
  args this = 0 ->
  let this' := reconcile_args (Some ps) this in
  args this' = length ps /\ argNames this' = Some ps /\
  inputList this' = front ++ argInputs 0 (map (fun p => (p, None)) ps).
Proof.
  intros Hin Hfront Hargs this'. subst this'.
  unfold reconcile_args. rewrite Hargs, Hin.
  set (slots := map (fun p : string => (p, @None string)) ps).
  assert (Hlen : length slots = length ps) by apply length_map.
  assert (H1 : exists this1,
             (if Nat.eqb 0 (length ps) then this
              else
                let '(a, inputs) :=
                  if Nat.ltb (length ps) 0
                  then removeArgs 0 (length ps) front
                  else addArgs (length ps - 0) 0 ps front in
                set_inputList inputs (set_args a this)) = this1 /\
             args this1 = length ps /\
             inputList this1 = front ++ argInputs 0 slots).
  { eexists. split; [reflexivity|].
    destruct ps as [|p ps'].
    - cbn. rewrite app_nil_r. split; assumption.
    - cbn [length Nat.eqb Nat.ltb Nat.leb].
      pose proof (addArgs_slots front Hfront (length (p :: ps')) []
                    (p :: ps') eq_refl) as Hadd.
      cbn [argInputs length skipn app] in Hadd. rewrite app_nil_r in Hadd.
      rewrite Nat.sub_0_r. cbn [length] in Hadd. rewrite Hadd.
      split; reflexivity. }
  destruct H1 as (this1 & -> & Ha1 & Hi1).
  destruct (arraysEqual_js (argNames this1) (Some ps)) as [| |k] eqn:Eres;
    cbn [args argNames inputList set_argNames set_inputList];
    try (repeat split; assumption).
  split; [exact Ha1|]. split; [reflexivity|]. rewrite Hi1.
  destruct (argNames this1) as [names|]; [|discriminate].
  cbn [arraysEqual_js] in Eres. unfold arraysEqual in Eres.
  destruct (Nat.eqb_spec (length names) (length ps)) as [El|El];
    [|discriminate].
  cbn [negb] in Eres.
  pose proof (arraysEqual_loop_spec names ps (length names)) as Hloop.
  rewrite Eres in Hloop. destruct Hloop as (Hk & _).
  destruct (nth_error slots k) as [x|] eqn:Ex;
    [|apply nth_error_None in Ex; lia].
  assert (Hx : x = (nth k ps "", None)).
  { unfold slots in Ex. rewrite nth_error_map in Ex.
    destruct (nth_error ps k) as [p|] eqn:Ep; [|discriminate].
    injection Ex as <-. now rewrite (nth_error_nth _ _ _ Ep). }
  pose proof Ex as Hsplit. apply firstn_skipn_middle in Hsplit.
  assert (Hfk : length (firstn k slots) = k)
    by (rewrite length_firstn; lia).
  pose proof (replace_slot front Hfront (firstn k slots)
                (skipn (S k) slots) x (nth k ps "")) as Hrep.
  cbv zeta in Hrep. rewrite Hfk, Hsplit in Hrep.
  rewrite Hrep, <- Hx, Hsplit. reflexivity.
Qed.

Section Again.

Context {Foreign : Type}.
Variables (ws main : workspace Foreign) (variableModel : VariableModel).

(** X27: the blocks plugged into the value inputs do not come back: when
    a method is selected on a site that has no value input and no argument,
    as [onchange] leaves it when an attribute is shown, [onchange] gives it
    one value input for each parameter, labelled with the parameter and
    with nothing plugged in, whatever names of parameters the site has
    recorded before. *)
Theorem onchange_method_after_attribute (this : site) (m : string)
  (ps : list string) (front : list input) :
  let this' := onchange false ws main variableModel this in
  selects_method this m ->
  getMethodAttributes ws m = Some ps ->
  inputList this = front ->
  (forall i, getInput (argName i) front = None) ->
  args this = 0 ->
  args this' = length ps /\ argNames this' = Some ps /\
  inputList this' = front ++ argInputs 0 (map (fun p => (p, None)) ps).
Proof.
  intros this' Hsel Hps Hin Hfront Hargs. subst this'.
  rewrite (onchange_selects_method ws main variableModel this m Hsel).
  destruct (onchange_colour_frame main variableModel this) as (c & b & ->).
  unfold onchange_method. rewrite Hps. cbv zeta.
  apply reconcile_args_fresh; [|exact Hfront|].
  - destruct (find_methodBlock (getAllBlocks ws) m None) as [mb|];
      [|exact Hin].
    match goal with
    | |- context [setType ?r ?s] => rewrite (setType_frame r s)
    end.
    exact Hin.
  - destruct (find_methodBlock (getAllBlocks ws) m None) as [mb|];
      [|exact Hargs].
    match goal with
    | |- context [setType ?r ?s] => rewrite (setType_frame r s)
    end.
    exact Hargs.
Qed.

End Again.

Lemma repicked_site_selects_speak : selects_method repicked_site "speak".
Proof. unfold selects_method. vm_compute. repeat split; discriminate. Qed.

Lemma onchange_method_after_attribute_witness :
  value_inputs plugged_site =
    [("ARG0", [FieldLabel "a"], Some "x1");
     ("ARG1", [FieldLabel "b"], Some "x2")] /\
  argNames repicked_site = Some ["a"; "b"] /\
  (let this' := onchange false zoo_noreturn zoo_noreturn rex repicked_site in
   args this' = 2 /\
   inputList this' =
     plugged_front ++ argInputs 0 [("a", None); ("b", None)]).
Proof.
  pose proof (onchange_method_after_attribute zoo_noreturn zoo_noreturn rex
                repicked_site "speak" ["a"; "b"] plugged_front
                repicked_site_selects_speak eq_refl) as H.
  cbv zeta in H. destruct H as (H1 & _ & H2).
  - vm_compute. reflexivity.
  - repeat split.
  - vm_compute. reflexivity.
  - split; [vm_compute; reflexivity|]. split; [vm_compute; reflexivity|].
    split; [exact H1|exact H2].
Defined.
